(** * Customer-journey GraphRAG: the retrieval engine of [src/retrieval.py]

    A shallow embedding of the retrieval module over a model of the
    [networkx.DiGraph] it reads, with the Python values it handles
    ([None], [bool], [int], [float], [str]), the exceptions it can raise,
    and the graph threaded as explicit state so that read-only behaviour
    is a theorem rather than a typing accident. *)

From Stdlib Require Import ZArith List String Ascii Bool Lia Sorted Permutation.
From Stdlib Require Import Floats.SpecFloat Numbers.DecimalString.
From Stdlib Require Import Reals Lra.
Import ListNotations.
Open Scope string_scope.
Open Scope Z_scope.

(** List append, kept apart from the [++] of strings. *)
Infix "+++" := (@List.app _) (at level 60, right associativity).

(* ===================================================================== *)
(** ** Python numbers *)
(* ===================================================================== *)

Module PyFloat.

(** A Python [float] is an IEEE-754 binary64; [spec_float] is its
    bit-exact specification (finite values are [(-1)^s * m * 2^e]). *)
Definition float := spec_float.
Definition prec := 53.
Definition emax := 1024.

Definition fadd : float -> float -> float := SFadd prec emax.
Definition fsub : float -> float -> float := SFsub prec emax.
Definition fmul : float -> float -> float := SFmul prec emax.
Definition fdiv : float -> float -> float := SFdiv prec emax.

(** Nearest binary64 to an integer, ties to even ([float(n)] before its
    overflow check). *)
Definition of_Z (z : Z) : float := binary_normalize prec emax z 0 false.

(** Nearest binary64 to the quotient of two integers: numerator and
    denominator enter the division unrounded, so the only rounding is that
    of the quotient. *)
Definition raw (z : Z) : float :=
  match z with
  | Z0 => S754_zero false
  | Zpos p => S754_finite false p 0
  | Zneg p => S754_finite true p 0
  end.

Definition of_ratio (n d : Z) : float := fdiv (raw n) (raw d).

Definition is_inf (f : float) : bool :=
  match f with S754_infinity _ => true | _ => false end.

Definition is_zero (f : float) : bool :=
  match f with S754_zero _ => true | _ => false end.

(** Exact comparison of [m1 * 2^e1] with [m2 * 2^e2]. *)
Definition cmp_dyadic (m1 e1 m2 e2 : Z) : comparison :=
  let e := Z.min e1 e2 in
  Z.compare (m1 * 2 ^ (e1 - e)) (m2 * 2 ^ (e2 - e)).

(** Python compares an [int] with a [float] by value, without rounding
    the integer. [None] stands for "unordered" (a NaN is involved). *)
Definition cmp_Z_float (z : Z) (f : float) : option comparison :=
  match f with
  | S754_nan => None
  | S754_infinity s => Some (if s then Gt else Lt)
  | S754_zero _ => Some (Z.compare z 0)
  | S754_finite s m e =>
      Some (cmp_dyadic z 0 (if s then Zneg m else Zpos m) e)
  end.

(** [round_half_even (n / d)] for [d > 0]. *)
Definition div_half_even (n d : Z) : Z :=
  let q := n / d in
  let r := n mod d in
  match Z.compare (2 * r) d with
  | Lt => q
  | Gt => q + 1
  | Eq => if Z.even q then q else q + 1
  end.

(** The magnitude [m * 2^e], scaled by [10^k] and rounded half-even to an
    integer: the digits of the value correctly rounded to [k] decimals. *)
Definition scaled_digits (m : positive) (e : Z) (k : Z) : Z :=
  if 0 <=? e then Zpos m * 2 ^ e * 10 ^ k
  else div_half_even (Zpos m * 10 ^ k) (2 ^ (- e)).

(** Built-in [round(x, k)] on a float, for the small non-negative [k]
    this module uses: the exact binary value is rounded half-even to [k]
    decimals, and the resulting decimal is converted back to the nearest
    binary64. NaN, infinities and zeros round to themselves. *)
Definition round_to (k : Z) (f : float) : float :=
  match f with
  | S754_finite s m e =>
      let n := scaled_digits m e k in
      if n =? 0 then S754_zero s
      else of_ratio (if s then - n else n) (10 ^ k)
  | _ => f
  end.

(** *** Decimal rendering *)

Definition digits_of_Z (z : Z) : string := NilZero.string_of_int (Z.to_int z).

Fixpoint zeros (n : nat) : string :=
  match n with O => "" | S n' => String "0" (zeros n') end.

Definition take (n : nat) (s : string) : string := substring 0 n s.
Definition drop (n : nat) (s : string) : string := substring n (length s - n) s.

(** Fixed-point text of [n / 10^k] for [n >= 0]: at least one digit before
    the point and exactly [k] after it. *)
Definition fixed_text (neg : bool) (n : Z) (k : nat) : string :=
  let ds := digits_of_Z n in
  let ds := zeros (S k - length ds) ++ ds in
  let ip := take (length ds - k) ds in
  let fp := drop (length ds - k) ds in
  (if neg then "-" else "") ++ ip ++ (match k with O => "" | _ => "." ++ fp end).

(** [format(x, ".kf")]: correctly rounded, half-even on the exact value. *)
Definition format_f (k : nat) (f : float) : string :=
  match f with
  | S754_nan => "nan"
  | S754_infinity s => if s then "-inf" else "inf"
  | S754_zero s => fixed_text s 0 k
  | S754_finite s m e => fixed_text s (scaled_digits m e (Z.of_nat k)) k
  end.

(** Exact comparison of [D * 10^p] with [B * 2^q]. *)
Definition cmp_dec_bin (D p B q : Z) : comparison :=
  Z.compare (D * 10 ^ Z.max p 0 * 2 ^ Z.max (- q) 0)
            (B * 2 ^ Z.max q 0 * 10 ^ Z.max (- p) 0).

Section Shortest.
(** The positive binary64 [m * 2^e] whose shortest round-tripping
    decimal is wanted. *)
Variable m : positive.
Variable e : Z.

(** Half-way points to the neighbouring floats, in units of [2^(e-2)].
    Below a power of two the lower neighbour is twice as close. *)
Definition upper_mid : Z := 4 * Zpos m + 2.
Definition lower_mid : Z :=
  if (Zpos m =? 2 ^ (prec - 1)) && (3 - emax - prec <? e)
  then 4 * Zpos m - 1 else 4 * Zpos m - 2.

(** Does the decimal [D * 10^p] read back (round to nearest, ties to
    even) as this float? *)
Definition reads_back (D p : Z) : bool :=
  let incl := Z.even (Zpos m) in
  (match cmp_dec_bin D p lower_mid (e - 2) with
   | Gt => true | Eq => incl | Lt => false end)
  &&
  (match cmp_dec_bin D p upper_mid (e - 2) with
   | Lt => true | Eq => incl | Gt => false end).

Fixpoint log10_down (fuel : nat) (t : Z) : Z :=
  match fuel with
  | O => t
  | S fuel' =>
      match cmp_dec_bin 1 t (Zpos m) e with
      | Gt => log10_down fuel' (t - 1)
      | _ => t
      end
  end.

Fixpoint log10_up (fuel : nat) (t : Z) : Z :=
  match fuel with
  | O => t
  | S fuel' =>
      match cmp_dec_bin 1 (t + 1) (Zpos m) e with
      | Gt => t
      | _ => log10_up fuel' (t + 1)
      end
  end.

(** [t] with [10^t <= m * 2^e < 10^(t+1)]: an estimate from the bit
    length, then corrected by exact comparisons. *)
Definition floor_log10 : Z :=
  let bits := Zpos (digits2_pos m) + e in
  log10_up 700 (log10_down 700 ((bits - 1) * 30103 / 100000)).

(** The [n]-digit decimals just below and just above the value. *)
Definition digits_below (p : Z) : Z :=
  (Zpos m * 2 ^ Z.max e 0 * 10 ^ Z.max (- p) 0)
  / (2 ^ Z.max (- e) 0 * 10 ^ Z.max p 0).

Definition candidate (n : Z) : option (Z * Z) :=
  let p := floor_log10 - n + 1 in
  let lo := digits_below p in
  let hi := lo + 1 in
  match reads_back lo p, reads_back hi p with
  | true, false => Some (lo, p)
  | false, true => Some (hi, p)
  | false, false => None
  | true, true =>
      match cmp_dec_bin (2 * lo + 1) p (2 * Zpos m) e with
      | Gt => Some (lo, p)
      | Lt => Some (hi, p)
      | Eq => Some (if Z.even lo then lo else hi, p)
      end
  end.

Fixpoint shortest_from (fuel : nat) (n : Z) : Z * Z :=
  match fuel with
  | O => (digits_below (floor_log10 - 16), floor_log10 - 16)
  | S fuel' =>
      match candidate n with
      | Some c => c
      | None => shortest_from fuel' (n + 1)
      end
  end.

(** Shortest digit string that reads back as the float, nearest to it
    among the shortest (17 digits always suffice). *)
Definition shortest : Z * Z := shortest_from 17 1.
End Shortest.

Fixpoint strip_zeros (fuel : nat) (D p : Z) : Z * Z :=
  match fuel with
  | O => (D, p)
  | S fuel' =>
      if (D mod 10 =? 0) && negb (D =? 0) then strip_zeros fuel' (D / 10) (p + 1)
      else (D, p)
  end.

Definition exp_text (x : Z) : string :=
  let a := digits_of_Z (Z.abs x) in
  (if x <? 0 then "-" else "+") ++ zeros (2 - length a) ++ a.

(** [repr(x)] of a float: the shortest round-tripping digits, in
    exponent notation when the decimal point falls outside -4 < pt <= 16. *)
Definition repr (f : float) : string :=
  match f with
  | S754_nan => "nan"
  | S754_infinity s => if s then "-inf" else "inf"
  | S754_zero s => if s then "-0.0" else "0.0"
  | S754_finite s m e =>
      let '(D0, p0) := shortest m e in
      let '(D, p) := strip_zeros 20 D0 p0 in
      let ds := digits_of_Z D in
      let nd := Z.of_nat (length ds) in
      let pt := nd + p in
      let body :=
        if (pt <=? -4) || (16 <? pt) then
          take 1 ds ++ (if 1 <? nd then "." ++ drop 1 ds else "")
                 ++ "e" ++ exp_text (pt - 1)
        else if pt <=? 0 then "0." ++ zeros (Z.to_nat (- pt)) ++ ds
        else if nd <=? pt then ds ++ zeros (Z.to_nat (pt - nd)) ++ ".0"
        else take (Z.to_nat pt) ds ++ "." ++ drop (Z.to_nat pt) ds
      in (if s then "-" else "") ++ body
  end.

End PyFloat.

Export PyFloat.

(* ===================================================================== *)
(** ** Exceptions and fallible results *)
(* ===================================================================== *)

(** The exception classes the module's expressions can raise. *)
Inductive exn : Type :=
| KeyError
| TypeError
| ValueError
| ZeroDivisionError
| OverflowError
| NetworkXError.

Inductive result (A : Type) : Type :=
| Ok (a : A)
| Err (e : exn).
Arguments Ok {A} a.
Arguments Err {A} e.

Definition rbind {A B} (r : result A) (k : A -> result B) : result B :=
  match r with
  | Ok a => k a
  | Err e => Err e
  end.

Notation "'let?' x ':=' r 'in' k" := (rbind r (fun x => k))
  (at level 10, x pattern, r at level 100, k at level 200).

Fixpoint rmap {A B} (f : A -> result B) (l : list A) : result (list B) :=
  match l with
  | [] => Ok []
  | x :: l' =>
      let? y := f x in
      let? ys := rmap f l' in
      Ok (y :: ys)
  end.

(* ===================================================================== *)
(** ** Python values *)
(* ===================================================================== *)

(** The attribute values of the journey graph: [None], [bool], [int],
    [float] and [str]. *)
Inductive value : Type :=
| VNone
| VBool (b : bool)
| VInt (z : Z)
| VFloat (f : float)
| VStr (s : string).

(** [int] and [float] results of arithmetic. *)
Inductive number : Type :=
| NInt (z : Z)
| NFloat (f : float).

(** [bool] is a subclass of [int]. *)
Definition as_number (v : value) : option number :=
  match v with
  | VBool b => Some (NInt (if b then 1 else 0))
  | VInt z => Some (NInt z)
  | VFloat f => Some (NFloat f)
  | VNone | VStr _ => None
  end.

(** Numeric comparison by exact value; [None] when a NaN is involved. *)
Definition num_cmp (a b : number) : option comparison :=
  match a, b with
  | NInt x, NInt y => Some (Z.compare x y)
  | NInt x, NFloat g => cmp_Z_float x g
  | NFloat f, NInt y => option_map CompOpp (cmp_Z_float y f)
  | NFloat f, NFloat g => SFcompare f g
  end.

Definition num_eqb (a b : number) : bool :=
  match num_cmp a b with Some Eq => true | _ => false end.

Definition num_ltb (a b : number) : bool :=
  match num_cmp a b with Some Lt => true | _ => false end.

(** [a == b]: numbers (booleans included) compare by value, strings by
    content, [None] equals only itself; it never raises. *)
Definition py_eqb (a b : value) : bool :=
  match a, b with
  | VNone, VNone => true
  | VStr s, VStr t => String.eqb s t
  | _, _ =>
      match as_number a, as_number b with
      | Some x, Some y => num_eqb x y
      | _, _ => false
      end
  end.

(** [a < b]: defined between two numbers and between two strings (by code
    point, which is the byte order of UTF-8); [TypeError] otherwise. *)
Definition py_lt (a b : value) : result bool :=
  match a, b with
  | VStr s, VStr t => Ok (String.ltb s t)
  | _, _ =>
      match as_number a, as_number b with
      | Some x, Some y => Ok (num_ltb x y)
      | _, _ => Err TypeError
      end
  end.

(** [bool(v)]. *)
Definition truthy (v : value) : bool :=
  match v with
  | VNone => false
  | VBool b => b
  | VInt z => negb (z =? 0)
  | VFloat f => negb (is_zero f)
  | VStr s => negb (String.eqb s "")
  end.

(** [float(n)] for an [int]: [OverflowError] beyond the binary64 range. *)
Definition to_float (n : number) : result float :=
  match n with
  | NFloat f => Ok f
  | NInt z => let f := of_Z z in if is_inf f then Err OverflowError else Ok f
  end.

Definition py_add (a b : number) : result number :=
  match a, b with
  | NInt x, NInt y => Ok (NInt (x + y))
  | _, _ =>
      let? f := to_float a in
      let? g := to_float b in
      Ok (NFloat (fadd f g))
  end.

Definition py_sub (a b : number) : result number :=
  match a, b with
  | NInt x, NInt y => Ok (NInt (x - y))
  | _, _ =>
      let? f := to_float a in
      let? g := to_float b in
      Ok (NFloat (fsub f g))
  end.

Definition py_mul (a b : number) : result number :=
  match a, b with
  | NInt x, NInt y => Ok (NInt (x * y))
  | _, _ =>
      let? f := to_float a in
      let? g := to_float b in
      Ok (NFloat (fmul f g))
  end.

(** True division [a / b]. Two integers are divided exactly and the
    quotient rounded once; a zero divisor raises [ZeroDivisionError]. *)
Definition py_truediv (a b : number) : result number :=
  match a, b with
  | NInt x, NInt y =>
      if y =? 0 then Err ZeroDivisionError
      else
        let q := of_ratio x y in
        if is_inf q then Err OverflowError else Ok (NFloat q)
  | _, _ =>
      let? f := to_float a in
      let? g := to_float b in
      if is_zero g then Err ZeroDivisionError else Ok (NFloat (fdiv f g))
  end.

(** [round(x, k)] with an explicit number of digits [k >= 0]: an [int] is
    returned unchanged, a [float] is rounded half-even on its decimal
    expansion. *)
Definition py_round (x : number) (k : Z) : number :=
  match x with
  | NInt z => NInt z
  | NFloat f => NFloat (round_to k f)
  end.

Definition py_abs (x : number) : number :=
  match x with
  | NInt z => NInt (Z.abs z)
  | NFloat f => NFloat (SFabs f)
  end.

(** *** Text *)

Definition str_of_number (n : number) : string :=
  match n with
  | NInt z => digits_of_Z z
  | NFloat f => repr f
  end.

(** [str(v)], which is what an f-string field without a format spec shows. *)
Definition py_str (v : value) : string :=
  match v with
  | VNone => "None"
  | VBool b => if b then "True" else "False"
  | VInt z => digits_of_Z z
  | VFloat f => repr f
  | VStr s => s
  end.

(** [format(v, ".2f")]: numbers only; [None] raises [TypeError] and a
    string [ValueError]. *)
Definition py_format_2f (v : value) : result string :=
  match v with
  | VNone => Err TypeError
  | VStr _ => Err ValueError
  | _ =>
      match as_number v with
      | Some n => let? f := to_float n in Ok (format_f 2 f)
      | None => Err TypeError
      end
  end.

Definition format_1f (n : number) : result string :=
  let? f := to_float n in Ok (format_f 1 f).

Definition is_lower (c : ascii) : bool :=
  let n := nat_of_ascii c in (97 <=? n)%nat && (n <=? 122)%nat.
Definition is_upper (c : ascii) : bool :=
  let n := nat_of_ascii c in (65 <=? n)%nat && (n <=? 90)%nat.
Definition to_upper (c : ascii) : ascii :=
  if is_lower c then ascii_of_nat (nat_of_ascii c - 32) else c.
Definition to_lower (c : ascii) : ascii :=
  if is_upper c then ascii_of_nat (nat_of_ascii c + 32) else c.

(** [str.title()] on ASCII text: a letter that follows a non-letter is
    upper-cased, every other letter lower-cased. Bytes outside ASCII are
    copied and count as non-letters. *)
Fixpoint title_from (prev_cased : bool) (s : string) : string :=
  match s with
  | EmptyString => EmptyString
  | String c s' =>
      let cased := is_lower c || is_upper c in
      String (if prev_cased then to_lower c else to_upper c) (title_from cased s')
  end.

Definition title (s : string) : string := title_from false s.

Definition join (sep : string) (parts : list string) : string :=
  String.concat sep parts.

(** The separator of pattern strings and journey narrations: space,
    U+2192 (as UTF-8), space. *)
Definition arrow : string := " → ".

Definition NL : string := String (ascii_of_nat 10) EmptyString.

(* ===================================================================== *)
(** ** The journey graph *)
(* ===================================================================== *)

(** An attribute dictionary, in insertion order. *)
Definition attrs := list (string * value).

Fixpoint lookup (d : attrs) (k : string) : option value :=
  match d with
  | [] => None
  | (k', v) :: d' => if String.eqb k' k then Some v else lookup d' k
  end.

(** [d.get(k)] and [d.get(k, default)]. *)
Definition get (d : attrs) (k : string) : value :=
  match lookup d k with Some v => v | None => VNone end.

Definition get_or (d : attrs) (k : string) (dflt : value) : value :=
  match lookup d k with Some v => v | None => dflt end.

(** A [networkx.DiGraph]: the node dictionary in insertion order, and the
    edges in insertion order, from which the successor and predecessor
    views take theirs. *)
Record Graph : Type := mkGraph {
  g_nodes : list (string * attrs);
  g_edges : list (string * string * attrs)
}.

Definition empty_graph : Graph := mkGraph [] [].

Fixpoint find_node (ns : list (string * attrs)) (n : string) : option attrs :=
  match ns with
  | [] => None
  | (n', d) :: ns' => if String.eqb n' n then Some d else find_node ns' n
  end.

Definition mem_node (G : Graph) (n : string) : bool :=
  match find_node (g_nodes G) n with Some _ => true | None => false end.

Definition succ_list (G : Graph) (n : string) : list string :=
  map (fun e => snd (fst e))
      (filter (fun e => String.eqb (fst (fst e)) n) (g_edges G)).

Definition pred_list (G : Graph) (n : string) : list string :=
  map (fun e => fst (fst e))
      (filter (fun e => String.eqb (snd (fst e)) n) (g_edges G)).

Fixpoint find_edge (es : list (string * string * attrs)) (u v : string)
  : option attrs :=
  match es with
  | [] => None
  | (u', v', d) :: es' =>
      if String.eqb u' u && String.eqb v' v then Some d else find_edge es' u v
  end.

(** [d.update(new)]: existing keys keep their place. *)
Fixpoint attrs_set (k : string) (v : value) (d : attrs) : attrs :=
  match d with
  | [] => [(k, v)]
  | (k', v') :: d' =>
      if String.eqb k' k then (k', v) :: d' else (k', v') :: attrs_set k v d'
  end.

Definition attrs_update (d new : attrs) : attrs :=
  fold_left (fun d kv => attrs_set (fst kv) (snd kv) d) new d.

(** Construction as [G.add_node] and [G.add_edge] do it: a node or an edge
    that is already there keeps its place and has its attributes updated;
    [add_edge] first adds the end points it does not find. *)
Definition add_node (n : string) (d : attrs) (G : Graph) : Graph :=
  if mem_node G n then
    mkGraph (map (fun nd => if String.eqb (fst nd) n
                            then (fst nd, attrs_update (snd nd) d) else nd)
                 (g_nodes G))
            (g_edges G)
  else mkGraph (g_nodes G +++ [(n, d)]) (g_edges G).

Definition add_edge (u v : string) (d : attrs) (G : Graph) : Graph :=
  let with_u :=
    if mem_node G u then g_nodes G else (g_nodes G +++ [(u, [])]) in
  let with_v :=
    match find_node with_u v with
    | Some _ => with_u
    | None => with_u +++ [(v, [])]
    end in
  let edges :=
    match find_edge (g_edges G) u v with
    | Some _ =>
        map (fun e => if String.eqb (fst (fst e)) u && String.eqb (snd (fst e)) v
                      then (fst e, attrs_update (snd e) d) else e)
            (g_edges G)
    | None => g_edges G +++ [(u, v, d)]
    end in
  mkGraph with_v edges.

(* ===================================================================== *)
(** ** Computations over the graph store *)
(* ===================================================================== *)

(** A computation receives the graph store, may raise, and hands the store
    back: the state is threaded so that what a call does to the graph can
    be stated. *)
Definition M (A : Type) : Type := Graph -> result A * Graph.

Definition ret {A} (a : A) : M A := fun G => (Ok a, G).
Definition raise {A} (e : exn) : M A := fun G => (Err e, G).
Definition lift {A} (r : result A) : M A := fun G => (r, G).

Definition bind {A B} (m : M A) (k : A -> M B) : M B :=
  fun G =>
    match m G with
    | (Ok a, G') => k a G'
    | (Err e, G') => (Err e, G')
    end.

Notation "'let*' x ':=' m 'in' k" := (bind m (fun x => k))
  (at level 10, x pattern, m at level 100, k at level 200).

Definition run {A} (m : M A) (G : Graph) : result A := fst (m G).

(** *** The [DiGraph] interface the module uses *)

(** [n in G]. *)
Definition has_node (n : string) : M bool :=
  fun G => (Ok (mem_node G n), G).

(** [G.nodes[n]]: [KeyError] for a node that is not there. *)
Definition node_attrs (n : string) : M attrs :=
  fun G =>
    (match find_node (g_nodes G) n with Some d => Ok d | None => Err KeyError end, G).

(** [G.successors(n)] and [G.predecessors(n)]: [NetworkXError] for a node
    that is not in the graph. *)
Definition successors (n : string) : M (list string) :=
  fun G => (if mem_node G n then Ok (succ_list G n) else Err NetworkXError, G).

Definition predecessors (n : string) : M (list string) :=
  fun G => (if mem_node G n then Ok (pred_list G n) else Err NetworkXError, G).

(** [G.edges[u, v]]. *)
Definition edge_attrs (u v : string) : M attrs :=
  fun G =>
    (match find_edge (g_edges G) u v with Some d => Ok d | None => Err KeyError end, G).

(** [G.nodes(data=True)]. *)
Definition nodes_data : M (list (string * attrs)) :=
  fun G => (Ok (g_nodes G), G).

(** *** Loops *)

(** How one iteration of a [for] body ends: by falling through or
    [continue], or by [break]. *)
Inductive ctl (S : Type) : Type :=
| Continue (s : S)
| Break (s : S).
Arguments Continue {S} s.
Arguments Break {S} s.

(** [for x in l: body], the loop's local variables carried as [s]. *)
Fixpoint for_each {A S} (l : list A) (body : A -> S -> M (ctl S)) (s : S) : M S :=
  match l with
  | [] => ret s
  | x :: l' =>
      let* c := body x s in
      match c with
      | Continue s' => for_each l' body s'
      | Break s' => ret s'
      end
  end.

(** [[f(x) for x in l]]. *)
Fixpoint mapM {A B} (f : A -> M B) (l : list A) : M (list B) :=
  match l with
  | [] => ret []
  | x :: l' =>
      let* y := f x in
      let* ys := mapM f l' in
      ret (y :: ys)
  end.

(** [[x for x in l if p(x)]]. *)
Fixpoint filterM {A} (p : A -> M bool) (l : list A) : M (list A) :=
  match l with
  | [] => ret []
  | x :: l' =>
      let* b := p x in
      let* xs := filterM p l' in
      ret (if b then x :: xs else xs)
  end.

(** [any(p(x) for x in l)]: stops at the first true. *)
Fixpoint anyM {A} (p : A -> M bool) (l : list A) : M bool :=
  match l with
  | [] => ret false
  | x :: l' =>
      let* b := p x in
      if b then ret true else anyM p l'
  end.

(** [for x in l: if p(x): found = x; break], with [found] initially
    [None]. *)
Fixpoint first_where {A} (p : A -> M bool) (l : list A) : M (option A) :=
  match l with
  | [] => ret None
  | x :: l' =>
      let* b := p x in
      if b then ret (Some x) else first_where p l'
  end.

(** [l[:k]], a negative [k] counting from the end. *)
Definition slice_to {A} (k : Z) (l : list A) : list A :=
  if k <? 0 then firstn (Z.to_nat (Z.of_nat (List.length l) + k)) l
  else firstn (Z.to_nat k) l.

Definition len {A} (l : list A) : Z := Z.of_nat (List.length l).

(* ===================================================================== *)
(** ** Sorting and counting *)
(* ===================================================================== *)

(** [list.sort(key=...)] is a stable sort that compares keys with [<]
    only. On keys that [<] orders consistently every stable sort returns
    the same list, so insertion from the right models it; any two keys [<]
    cannot compare raise [TypeError], as they do in Python as soon as the
    list has two elements. With a NaN among float keys [<] is not
    consistent, and the order CPython's merge strategy then leaves is not
    modelled: whether the call returns, and which elements it returns, is
    as here, but statements about the order are made for keys without
    NaN only. *)
Fixpoint insert_by {A} (key : A -> value) (x : A) (l : list A) : result (list A) :=
  match l with
  | [] => Ok [x]
  | h :: t =>
      let? before := py_lt (key h) (key x) in
      if before then
        let? t' := insert_by key x t in Ok (h :: t')
      else Ok (x :: l)
  end.

Fixpoint sort_by {A} (key : A -> value) (l : list A) : result (list A) :=
  match l with
  | [] => Ok []
  | x :: l' =>
      let? sorted := sort_by key l' in
      insert_by key x sorted
  end.

(** A [collections.Counter]: keys in first-seen order with their counts.
    Keys are told apart by the equality given to [counter_incr]; for Python
    values that is [==], which is how a dictionary tells keys apart (NaN
    keys aside). *)
Definition counter (K : Type) : Type := list (K * Z).

(** [c[k] += 1]. *)
Fixpoint counter_incr {K} (eqb : K -> K -> bool) (k : K) (c : counter K) : counter K :=
  match c with
  | [] => [(k, 1)]
  | (k', n) :: c' =>
      if eqb k' k then (k', n + 1) :: c'
      else (k', n) :: counter_incr eqb k c'
  end.

(** [sum(c.values())]. *)
Definition counter_total {K} (c : counter K) : Z :=
  fold_right (fun kn acc => snd kn + acc) 0 c.

(** Descending by count, equal counts in first-seen order. *)
Fixpoint insert_desc {K} (x : K * Z) (l : list (K * Z)) : list (K * Z) :=
  match l with
  | [] => [x]
  | h :: t => if snd x <? snd h then h :: insert_desc x t else x :: l
  end.

Definition sort_desc {K} (c : counter K) : list (K * Z) :=
  fold_right insert_desc [] c.

(** [c.most_common(n)] for [n >= 0]: the same as
    [sorted(c.items(), key=count, reverse=True)[:n]]. *)
Definition most_common {K} (n : nat) (c : counter K) : list (K * Z) :=
  firstn n (sort_desc c).

(* ===================================================================== *)
(** ** User journey extraction *)
(* ===================================================================== *)

Record event_view : Type := mkEvent {
  event_id : value;
  event_type : value;
  timestamp : value;
  page_url : value;
  products : list attrs
}.

Record journey : Type := mkJourney {
  session_id : value;
  start_time : value;
  event_count : Z;
  events : list event_view
}.

Record user_context : Type := mkContext {
  ctx_user_id : value;
  ctx_segment : value;
  ctx_ltv : value;
  ctx_churned : value
}.

(** [f"user_{user_id}"]. *)
Definition user_node_of (user_id : value) : string := "user_" ++ py_str user_id.

Definition has_type (d : attrs) (ty : string) : bool :=
  py_eqb (get d "node_type") (VStr ty).

Definition node_has_type (ty : string) (n : string) : M bool :=
  let* d := node_attrs n in ret (has_type d ty).

(** The body of the loop over a session's successors: one event with the
    products it involves. *)
Definition collect_event (event_node : string) (events : list event_view)
  : M (ctl (list event_view)) :=
  let* is_event := node_has_type "Event" event_node in
  if negb is_event then ret (Continue events)
  else
    let* event_data := node_attrs event_node in
    let* succs := successors event_node in
    let* products :=
      for_each succs
        (fun product_node products =>
           let* is_product := node_has_type "Product" product_node in
           if is_product then
             let* product_data := node_attrs product_node in
             ret (Continue (products +++ [product_data]))
           else ret (Continue products))
        [] in
    ret (Continue
           (events +++ [mkEvent (get event_data "event_id")
                               (get event_data "event_type")
                               (get event_data "timestamp")
                               (get event_data "page_url")
                               products])).

Definition extract_session (session_node : string) : M journey :=
  let* session_data := node_attrs session_node in
  let* succs := successors session_node in
  let* events := for_each succs collect_event [] in
  let* events := lift (sort_by timestamp events) in
  ret (mkJourney (get session_data "session_id")
                 (get session_data "start_time")
                 (len events)
                 events).

Definition extract_user_journeys (user_id : value) (max_sessions : Z)
  : M (list journey) :=
  let user_node := user_node_of user_id in
  let* present := has_node user_node in
  if negb present then ret []
  else
    let* succs := successors user_node in
    let* sessions := filterM (node_has_type "Session") succs in
    mapM extract_session (slice_to max_sessions sessions).

Definition get_user_context (user_id : value) : M (option user_context) :=
  let user_node := user_node_of user_id in
  let* present := has_node user_node in
  if negb present then ret None
  else
    let* data := node_attrs user_node in
    ret (Some (mkContext user_id (get data "segment") (get data "ltv")
                         (get data "churned"))).

(* ===================================================================== *)
(** ** Path pattern analysis *)
(* ===================================================================== *)

(** An item of [str.join] has to be a [str]. *)
Definition as_str (v : value) : result string :=
  match v with
  | VStr s => Ok s
  | _ => Err TypeError
  end.

Definition extract_journey_pattern (events : list event_view) : result string :=
  let? types := rmap (fun e => as_str (event_type e)) events in
  Ok (join arrow types).

Definition is_next_edge (u v : string) : M bool :=
  let* d := edge_attrs u v in
  ret (py_eqb (get d "edge_type") (VStr "NEXT")).

Definition find_sessions_by_outcome (outcome : string) (limit : Z)
  : M (list string) :=
  let* nodes := nodes_data in
  for_each nodes
    (fun '(node, data) matching_sessions =>
       if negb (has_type data "Event") then ret (Continue matching_sessions)
       else if negb (py_eqb (get data "event_type") (VStr outcome))
       then ret (Continue matching_sessions)
       else
         let* succs := successors node in
         let* has_next := anyM (fun succ => is_next_edge node succ) succs in
         let* matching_sessions :=
           if negb has_next then
             let* preds := predecessors node in
             let* owner := first_where (node_has_type "Session") preds in
             match owner with
             | Some pred => ret (matching_sessions +++ [pred])
             | None => ret matching_sessions
             end
           else ret matching_sessions in
         if limit <=? len matching_sessions then ret (Break matching_sessions)
         else ret (Continue matching_sessions))
    [].

(** A journey together with the user it belongs to, as the path finders
    return it. [path_user = None] is a journey dictionary without the
    ["user_id"] and ["user_context"] keys. *)
Record path : Type := mkPath {
  path_user : option (value * option user_context);
  path_journey : journey
}.

(** The first [User] predecessor of a session, then the journey of that
    user whose [session_id] is the session's. *)
Definition user_of_session (session_node : string) : M (option string) :=
  let* preds := predecessors session_node in
  first_where (node_has_type "User") preds.

Definition find_journey (session_id0 : value) (journeys : list journey)
  : option journey :=
  find (fun j => py_eqb (session_id j) session_id0) journeys.

Definition find_conversion_paths (limit : Z) : M (list path) :=
  let* purchase_sessions := find_sessions_by_outcome "purchase" limit in
  for_each purchase_sessions
    (fun session_node paths =>
       let* session_data := node_attrs session_node in
       let session_id0 := get session_data "session_id" in
       let* user_node := user_of_session session_node in
       match user_node with
       | Some un =>
           if String.eqb un "" then ret (Continue paths)
           else
             let* user_data := node_attrs un in
             let user_id := get user_data "user_id" in
             let* journeys := extract_user_journeys user_id 1 in
             match find_journey session_id0 journeys with
             | Some j =>
                 let* ctx := get_user_context user_id in
                 ret (Continue (paths +++ [mkPath (Some (user_id, ctx)) j]))
             | None => ret (Continue paths)
             end
       | None => ret (Continue paths)
       end)
    [].

Definition find_churn_paths (limit : Z) : M (list path) :=
  let* exit_sessions := find_sessions_by_outcome "exit" limit in
  for_each exit_sessions
    (fun session_node paths =>
       let* session_data := node_attrs session_node in
       let session_id0 := get session_data "session_id" in
       let* user_node := user_of_session session_node in
       match user_node with
       | Some un =>
           if String.eqb un "" then ret (Continue paths)
           else
             let* user_data := node_attrs un in
             let user_id := get user_data "user_id" in
             let* user_ctx := get_user_context user_id in
             match user_ctx with
             | Some ctx =>
                 if truthy (ctx_churned ctx) then
                   let* journeys := extract_user_journeys user_id 1 in
                   match find_journey session_id0 journeys with
                   | Some j =>
                       ret (Continue (paths +++ [mkPath (Some (user_id, Some ctx)) j]))
                   | None => ret (Continue paths)
                   end
                 else ret (Continue paths)
             | None => ret (Continue paths)
             end
       | None => ret (Continue paths)
       end)
    [].

(** A user filter: attribute name and the value it has to equal. *)
Definition user_filter := list (string * value).

(** The filter loop: every pair has to hold of the node's attributes. *)
Definition matches (data : attrs) (f : user_filter) : bool :=
  forallb (fun kv => py_eqb (get data (fst kv)) (snd kv)) f.

(** [if user_filter:] guards the filter loop, so [None] and the empty
    dictionary let every user through. *)
Definition rejects (filter : option user_filter) (data : attrs) : bool :=
  match filter with
  | Some (kv :: f) => negb (matches data (kv :: f))
  | Some [] | None => false
  end.

(** The scan of [find_common_patterns]: the pattern counter and the number
    of sessions analysed when the loop over the nodes ends. *)
Definition tally_patterns (filter : option user_filter) (limit : Z)
  : M (counter string * Z) :=
  let* nodes := nodes_data in
  for_each nodes
    (fun '(node, data) '(pattern_counts, sessions_analyzed) =>
       if negb (has_type data "User")
       then ret (Continue (pattern_counts, sessions_analyzed))
       else
         if rejects filter data
         then ret (Continue (pattern_counts, sessions_analyzed))
         else
           let user_id := get data "user_id" in
           let* journeys := extract_user_journeys user_id 5 in
           let* (pattern_counts, sessions_analyzed) :=
             for_each journeys
               (fun journey '(pattern_counts, sessions_analyzed) =>
                  if limit <=? sessions_analyzed
                  then ret (Break (pattern_counts, sessions_analyzed))
                  else
                    let* pattern := lift (extract_journey_pattern (events journey)) in
                    ret (Continue (counter_incr String.eqb pattern pattern_counts,
                                   sessions_analyzed + 1)))
               (pattern_counts, sessions_analyzed) in
           if limit <=? sessions_analyzed
           then ret (Break (pattern_counts, sessions_analyzed))
           else ret (Continue (pattern_counts, sessions_analyzed)))
    ([], 0).

(** [count / total * 100 if total > 0 else 0]. *)
Definition percentage (count total : Z) : result number :=
  if 0 <? total then
    let? q := py_truediv (NInt count) (NInt total) in
    py_mul q (NInt 100)
  else Ok (NInt 0).

Definition find_common_patterns (filter : option user_filter) (limit : Z)
  : M (list (string * Z * number)) :=
  let* (pattern_counts, _) := tally_patterns filter limit in
  let total := counter_total pattern_counts in
  lift (rmap (fun '(pattern, count) =>
                let? pct := percentage count total in
                Ok (pattern, count, pct))
             (most_common 10 pattern_counts)).

(* ===================================================================== *)
(** ** Cohort comparison *)
(* ===================================================================== *)

(** The local variables of [analyze_cohort]'s scan. *)
Record cohort_acc : Type := mkAcc {
  acc_users : list attrs;
  acc_sessions : list journey;
  acc_event_counts : list Z;
  acc_purchases : Z;
  acc_cart_adds : Z
}.

Record cohort_stats : Type := mkStats {
  user_count : Z;
  session_count : Z;
  avg_events_per_session : number;
  avg_ltv : number;
  purchase_events : Z;
  cart_add_events : Z;
  conversion_rate : number
}.

(** The purchase and add-to-cart events of one journey. *)
Definition count_events (evs : list event_view) (purchases carts : Z) : Z * Z :=
  fold_left
    (fun '(p, c) e =>
       if py_eqb (event_type e) (VStr "purchase") then (p + 1, c)
       else if py_eqb (event_type e) (VStr "add_to_cart") then (p, c + 1)
       else (p, c))
    evs (purchases, carts).

Definition add_journey (a : cohort_acc) (j : journey) : cohort_acc :=
  let '(p, c) := count_events (events j) (acc_purchases a) (acc_cart_adds a) in
  mkAcc (acc_users a)
        (acc_sessions a +++ [j])
        (acc_event_counts a +++ [event_count j])
        p c.

Definition scan_cohort (filter : user_filter) (sample_size : Z) : M cohort_acc :=
  let* nodes := nodes_data in
  for_each nodes
    (fun '(node, data) a =>
       if negb (has_type data "User") then ret (Continue a)
       else if negb (matches data filter) then ret (Continue a)
       else
         let a := mkAcc (acc_users a +++ [data]) (acc_sessions a)
                        (acc_event_counts a) (acc_purchases a) (acc_cart_adds a) in
         let user_id := get data "user_id" in
         let* journeys := extract_user_journeys user_id 3 in
         let a := fold_left add_journey journeys a in
         if sample_size <=? len (acc_sessions a) then ret (Break a)
         else ret (Continue a))
    (mkAcc [] [] [] 0 0).

(** [d[k]]. *)
Definition getitem (d : attrs) (k : string) : result value :=
  match lookup d k with
  | Some v => Ok v
  | None => Err KeyError
  end.

(** [sum(u["ltv"] for u in users)]: each item is looked up, then added.
    (CPython 3.12 sums floats with a compensation term; the plain running
    sum taken here is what earlier versions compute, and the same value
    whenever the running sums are exact.) *)
Definition sum_ltv (users : list attrs) : result number :=
  fold_left
    (fun acc u =>
       let? a := acc in
       let? v := getitem u "ltv" in
       match as_number v with
       | Some n => py_add a n
       | None => Err TypeError
       end)
    users (Ok (NInt 0)).

Definition sum_Z (l : list Z) : Z := fold_left Z.add l 0.

Definition analyze_cohort (filter : user_filter) (sample_size : Z) : M cohort_stats :=
  let* a := scan_cohort filter sample_size in
  let event_counts := acc_event_counts a in
  let users := acc_users a in
  let sessions := acc_sessions a in
  let* avg_events :=
    lift (match event_counts with
          | [] => Ok (NInt 0)
          | _ => py_truediv (NInt (sum_Z event_counts)) (NInt (len event_counts))
          end) in
  let* avg_ltv0 :=
    lift (match users with
          | [] => Ok (NInt 0)
          | _ => let? total := sum_ltv users in py_truediv total (NInt (len users))
          end) in
  let* rate :=
    lift (match sessions with
          | [] => Ok (NInt 0)
          | _ =>
              let? q := py_truediv (NInt (acc_purchases a)) (NInt (len sessions)) in
              py_mul q (NInt 100)
          end) in
  ret (mkStats (len users) (len sessions)
               (py_round avg_events 2) (py_round avg_ltv0 2)
               (acc_purchases a) (acc_cart_adds a)
               (py_round rate 1)).

(** A dictionary of named metrics, and a dictionary of such dictionaries. *)
Definition metrics := list (string * number).

(** [d[k] = v] on a dictionary in insertion order. *)
Fixpoint dict_set {V} (k : string) (v : V) (d : list (string * V)) : list (string * V) :=
  match d with
  | [] => [(k, v)]
  | (k', v') :: d' =>
      if String.eqb k' k then (k', v) :: d' else (k', v') :: dict_set k v d'
  end.

Fixpoint dict_get {V} (d : list (string * V)) (k : string) : option V :=
  match d with
  | [] => None
  | (k', v) :: d' => if String.eqb k' k then Some v else dict_get d' k
  end.

Definition stats_dict (s : cohort_stats) : metrics :=
  [("user_count", NInt (user_count s));
   ("session_count", NInt (session_count s));
   ("avg_events_per_session", avg_events_per_session s);
   ("avg_ltv", avg_ltv s);
   ("purchase_events", NInt (purchase_events s));
   ("cart_add_events", NInt (cart_add_events s));
   ("conversion_rate", conversion_rate s)].

(** The ["comparison"] block computed from the two cohorts' statistics. *)
Definition differences (a b : cohort_stats) : result metrics :=
  let? ev := py_sub (avg_events_per_session a) (avg_events_per_session b) in
  let? lt := py_sub (avg_ltv a) (avg_ltv b) in
  let? cv := py_sub (conversion_rate a) (conversion_rate b) in
  Ok [("events_diff", py_round ev 2);
      ("ltv_diff", py_round lt 2);
      ("conversion_diff", py_round cv 1)].

Definition compare_cohorts (cohort_a_filter cohort_b_filter : user_filter)
    (cohort_a_name cohort_b_name : string) (sample_size : Z)
  : M (list (string * metrics)) :=
  let* cohort_a_stats := analyze_cohort cohort_a_filter sample_size in
  let* cohort_b_stats := analyze_cohort cohort_b_filter sample_size in
  let* comparison := lift (differences cohort_a_stats cohort_b_stats) in
  ret (dict_set "comparison" comparison
         (dict_set cohort_b_name (stats_dict cohort_b_stats)
            (dict_set cohort_a_name (stats_dict cohort_a_stats) []))).

(* ===================================================================== *)
(** ** Product-centric queries *)
(* ===================================================================== *)

(** [range(n)], of which the loops use only the length. *)
Definition range (n : nat) : list nat := seq 0 n.

(** The first predecessor of [current] over a [NEXT] edge. *)
Definition previous_event (current : string) : M (option string) :=
  let* preds := predecessors current in
  first_where (fun pred => is_next_edge pred current) preds.

(** One turn of the backward walk: step to the [NEXT] predecessor, stop
    when there is none, and let [visit] look at the event reached. *)
Definition walk_step {S} (visit : string -> S -> M S) (_ : nat)
    (st : string * S) : M (ctl (string * S)) :=
  let '(current_node, s) := st in
  let* prev_event := previous_event current_node in
  match prev_event with
  | None => ret (Break (current_node, s))
  | Some prev =>
      if String.eqb prev "" then ret (Break (current_node, s))
      else
        let* s := visit prev s in
        ret (Continue (prev, s))
  end.

(** The backward walk both product queries make:
    [for _ in range(20)] around [walk_step]. *)
Definition walk_back {S} (visit : string -> S -> M S) (start : string) (s : S)
  : M S :=
  let* (_, s) := for_each (range 20) (walk_step visit) (start, s) in
  ret s.

(** [first product successor's attributes], or [None]. *)
Definition first_product (node : string) : M (option attrs) :=
  let* succs := successors node in
  let* found := first_where (node_has_type "Product") succs in
  match found with
  | Some succ => let* d := node_attrs succ in ret (Some d)
  | None => ret None
  end.

Definition str_truthy (s : option string) : bool :=
  match s with
  | Some s => negb (String.eqb s "")
  | None => false
  end.

(** What the walk of [find_products_before_purchase] does at an event: a
    [page_view] or [click] tallies every product it involves. *)
Definition tally_viewed (prev_event : string)
    (s : counter value * counter value) : M (counter value * counter value) :=
  let* event_data := node_attrs prev_event in
  let ty := get event_data "event_type" in
  if py_eqb ty (VStr "page_view") || py_eqb ty (VStr "click") then
    let* succs := successors prev_event in
    for_each succs
      (fun succ '(categories_viewed, products_viewed) =>
         let* is_product := node_has_type "Product" succ in
         if is_product then
           let* prod_data := node_attrs succ in
           ret (Continue
                  (counter_incr py_eqb (get_or prod_data "category" (VStr "Unknown"))
                                categories_viewed,
                   counter_incr py_eqb (get_or prod_data "name" (VStr "Unknown"))
                                products_viewed))
         else ret (Continue (categories_viewed, products_viewed)))
      s
  else ret s.

Record purchase_report : Type := mkPurchaseReport {
  total_purchases_analyzed : Z;
  categories_viewed_before_purchase : list (value * Z);
  top_products_viewed : list (value * Z)
}.

Definition find_products_before_purchase (category_filter : option string)
    (limit : Z) : M purchase_report :=
  let* nodes := nodes_data in
  let* (viewed, total_purchases) :=
    for_each nodes
      (fun '(node, data) '(viewed, total_purchases) =>
         if negb (has_type data "Event") then ret (Continue (viewed, total_purchases))
         else if negb (py_eqb (get data "event_type") (VStr "purchase"))
         then ret (Continue (viewed, total_purchases))
         else
           let* keep :=
             if str_truthy category_filter then
               let* purchased_product := first_product node in
               match purchased_product, category_filter with
               | Some ((_ :: _) as d), Some c => ret (py_eqb (get d "category") (VStr c))
               | _, _ => ret false
               end
             else ret true in
           if negb keep then ret (Continue (viewed, total_purchases))
           else
             let total_purchases := total_purchases + 1 in
             let* viewed := walk_back tally_viewed node viewed in
             if limit <=? total_purchases then ret (Break (viewed, total_purchases))
             else ret (Continue (viewed, total_purchases)))
      (([], []), 0) in
  ret (mkPurchaseReport total_purchases
                        (most_common 10 (fst viewed))
                        (most_common 10 (snd viewed))).

(** The local variables of one exit's walk. *)
Record exit_walk : Type := mkExitWalk {
  viewed_category : bool;
  events_count : Z;
  exit_patterns : counter value
}.

(** What the walk of [find_exit_points_after_category] does at an event:
    count it, and at the first product of the category note the event's
    type. *)
Definition check_category (category : string) (prev_event : string) (w : exit_walk)
  : M exit_walk :=
  let events_count0 := events_count w + 1 in
  let* event_data := node_attrs prev_event in
  let* succs := successors prev_event in
  let* hit :=
    first_where
      (fun succ =>
         let* is_product := node_has_type "Product" succ in
         if is_product then
           let* d := node_attrs succ in
           ret (py_eqb (get d "category") (VStr category))
         else ret false)
      succs in
  match hit with
  | Some _ =>
      ret (mkExitWalk true events_count0
             (counter_incr py_eqb (get_or event_data "event_type" (VStr "unknown"))
                           (exit_patterns w)))
  | None => ret (mkExitWalk (viewed_category w) events_count0 (exit_patterns w))
  end.

Record exit_report : Type := mkExitReport {
  report_category : string;
  exits_after_viewing : Z;
  avg_events_before_exit : number;
  last_event_before_exit : list (value * Z)
}.

Definition find_exit_points_after_category (category : string) (limit : Z)
  : M exit_report :=
  let* nodes := nodes_data in
  let* (exit_after_category, patterns, events_before_exit) :=
    for_each nodes
      (fun '(node, data) '(exit_after_category, patterns, events_before_exit) =>
         if negb (has_type data "Event")
         then ret (Continue (exit_after_category, patterns, events_before_exit))
         else if negb (py_eqb (get data "event_type") (VStr "exit"))
         then ret (Continue (exit_after_category, patterns, events_before_exit))
         else
           let* w := walk_back (check_category category) node
                               (mkExitWalk false 0 patterns) in
           let '(exit_after_category, events_before_exit) :=
             if viewed_category w
             then (exit_after_category + 1, events_before_exit +++ [events_count w])
             else (exit_after_category, events_before_exit) in
           if limit <=? exit_after_category
           then ret (Break (exit_after_category, exit_patterns w, events_before_exit))
           else ret (Continue (exit_after_category, exit_patterns w, events_before_exit)))
      (0, [], []) in
  let* avg :=
    lift (match events_before_exit with
          | [] => Ok (NInt 0)
          | _ => py_truediv (NInt (sum_Z events_before_exit))
                            (NInt (len events_before_exit))
          end) in
  ret (mkExitReport category exit_after_category (py_round avg 2)
                    (most_common 5 patterns)).

(* ===================================================================== *)
(** ** Context serialization *)
(* ===================================================================== *)

(** The description of one event in a journey narration: its type, and
    for an event with products the category and price of the first. The
    value is checked to be a string where Python needs one: at [+=] here,
    or later at [join]. *)
Definition describe_event (e : event_view) : result value :=
  match products e with
  | [] => Ok (event_type e)
  | prod :: _ =>
      let? price := py_format_2f (get_or prod "price" (VInt 0)) in
      let suffix :=
        " (" ++ py_str (get_or prod "category" (VStr "Unknown")) ++ " - $"
             ++ price ++ ")" in
      let? base := as_str (event_type e) in
      Ok (VStr (base ++ suffix))
  end.

Definition serialize_journey_to_text (p : path) : result string :=
  let? parts :=
    match path_user p with
    | Some (_, Some ctx) =>
        let? ltv := py_format_2f (ctx_ltv ctx) in
        Ok ["User (segment: " ++ py_str (ctx_segment ctx) ++ ", LTV: $" ++ ltv
              ++ ", churned: " ++ py_str (ctx_churned ctx) ++ ")"]
    | _ => Ok []
    end in
  let? path_parts := rmap describe_event (events (path_journey p)) in
  let? parts :=
    match path_parts with
    | [] => Ok parts
    | _ =>
        let? texts := rmap as_str path_parts in
        Ok (parts +++ ["Journey: " ++ join arrow texts])
    end in
  Ok (join NL parts).

(** [enumerate(l, start)]. *)
Fixpoint enumerate {A} (start : Z) (l : list A) : list (Z * A) :=
  match l with
  | [] => []
  | x :: l' => (start, x) :: enumerate (start + 1) l'
  end.

Definition no_journeys : string := "No journeys found matching the criteria.".

Definition serialize_journeys_for_llm (journeys : list path) (max_journeys : Z)
    (include_stats : bool) : result string :=
  match journeys with
  | [] => Ok no_journeys
  | _ =>
      let lines := ["## Customer Journey Context" ++ NL; "### Sample Journeys:"] in
      let? shown :=
        rmap (fun '(i, journey) =>
                let? text := serialize_journey_to_text journey in
                Ok [NL ++ "**Journey " ++ digits_of_Z i ++ ":**"; text])
             (enumerate 1 (slice_to max_journeys journeys)) in
      let lines := lines +++ List.concat shown in
      let? lines :=
        if include_stats && (1 <? len journeys) then
          let event_counts := map (fun j => len (events (path_journey j))) journeys in
          let? avg_events :=
            py_truediv (NInt (sum_Z event_counts)) (NInt (len event_counts)) in
          let event_types :=
            fold_left
              (fun c j =>
                 fold_left (fun c e => counter_incr py_eqb (event_type e) c)
                           (events (path_journey j)) c)
              journeys [] in
          let? avg_text := format_1f avg_events in
          Ok (lines +++
              [NL ++ "### Statistics:";
               "- Total journeys analyzed: " ++ digits_of_Z (len journeys);
               "- Average events per session: " ++ avg_text;
               "- Event distribution: "
                 ++ join ", " (map (fun '(k, v) => py_str k ++ ": " ++ digits_of_Z v)
                                   (most_common 5 event_types))])
        else Ok lines in
      Ok (join NL lines)
  end.

Definition no_patterns (context_description : string) : string :=
  "No " ++ context_description ++ " found.".

Definition serialize_patterns_for_llm (patterns : list (string * Z * number))
    (context_description : string) : result string :=
  match patterns with
  | [] => Ok (no_patterns context_description)
  | _ =>
      let? items :=
        rmap (fun '(i, (pattern, count, pct)) =>
                let? pct_text := format_1f pct in
                Ok (digits_of_Z i ++ ". **" ++ pattern ++ "** - " ++ digits_of_Z count
                      ++ " occurrences (" ++ pct_text ++ "%)"))
             (enumerate 1 patterns) in
      Ok (join NL (("## Common " ++ title context_description ++ NL) :: items))
  end.

Definition serialize_comparison_for_llm (comparison : list (string * metrics))
  : string :=
  let lines :=
    fold_left
      (fun lines '(key, value) =>
         if String.eqb key "comparison" then
           lines +++ [NL ++ "### Key Differences:"]
                  +++ map (fun '(metric, diff) =>
                            let direction :=
                              if num_ltb (NInt 0) diff then "higher" else "lower" in
                            "- " ++ metric ++ ": " ++ str_of_number (py_abs diff)
                                 ++ " " ++ direction)
                         value
         else
           lines +++ [NL ++ "### " ++ key ++ ":"]
                  +++ map (fun '(metric, stat) =>
                            "- " ++ metric ++ ": " ++ str_of_number stat)
                         value)
      comparison ["## Cohort Comparison" ++ NL] in
  join NL lines.

(* ===================================================================== *)
(** ** High-level query functions *)
(* ===================================================================== *)

Definition query_churned_user_journeys (sample_size : Z) : M string :=
  let* paths := find_churn_paths sample_size in
  let* patterns := find_common_patterns (Some [("churned", VBool true)]) 100 in
  let* journey_text := lift (serialize_journeys_for_llm paths 5 true) in
  let* pattern_text :=
    lift (serialize_patterns_for_llm patterns "churned user journey patterns") in
  ret (journey_text ++ NL ++ NL ++ pattern_text).

Definition query_high_vs_low_ltv : M string :=
  let* comparison :=
    compare_cohorts [("segment", VStr "high_value")] [("segment", VStr "low")]
                    "High-Value Users" "Low-Value Users" 50 in
  let* high_patterns :=
    find_common_patterns (Some [("segment", VStr "high_value")]) 50 in
  let* low_patterns := find_common_patterns (Some [("segment", VStr "low")]) 50 in
  let comparison_text := serialize_comparison_for_llm comparison in
  let* high_pattern_text :=
    lift (serialize_patterns_for_llm high_patterns "high-value user patterns") in
  let* low_pattern_text :=
    lift (serialize_patterns_for_llm low_patterns "low-value user patterns") in
  ret (comparison_text ++ NL ++ NL ++ high_pattern_text ++ NL ++ NL ++ low_pattern_text).

Definition query_pre_purchase_behavior (category : option string) : M string :=
  let* pre_purchase := find_products_before_purchase category 50 in
  let* conversion_paths := find_conversion_paths 20 in
  let lines := ["## Pre-Purchase Behavior Analysis" ++ NL] in
  let lines :=
    match category with
    | Some c =>
        if String.eqb c "" then lines
        else lines +++ ["**Filtered by category: " ++ c ++ "**" ++ NL]
    | None => lines
    end in
  let lines :=
    lines
       +++ ["Purchases analyzed: " ++ digits_of_Z (total_purchases_analyzed pre_purchase);
           NL ++ "### Categories viewed before purchase:"]
       +++ map (fun '(cat, count) =>
                 "- " ++ py_str cat ++ ": " ++ digits_of_Z count ++ " views")
              (categories_viewed_before_purchase pre_purchase)
       +++ [NL ++ "### Sample conversion journeys:"] in
  let* journey_text := lift (serialize_journeys_for_llm conversion_paths 5 true) in
  ret (join NL lines ++ NL ++ NL ++ journey_text).

Definition query_category_exit_analysis (category : string) : M string :=
  let* exit_data := find_exit_points_after_category category 50 in
  let lines :=
    ["## Exit Analysis for " ++ category ++ " Category" ++ NL;
      "- Users who exited after viewing " ++ category ++ ": "
        ++ digits_of_Z (exits_after_viewing exit_data);
      "- Average events before exit: "
        ++ str_of_number (avg_events_before_exit exit_data);
      NL ++ "### Last event type before exit:"]
       +++ map (fun '(event_type0, count) =>
                 "- " ++ py_str event_type0 ++ ": " ++ digits_of_Z count)
              (last_event_before_exit exit_data) in
  ret (join NL lines).

(* ===================================================================== *)
(** * Specification vocabulary and fixtures *)
(* ===================================================================== *)

(** [b] does not sort before [a]. *)
Definition not_after {A : Type} (key : A -> value) (a b : A) : Prop :=
  py_lt (key b) (key a) = Ok false.

(** A computation is read-only when the graph it hands back is the graph it
    was given, whether it returns or raises. *)
Definition read_only {A} (m : M A) : Prop := forall G, snd (m G) = G.

Definition node (ty : string) (rest : attrs) : attrs := ("node_type", VStr ty) :: rest.
Definition edge (ty : string) : attrs := [("edge_type", VStr ty)].

Definition event_attrs (id : Z) (ty ts url : string) : attrs :=
  node "Event" [("event_id", VInt id); ("event_type", VStr ty);
                ("timestamp", VStr ts); ("page_url", VStr url)].

(** [sample_graph] of the test suite: one high-value user, one session,
    page_view, click (on a product), purchase. *)
Definition sample_graph : Graph :=
  add_edge "event_2" "product_1" (edge "INVOLVES")
  (add_node "product_1"
     (node "Product" [("product_id", VInt 1); ("name", VStr "Test Product");
                      ("category", VStr "Electronics");
                      ("price", VFloat (of_ratio 9999 100))])
  (add_edge "event_2" "event_3" (edge "NEXT")
  (add_edge "event_1" "event_2" (edge "NEXT")
  (add_edge "session_1" "event_3" (edge "CONTAINS")
  (add_edge "session_1" "event_2" (edge "CONTAINS")
  (add_edge "session_1" "event_1" (edge "CONTAINS")
  (add_node "event_3" (event_attrs 3 "purchase" "2026-01-01T10:02:00" "/checkout")
  (add_node "event_2" (event_attrs 2 "click" "2026-01-01T10:01:00" "/products")
  (add_node "event_1" (event_attrs 1 "page_view" "2026-01-01T10:00:00" "/home")
  (add_edge "user_1" "session_1" (edge "STARTED")
  (add_node "session_1"
     (node "Session" [("session_id", VInt 1);
                      ("start_time", VStr "2026-01-01T10:00:00")])
  (add_node "user_1"
     (node "User" [("user_id", VInt 1); ("segment", VStr "high_value");
                   ("ltv", VFloat (of_Z 500)); ("churned", VBool false)])
     empty_graph)))))))))))).

(** [churned_user_graph] of the test suite: one churned user whose only
    session is search, exit. *)
Definition churned_user_graph : Graph :=
  add_edge "event_4" "event_5" (edge "NEXT")
  (add_edge "session_2" "event_5" (edge "CONTAINS")
  (add_edge "session_2" "event_4" (edge "CONTAINS")
  (add_node "event_5" (event_attrs 5 "exit" "2026-01-01T11:01:00" "/exit")
  (add_node "event_4" (event_attrs 4 "search" "2026-01-01T11:00:00" "/search")
  (add_edge "user_2" "session_2" (edge "STARTED")
  (add_node "session_2"
     (node "Session" [("session_id", VInt 2);
                      ("start_time", VStr "2026-01-01T11:00:00")])
  (add_node "user_2"
     (node "User" [("user_id", VInt 2); ("segment", VStr "low");
                   ("ltv", VFloat (of_Z 30)); ("churned", VBool true)])
     empty_graph))))))).

(** The two texts the serializers return for an empty input. *)
Definition placeholder (t : string) : Prop :=
  t = no_journeys \/ exists description, t = no_patterns description.

Fixpoint contains (needle s : string) : bool :=
  String.prefix needle s
  || match s with
     | EmptyString => false
     | String _ s' => contains needle s'
     end.

(** The cohort block printed when neither cohort has a user. *)
Definition zero_stats_lines : list string :=
  ["- user_count: 0"; "- session_count: 0"; "- avg_events_per_session: 0";
   "- avg_ltv: 0"; "- purchase_events: 0"; "- cart_add_events: 0";
   "- conversion_rate: 0"].

Definition zero_comparison_text : string :=
  join NL
    (["## Cohort Comparison" ++ NL; NL ++ "### High-Value Users:"]
       +++ zero_stats_lines
       +++ [NL ++ "### Low-Value Users:"]
       +++ zero_stats_lines
       +++ [NL ++ "### Key Differences:";
            "- events_diff: 0 lower"; "- ltv_diff: 0 lower";
            "- conversion_diff: 0 lower"]).

Definition filter_line (category : option string) : list string :=
  match category with
  | Some c =>
      if String.eqb c "" then []
      else ["**Filtered by category: " ++ c ++ "**" ++ NL]
  | None => []
  end.

Definition value_eq_dec (a b : value) : {a = b} + {a <> b}.
Proof.
  decide equality;
    first [apply Z.eq_dec | apply string_dec | apply bool_dec | idtac].
  decide equality;
    first [apply Z.eq_dec | apply Pos.eq_dec | apply bool_dec].
Defined.

(** The events whose timestamp is the value [t]. *)
Definition at_time (t : value) (e : event_view) : bool :=
  if value_eq_dec (timestamp e) t then true else false.

(** A session whose two events carry the same timestamp, the event with
    the larger id contained first. *)
Definition tie_graph : Graph :=
  add_edge "session_7" "event_1" (edge "CONTAINS")
  (add_edge "session_7" "event_2" (edge "CONTAINS")
  (add_node "event_1" (event_attrs 1 "click" "2026-01-01T09:00:00" "/b")
  (add_node "event_2" (event_attrs 2 "page_view" "2026-01-01T09:00:00" "/a")
  (add_edge "user_7" "session_7" (edge "STARTED")
  (add_node "session_7"
     (node "Session" [("session_id", VInt 7);
                      ("start_time", VStr "2026-01-01T09:00:00")])
  (add_node "user_7"
     (node "User" [("user_id", VInt 7); ("segment", VStr "low");
                   ("ltv", VFloat (of_Z 10)); ("churned", VBool false)])
     empty_graph)))))).

(** The order C2 states: ascending by timestamp, equal timestamps in
    ascending event id. *)
Definition by_time_then_id (a b : event_view) : Prop :=
  py_lt (timestamp a) (timestamp b) = Ok true
  \/ (timestamp a = timestamp b /\ py_lt (event_id b) (event_id a) = Ok false).

(** Overwrite the [event_count] attribute of every [Session] node, node
    [n] receiving [f n]. *)
Definition restamp_attrs (v : value) (d : attrs) : attrs :=
  if has_type d "Session" then dict_set "event_count" v d else d.

Definition restamp (f : string -> value) (G : Graph) : Graph :=
  mkGraph (map (fun nd => (fst nd, restamp_attrs (f (fst nd)) (snd nd))) (g_nodes G))
          (g_edges G).

(** [s] is the first [Session] predecessor of an event of type [outcome]
    that has no outgoing [NEXT] edge. *)
Definition owns_terminal (G : Graph) (outcome : string) (s : string) : Prop :=
  exists event data succs preds,
    In (event, data) (g_nodes G)
    /\ has_type data "Event" = true
    /\ py_eqb (get data "event_type") (VStr outcome) = true
    /\ run (successors event) G = Ok succs
    /\ run (anyM (fun succ => is_next_edge event succ) succs) G = Ok false
    /\ run (predecessors event) G = Ok preds
    /\ run (first_where (node_has_type "Session") preds) G = Ok (Some s).

(** A visit that also records the event it was called on. The record is
    not part of the module; it serves to count the hops of a walk. *)
Definition traced {S} (visit : string -> S -> M S) (n : string)
    (st : S * list string) : M (S * list string) :=
  let* s := visit n (fst st) in
  ret (s, snd st +++ [n]).

(** Each hop is the [NEXT] predecessor the walk finds at the previous
    one. *)
Fixpoint next_chain (G : Graph) (current : string) (hops : list string) : Prop :=
  match hops with
  | [] => True
  | h :: t => run (previous_event current) G = Ok (Some h) /\ next_chain G h t
  end.

(** Two events on a [NEXT] cycle, a click on a product and a purchase, and
    an exit reached from the click. *)
Definition cyclic_graph : Graph :=
  add_edge "event_1" "event_3" (edge "NEXT")
  (add_edge "event_2" "event_1" (edge "NEXT")
  (add_edge "event_1" "event_2" (edge "NEXT")
  (add_edge "event_1" "product_1" (edge "INVOLVES")
  (add_node "event_3" (event_attrs 3 "exit" "2026-01-01T10:02:00" "/exit")
  (add_node "event_2" (event_attrs 2 "purchase" "2026-01-01T10:01:00" "/checkout")
  (add_node "event_1" (event_attrs 1 "click" "2026-01-01T10:00:00" "/products")
  (add_node "product_1"
     (node "Product" [("product_id", VInt 1); ("name", VStr "Test Product");
                      ("category", VStr "Electronics");
                      ("price", VFloat (of_ratio 9999 100))])
     empty_graph))))))).

(** Every key of the counter has been counted at least once. *)
Definition counted {K} (c : counter K) : Prop := Forall (fun kn => 1 <= snd kn) c.

(** What the scan keeps true of its counter and its session count. *)
Definition tally_ok (st : counter string * Z) : Prop :=
  counted (fst st) /\ NoDup (map fst (fst st)) /\ counter_total (fst st) = snd st.

(** Users [1 .. n], each with one session of one event, the event of
    user [i] being of type [step_i]. *)
Fixpoint distinct_patterns (n : nat) : Graph :=
  match n with
  | O => empty_graph
  | S n' =>
      let i := Z.of_nat n in
      let tag := digits_of_Z i in
      add_edge ("session_" ++ tag) ("event_" ++ tag) (edge "CONTAINS")
      (add_node ("event_" ++ tag)
         (event_attrs i ("step_" ++ tag) "2026-01-01T10:00:00" "/home")
      (add_edge ("user_" ++ tag) ("session_" ++ tag) (edge "STARTED")
      (add_node ("session_" ++ tag)
         (node "Session" [("session_id", VInt i);
                          ("start_time", VStr "2026-01-01T10:00:00")])
      (add_node ("user_" ++ tag)
         (node "User" [("user_id", VInt i); ("segment", VStr "low");
                       ("ltv", VFloat (of_Z 10)); ("churned", VBool false)])
         (distinct_patterns n')))))
  end.

(** [sum] of the returned percentages. *)
Definition percent_sum (rs : list (string * Z * number)) : result number :=
  fold_left (fun acc r => let? a := acc in py_add a (snd r)) rs (Ok (NInt 0)).

(** Within one percentage point of 100: more than any rounding of ten
    percentages can account for. *)
Definition near_100 (x : number) : Prop :=
  num_ltb (NInt 99) x = true /\ num_ltb x (NInt 101) = true.

(** A session of [user] with one [page_view] per event id. *)
Definition add_session (user : string) (sid : Z) (event_ids : list Z) (G : Graph)
  : Graph :=
  let session := "session_" ++ digits_of_Z sid in
  fold_left
    (fun G eid =>
       let event := "event_" ++ digits_of_Z eid in
       add_edge session event (edge "CONTAINS")
         (add_node event
            (event_attrs eid "page_view" ("2026-01-01T10:00:0" ++ digits_of_Z eid)
                         "/home")
            G))
    event_ids
    (add_edge user session (edge "STARTED")
       (add_node session
          (node "Session" [("session_id", VInt sid);
                           ("start_time", VStr "2026-01-01T10:00:00")])
          G)).

(** A high-value user with sessions of 2, 1 and 1 events, and a low-value
    user with one session of one event. *)
Definition cohort_graph : Graph :=
  add_session "user_2" 4 [5]
  (add_session "user_1" 3 [4]
  (add_session "user_1" 2 [3]
  (add_session "user_1" 1 [1; 2]
  (add_node "user_2"
     (node "User" [("user_id", VInt 2); ("segment", VStr "low");
                   ("ltv", VFloat (of_Z 30)); ("churned", VBool false)])
  (add_node "user_1"
     (node "User" [("user_id", VInt 1); ("segment", VStr "high_value");
                   ("ltv", VFloat (of_Z 500)); ("churned", VBool false)])
     empty_graph))))).

(** What [compare_cohorts] returns on [cohort_graph]. *)
Definition cohort_comparison : list (string * metrics) :=
  [("High-Value Users",
    stats_dict (mkStats 1 3 (NFloat (of_ratio 133 100)) (NFloat (of_Z 500)) 0 0
                        (NFloat (of_Z 0))));
   ("Low-Value Users",
    stats_dict (mkStats 1 1 (NFloat (of_Z 1)) (NFloat (of_Z 30)) 0 0
                        (NFloat (of_Z 0))));
   ("comparison",
    [("events_diff", NFloat (of_ratio 33 100));
     ("ltv_diff", NFloat (of_Z 470));
     ("conversion_diff", NFloat (of_Z 0))])].

(** An [int], [float] or [bool]; a [str]. *)
Definition is_number (v : value) : bool :=
  match as_number v with Some _ => true | None => false end.

Definition is_text (v : value) : bool :=
  match v with VStr _ => true | _ => false end.

(** Sort keys [<] can order among themselves: at most one key, or all
    numbers, or all strings. *)
Definition comparable_keys (keys : list value) : bool :=
  (List.length keys <=? 1)%nat || forallb is_number keys || forallb is_text keys.

(** A session with two events, the second without a timestamp. *)
Definition untimed_graph : Graph :=
  add_edge "session_8" "event_2" (edge "CONTAINS")
  (add_edge "session_8" "event_1" (edge "CONTAINS")
  (add_node "event_2"
     (node "Event" [("event_id", VInt 2); ("event_type", VStr "click");
                    ("page_url", VStr "/b")])
  (add_node "event_1" (event_attrs 1 "page_view" "2026-01-01T09:00:00" "/a")
  (add_edge "user_8" "session_8" (edge "STARTED")
  (add_node "session_8"
     (node "Session" [("session_id", VInt 8);
                      ("start_time", VStr "2026-01-01T09:00:00")])
  (add_node "user_8"
     (node "User" [("user_id", VInt 8); ("segment", VStr "low");
                   ("ltv", VFloat (of_Z 10)); ("churned", VBool false)])
     empty_graph)))))).

(** Every edge joins two nodes of the graph, as in any [DiGraph]. *)
Definition closed (G : Graph) : bool :=
  forallb (fun e => mem_node G (fst (fst e)) && mem_node G (snd (fst e)))
          (g_edges G).

(** Every [Event] node carries a string timestamp, as the graph builder
    writes it. *)
Definition timestamps_are_text (G : Graph) : bool :=
  forallb (fun nd => negb (has_type (snd nd) "Event")
                     || is_text (get (snd nd) "timestamp"))
          (g_nodes G).

(** The state an iteration leaves. *)
Definition ctl_state {S} (c : ctl S) : S :=
  match c with Continue s | Break s => s end.

(** The entries of a counter that have the count [n]. *)
Definition has_count {K} (n : Z) (kn : K * Z) : bool := snd kn =? n.

(** What [find_common_patterns] returns on [distinct_patterns 11]: the
    first ten of eleven patterns, 100/11 percent each. *)
Definition top_ten_of_eleven : list (string * Z * number) :=
  map (fun i => ("step_" ++ digits_of_Z (Z.of_nat i), 1,
                 NFloat (fmul (of_ratio 1 11) (of_Z 100))))
      (seq 1 10).

(** A scanned user whose ["ltv"] can be summed. *)
Definition has_numeric_ltv (u : attrs) : bool :=
  match lookup u "ltv" with
  | Some v => is_number v
  | None => false
  end.

(** The attribute dictionary of a [User] node of [G] that passes the filter. *)
Definition cohort_member (G : Graph) (f : user_filter) (u : attrs) : Prop :=
  exists n, In (n, u) (g_nodes G) /\ has_type u "User" = true /\ matches u f = true.

(** What the cohort scan keeps true of its counters. *)
Definition counts_ok (a : cohort_acc) : Prop :=
  acc_event_counts a = map event_count (acc_sessions a)
  /\ 0 <= acc_purchases a
  /\ 0 <= acc_cart_adds a
  /\ acc_purchases a + acc_cart_adds a <= sum_Z (acc_event_counts a).

(** A user without an ["ltv"] attribute. *)
Definition no_ltv_graph : Graph :=
  add_node "user_9" (node "User" [("user_id", VInt 9); ("segment", VStr "new")])
           empty_graph.

(** What [compare_cohorts] returns on [cohort_graph] when both cohorts are
    given the name ["Users"]. *)
Definition collided_comparison : list (string * metrics) :=
  [("Users",
    stats_dict (mkStats 1 1 (NFloat (of_Z 1)) (NFloat (of_Z 30)) 0 0
                        (NFloat (of_Z 0))));
   ("comparison",
    [("events_diff", NFloat (of_ratio 33 100));
     ("ltv_diff", NFloat (of_Z 470));
     ("conversion_diff", NFloat (of_Z 0))])].

(** What a path returned by [find_churn_paths] is: the journey that
    [extract_user_journeys] gives with [max_sessions = 1] for a user whose
    context says churned, its session id being that of a session that ends
    in an [exit] event. *)
Definition churn_path (G : Graph) (p : path) : Prop :=
  exists user_id ctx session session_data,
    path_user p = Some (user_id, Some ctx)
    /\ run (get_user_context user_id) G = Ok (Some ctx)
    /\ truthy (ctx_churned ctx) = true
    /\ run (extract_user_journeys user_id 1) G = Ok [path_journey p]
    /\ owns_terminal G "exit" session
    /\ run (node_attrs session) G = Ok session_data
    /\ py_eqb (session_id (path_journey p)) (get session_data "session_id") = true.

(** The same for [find_conversion_paths], whatever the user's context. *)
Definition conversion_path (G : Graph) (p : path) : Prop :=
  exists user_id ctx session session_data,
    path_user p = Some (user_id, ctx)
    /\ run (get_user_context user_id) G = Ok ctx
    /\ run (extract_user_journeys user_id 1) G = Ok [path_journey p]
    /\ owns_terminal G "purchase" session
    /\ run (node_attrs session) G = Ok session_data
    /\ py_eqb (session_id (path_journey p)) (get session_data "session_id") = true.

(** The path [find_churn_paths] returns on [churned_user_graph], and the
    one [find_conversion_paths] returns on [sample_graph]. *)
Definition churned_user_path : path :=
  mkPath (Some (VInt 2,
                Some (mkContext (VInt 2) (VStr "low") (VFloat (of_Z 30)) (VBool true))))
         (mkJourney (VInt 2) (VStr "2026-01-01T11:00:00") 2
            [mkEvent (VInt 4) (VStr "search") (VStr "2026-01-01T11:00:00")
                     (VStr "/search") [];
             mkEvent (VInt 5) (VStr "exit") (VStr "2026-01-01T11:01:00")
                     (VStr "/exit") []]).

Definition sample_conversion_path : path :=
  mkPath (Some (VInt 1,
                Some (mkContext (VInt 1) (VStr "high_value") (VFloat (of_Z 500))
                                (VBool false))))
         (mkJourney (VInt 1) (VStr "2026-01-01T10:00:00") 3
            [mkEvent (VInt 1) (VStr "page_view") (VStr "2026-01-01T10:00:00")
                     (VStr "/home") [];
             mkEvent (VInt 2) (VStr "click") (VStr "2026-01-01T10:01:00")
                     (VStr "/products")
                     [node "Product" [("product_id", VInt 1);
                                      ("name", VStr "Test Product");
                                      ("category", VStr "Electronics");
                                      ("price", VFloat (of_ratio 9999 100))]];
             mkEvent (VInt 3) (VStr "purchase") (VStr "2026-01-01T10:02:00")
                     (VStr "/checkout") []]).

(** What the walks of [find_products_before_purchase] keep true of the two
    counters: every count is positive, and both have counted the same
    number of product views. *)
Definition views_ok (s : counter value * counter value) : Prop :=
  counted (fst s) /\ counted (snd s) /\ counter_total (fst s) = counter_total (snd s).

(** What one walk of [find_exit_points_after_category] keeps true, started
    with the counter [patterns0]. *)
Definition exit_walk_ok (patterns0 : counter value) (w : exit_walk) : Prop :=
  counted (exit_patterns w)
  /\ 0 <= events_count w
  /\ (viewed_category w = true ->
      counter_total patterns0 + 1 <= counter_total (exit_patterns w)
      /\ 1 <= events_count w)
  /\ (viewed_category w = false -> exit_patterns w = patterns0).

(** What the two product queries return on [sample_graph] and on
    [cyclic_graph]. *)
Definition sample_purchase_report : purchase_report :=
  mkPurchaseReport 1 [(VStr "Electronics", 1)] [(VStr "Test Product", 1)].

Definition cyclic_exit_report : exit_report :=
  mkExitReport "Electronics" 1 (NFloat (of_Z 20)) [(VStr "click", 10)].

(** The values [format(v, ".2f")] accepts: a float, a bool, or an int
    within the range of a float. *)
Definition formats (v : value) : bool :=
  match v with
  | VBool _ | VFloat _ => true
  | VInt z => negb (is_inf (of_Z z))
  | VNone | VStr _ => false
  end.

(** An event the narration can describe: its type is a string, and the
    price of its first product, if it has one, can be formatted. *)
Definition describable (e : event_view) : bool :=
  is_text (event_type e)
  && match products e with
     | [] => true
     | prod :: _ => formats (get_or prod "price" (VInt 0))
     end.

(** A path the narration can print. *)
Definition printable (p : path) : bool :=
  match path_user p with
  | Some (_, Some ctx) => formats (ctx_ltv ctx)
  | _ => true
  end
  && forallb describable (events (path_journey p)).

(** The exceptions formatting and joining raise. *)
Definition format_error (e : exn) : Prop :=
  e = TypeError \/ e = ValueError \/ e = OverflowError.

(** What [query_churned_user_journeys] returns on [churned_user_graph]. *)
Definition churned_user_text : string :=
  join NL
    ["## Customer Journey Context"; "";
     "### Sample Journeys:"; "";
     "**Journey 1:**";
     "User (segment: low, LTV: $30.00, churned: True)";
     "Journey: search → exit"; "";
     "## Common Churned User Journey Patterns"; "";
     "1. **search → exit** - 1 occurrences (100.0%)"].

(* ===================================================================== *)
(** ** The query router of the API *)
(* ===================================================================== *)

(** [str.lower()] on ASCII text; bytes outside ASCII are copied. *)
Fixpoint lower (s : string) : string :=
  match s with
  | EmptyString => EmptyString
  | String c s' => String (to_lower c) (lower s')
  end.

(** The string a truthy [category] argument holds. *)
Definition category_text (category : option string) : string :=
  match category with Some c => c | None => "" end.

(** [get_graphrag_context] of the API module, on the loaded graph. *)
Definition get_graphrag_context (query : string) (category : option string)
  : M string :=
  let query_lower := lower query in
  if contains "churn" query_lower || contains "drop" query_lower
  then query_churned_user_journeys 30
  else if contains "high" query_lower && contains "low" query_lower
  then query_high_vs_low_ltv
  else if contains "before" query_lower && contains "purchase" query_lower
  then query_pre_purchase_behavior category
  else if contains "exit" query_lower && str_truthy category
  then query_category_exit_analysis (category_text category)
  else if str_truthy category
  then query_category_exit_analysis (category_text category)
  else query_churned_user_journeys 30.

(** The query and category of each entry of [PRESET_QUERIES]. *)
Definition PRESET_QUERIES : list (string * string * option string) :=
  [("churned_journeys",
    "What's the typical journey of churned users? What patterns lead to churn?",
    None);
   ("pre_purchase_electronics",
    "Which products do users view before purchasing electronics? What's the typical path to conversion?",
    Some "Electronics");
   ("high_vs_low_ltv",
    "How do high-LTV users browse differently from low-LTV users? What behaviors distinguish them?",
    None);
   ("fashion_exit",
    "Why do users drop off after viewing fashion products? What are common exit patterns?",
    Some "Fashion");
   ("conversion_funnel",
    "What does the conversion funnel look like? Where do most users drop off in the purchase journey?",
    None)].

(** The keywords, other than ["exit"], the router looks for. *)
Definition routing_keywords : list string :=
  ["churn"; "drop"; "high"; "low"; "before"; "purchase"].

(** Two queries mention the same routing keywords. *)
Definition same_keywords (q1 q2 : string) : bool :=
  forallb (fun k => Bool.eqb (contains k (lower q1)) (contains k (lower q2)))
          routing_keywords.

(* ===================================================================== *)
(** ** Graph statistics (build_graph.py) *)
(* ===================================================================== *)

(** [G.edges(data=True)]: the out-edges of each node, node by node. *)
Definition edges_data : M (list (string * string * attrs)) :=
  fun G =>
    (Ok (flat_map (fun nd => filter (fun e => String.eqb (fst (fst e)) (fst nd))
                                    (g_edges G))
                  (g_nodes G)),
     G).

Definition number_of_nodes : M Z := fun G => (Ok (len (g_nodes G)), G).
Definition number_of_edges : M Z := fun G => (Ok (len (g_edges G)), G).

Record graph_stats : Type := mkGraphStats {
  total_nodes : Z;
  total_edges : Z;
  node_types : counter value;
  edge_types : counter value
}.

(** [d[k] = d.get(k, 0) + 1] over the items of a view. *)
Definition count_types {A} (key : A -> value) (items : list A) : counter value :=
  fold_left (fun c x => counter_incr py_eqb (key x) c) items [].

Definition get_graph_stats : M graph_stats :=
  let* nodes := nodes_data in
  let node_types :=
    count_types (fun nd => get_or (snd nd) "node_type" (VStr "Unknown")) nodes in
  let* edges := edges_data in
  let edge_types :=
    count_types (fun e => get_or (snd e) "edge_type" (VStr "Unknown")) edges in
  let* n := number_of_nodes in
  let* m := number_of_edges in
  ret (mkGraphStats n m node_types edge_types).

(** No node name occurs twice, as in any node dictionary. *)
Fixpoint distinct (names : list string) : bool :=
  match names with
  | [] => true
  | n :: names' => negb (existsb (String.eqb n) names') && distinct names'
  end.

(** The source of an edge is one of the nodes [ns]. *)
Definition from_node (ns : list (string * attrs)) (e : string * string * attrs)
  : bool :=
  existsb (fun nd => String.eqb (fst (fst e)) (fst nd)) ns.

(** No [Product] node of the graph has the category [c]. *)
Definition no_product_of (c : string) (G : Graph) : bool :=
  forallb (fun nd => negb (has_type (snd nd) "Product")
                     || negb (py_eqb (get (snd nd) "category") (VStr c)))
          (g_nodes G).

(** [sample_graph] with its purchase event linked to the product. *)
Definition purchased_product_graph : Graph :=
  add_edge "event_3" "product_1" (edge "INVOLVES") sample_graph.

(** A float NaN, the one value [<] does not order against numbers. *)
Definition is_nan_value (v : value) : bool :=
  match v with VFloat S754_nan => true | _ => false end.

(** No node of the graph carries a NaN timestamp. *)
Definition no_nan_timestamps (G : Graph) : bool :=
  forallb (fun nd => negb (is_nan_value (get (snd nd) "timestamp"))) (g_nodes G).

(** [e] is what [extract_user_journeys] makes of the event node [n]: the
    four attributes it reads from the node, and the attribute dictionaries
    of the node's [Product] successors, in successor order. *)
Definition views (G : Graph) (n : string) (e : event_view) : Prop :=
  exists data succs product_nodes,
    run (node_attrs n) G = Ok data
    /\ event_id e = get data "event_id"
    /\ event_type e = get data "event_type"
    /\ timestamp e = get data "timestamp"
    /\ page_url e = get data "page_url"
    /\ run (successors n) G = Ok succs
    /\ run (filterM (node_has_type "Product") succs) G = Ok product_nodes
    /\ Forall2 (fun p a => run (node_attrs p) G = Ok a) product_nodes (products e).

(** [2^e] as a real number. *)
Definition bpow (e : Z) : R := powerRZ 2 e.

(** The real number a finite float stands for; 0 for the others. *)
Definition float_value (f : float) : R :=
  match f with
  | S754_finite s m e => ((if s then -1 else 1) * IZR (Zpos m) * bpow e)%R
  | _ => 0%R
  end.

(** Zero, or a positive float in units of at most [2^-45]. *)
Definition small_float (f : float) : Prop :=
  f = S754_zero false \/ exists m e, f = S754_finite false m e /\ e <= -45.

(** The percentages of a ranking in exact arithmetic, added up. *)
Fixpoint exact_sum (T : Z) (rs : list (string * Z * number)) : R :=
  match rs with
  | [] => 0%R
  | r :: rs' => (100 * IZR (snd (fst r)) / IZR T + exact_sum T rs')%R
  end.

(** The real number a Python number stands for. *)
Definition number_value (n : number) : R :=
  match n with
  | NInt z => IZR z
  | NFloat f => float_value f
  end.

(** The returned percentages, added up as real numbers. *)
Fixpoint value_sum (rs : list (string * Z * number)) : R :=
  match rs with
  | [] => 0%R
  | r :: rs' => (number_value (snd r) + value_sum rs')%R
  end.

(** An entry of a ranking over [T] sessions: its count, and the percentage
    the module computes for it. *)
Definition tallied_entry (T : Z) (r : string * Z * number) : Prop :=
  1 <= snd (fst r) <= T /\ percentage (snd (fst r)) T = Ok (snd r).

(** What [find_common_patterns] returns on [distinct_patterns 3]: three
    patterns, a third of the sessions each. *)
Definition three_thirds : list (string * Z * number) :=
  map (fun i => ("step_" ++ digits_of_Z (Z.of_nat i), 1,
                 NFloat (fmul (of_ratio 1 3) (of_Z 100))))
      (seq 1 3).

(* ===================================================================== *)
(** * Properties *)
(* ===================================================================== *)

(** ** Read-only computations *)

Lemma read_only_eta {A} (m : M A) G : read_only m -> m G = (run m G, G).
Proof.
  intros H. unfold run. rewrite <- (H G) at 3. destruct (m G); reflexivity.
Qed.

Lemma ro_ret {A} (a : A) : read_only (ret a).
Proof. intros G; reflexivity. Qed.

Lemma ro_raise {A} e : read_only (@raise A e).
Proof. intros G; reflexivity. Qed.

Lemma ro_lift {A} (r : result A) : read_only (lift r).
Proof. intros G; reflexivity. Qed.

Lemma ro_bind {A B} (m : M A) (k : A -> M B) :
  read_only m -> (forall a, read_only (k a)) -> read_only (bind m k).
Proof.
  intros Hm Hk G. unfold bind. rewrite (read_only_eta m G Hm).
  destruct (run m G); [apply Hk | reflexivity].
Qed.

Lemma ro_has_node n : read_only (has_node n).
Proof. intros G; reflexivity. Qed.

Lemma ro_node_attrs n : read_only (node_attrs n).
Proof. intros G; reflexivity. Qed.

Lemma ro_successors n : read_only (successors n).
Proof. intros G; reflexivity. Qed.

Lemma ro_predecessors n : read_only (predecessors n).
Proof. intros G; reflexivity. Qed.

Lemma ro_edge_attrs u v : read_only (edge_attrs u v).
Proof. intros G; reflexivity. Qed.

Lemma ro_nodes_data : read_only nodes_data.
Proof. intros G; reflexivity. Qed.

Lemma ro_for_each {A S} (body : A -> S -> M (ctl S)) :
  (forall x s, read_only (body x s)) ->
  forall l s, read_only (for_each l body s).
Proof.
  intros Hb l. induction l as [|x l IH]; intros s; simpl.
  - apply ro_ret.
  - apply ro_bind; [apply Hb|]. intros [s'|s']; [apply IH | apply ro_ret].
Qed.

Lemma ro_mapM {A B} (f : A -> M B) :
  (forall x, read_only (f x)) -> forall l, read_only (mapM f l).
Proof.
  intros Hf l. induction l as [|x l IH]; simpl.
  - apply ro_ret.
  - apply ro_bind; [apply Hf|]. intros y.
    apply ro_bind; [apply IH|]. intros ys. apply ro_ret.
Qed.

Lemma ro_filterM {A} (p : A -> M bool) :
  (forall x, read_only (p x)) -> forall l, read_only (filterM p l).
Proof.
  intros Hp l. induction l as [|x l IH]; simpl.
  - apply ro_ret.
  - apply ro_bind; [apply Hp|]. intros b.
    apply ro_bind; [apply IH|]. intros xs. apply ro_ret.
Qed.

Lemma ro_anyM {A} (p : A -> M bool) :
  (forall x, read_only (p x)) -> forall l, read_only (anyM p l).
Proof.
  intros Hp l. induction l as [|x l IH]; simpl.
  - apply ro_ret.
  - apply ro_bind; [apply Hp|]. intros [|]; [apply ro_ret | apply IH].
Qed.

Lemma ro_first_where {A} (p : A -> M bool) :
  (forall x, read_only (p x)) -> forall l, read_only (first_where p l).
Proof.
  intros Hp l. induction l as [|x l IH]; simpl.
  - apply ro_ret.
  - apply ro_bind; [apply Hp|]. intros [|]; [apply ro_ret | apply IH].
Qed.

Create HintDb ro discriminated.
#[export] Hint Resolve ro_ret ro_raise ro_lift ro_has_node ro_node_attrs
  ro_successors ro_predecessors ro_edge_attrs ro_nodes_data : ro.

(** One step of a read-only proof: follow the shape of the computation. *)
Ltac ro_step :=
  match goal with
  | p : (_ * _)%type |- _ => destruct p
  | |- read_only (bind _ _) => apply ro_bind; [| intros ?]
  | |- read_only (for_each _ _ _) => apply ro_for_each; intros ? ?
  | |- read_only (mapM _ _) => apply ro_mapM; intros ?
  | |- read_only (filterM _ _) => apply ro_filterM; intros ?
  | |- read_only (anyM _ _) => apply ro_anyM; intros ?
  | |- read_only (first_where _ _) => apply ro_first_where; intros ?
  | |- read_only (let '(_, _) := ?x in _) => destruct x
  | |- read_only (match ?x with _ => _ end) => destruct x
  | |- read_only (if ?b then _ else _) => destruct b
  | |- read_only _ => solve [auto with ro]
  | |- read_only _ => progress cbn beta iota
  end.

Ltac ro := repeat ro_step.

Lemma ro_node_has_type ty n : read_only (node_has_type ty n).
Proof. unfold node_has_type. ro. Qed.
#[export] Hint Resolve ro_node_has_type : ro.

Lemma ro_collect_event n evs : read_only (collect_event n evs).
Proof. unfold collect_event. ro. Qed.
#[export] Hint Resolve ro_collect_event : ro.

Lemma ro_extract_session n : read_only (extract_session n).
Proof. unfold extract_session. ro. Qed.
#[export] Hint Resolve ro_extract_session : ro.

Lemma ro_extract_user_journeys uid k : read_only (extract_user_journeys uid k).
Proof. unfold extract_user_journeys. ro. Qed.
#[export] Hint Resolve ro_extract_user_journeys : ro.

Lemma ro_get_user_context uid : read_only (get_user_context uid).
Proof. unfold get_user_context. ro. Qed.
#[export] Hint Resolve ro_get_user_context : ro.

Lemma ro_is_next_edge u v : read_only (is_next_edge u v).
Proof. unfold is_next_edge. ro. Qed.
#[export] Hint Resolve ro_is_next_edge : ro.

Lemma ro_find_sessions_by_outcome o k : read_only (find_sessions_by_outcome o k).
Proof. unfold find_sessions_by_outcome. ro. Qed.
#[export] Hint Resolve ro_find_sessions_by_outcome : ro.

Lemma ro_user_of_session n : read_only (user_of_session n).
Proof. unfold user_of_session. ro. Qed.
#[export] Hint Resolve ro_user_of_session : ro.

Lemma ro_find_conversion_paths k : read_only (find_conversion_paths k).
Proof. unfold find_conversion_paths. ro. Qed.
#[export] Hint Resolve ro_find_conversion_paths : ro.

Lemma ro_find_churn_paths k : read_only (find_churn_paths k).
Proof. unfold find_churn_paths. ro. Qed.
#[export] Hint Resolve ro_find_churn_paths : ro.

Lemma ro_tally_patterns f k : read_only (tally_patterns f k).
Proof. unfold tally_patterns. ro. Qed.
#[export] Hint Resolve ro_tally_patterns : ro.

Lemma ro_find_common_patterns f k : read_only (find_common_patterns f k).
Proof. unfold find_common_patterns. ro. Qed.
#[export] Hint Resolve ro_find_common_patterns : ro.

Lemma ro_scan_cohort f k : read_only (scan_cohort f k).
Proof. unfold scan_cohort. ro. Qed.
#[export] Hint Resolve ro_scan_cohort : ro.

Lemma ro_analyze_cohort f k : read_only (analyze_cohort f k).
Proof. unfold analyze_cohort. ro. Qed.
#[export] Hint Resolve ro_analyze_cohort : ro.

Lemma ro_compare_cohorts fa fb na nb k : read_only (compare_cohorts fa fb na nb k).
Proof. unfold compare_cohorts. ro. Qed.
#[export] Hint Resolve ro_compare_cohorts : ro.

Lemma ro_previous_event n : read_only (previous_event n).
Proof. unfold previous_event. ro. Qed.
#[export] Hint Resolve ro_previous_event : ro.

Lemma ro_walk_back {S} (visit : string -> S -> M S) start s :
  (forall n s', read_only (visit n s')) -> read_only (walk_back visit start s).
Proof. intros Hv. unfold walk_back, walk_step. ro. Qed.

Lemma ro_first_product n : read_only (first_product n).
Proof. unfold first_product. ro. Qed.
#[export] Hint Resolve ro_first_product : ro.

Lemma ro_tally_viewed n s : read_only (tally_viewed n s).
Proof. unfold tally_viewed. ro. Qed.
#[export] Hint Resolve ro_tally_viewed : ro.

Lemma ro_check_category c n w : read_only (check_category c n w).
Proof. unfold check_category. ro. Qed.
#[export] Hint Resolve ro_check_category : ro.

Lemma ro_find_products_before_purchase c k :
  read_only (find_products_before_purchase c k).
Proof.
  unfold find_products_before_purchase. ro.
  all: try (apply ro_walk_back; intros; auto with ro).
Qed.
#[export] Hint Resolve ro_find_products_before_purchase : ro.

Lemma ro_find_exit_points_after_category c k :
  read_only (find_exit_points_after_category c k).
Proof.
  unfold find_exit_points_after_category. ro.
  all: try (apply ro_walk_back; intros; auto with ro).
Qed.
#[export] Hint Resolve ro_find_exit_points_after_category : ro.

Lemma ro_query_churned_user_journeys k : read_only (query_churned_user_journeys k).
Proof. unfold query_churned_user_journeys. ro. Qed.

Lemma ro_query_high_vs_low_ltv : read_only query_high_vs_low_ltv.
Proof. unfold query_high_vs_low_ltv. ro. Qed.

Lemma ro_query_pre_purchase_behavior c : read_only (query_pre_purchase_behavior c).
Proof. unfold query_pre_purchase_behavior. ro. Qed.

Lemma ro_query_category_exit_analysis c : read_only (query_category_exit_analysis c).
Proof. unfold query_category_exit_analysis. ro. Qed.

(** ** Running a computation *)

Lemma run_ret {A} (a : A) G : run (ret a) G = Ok a.
Proof. reflexivity. Qed.

Lemma run_lift {A} (r : result A) G : run (lift r) G = r.
Proof. reflexivity. Qed.

Lemma run_bind {A B} (m : M A) (k : A -> M B) G :
  read_only m ->
  run (bind m k) G = match run m G with Ok a => run (k a) G | Err e => Err e end.
Proof.
  intros Hm. unfold run at 1, bind. rewrite (read_only_eta m G Hm).
  destruct (run m G); reflexivity.
Qed.

(** A bind that returned: its first part returned, and so did the rest. *)
Lemma run_bind_ok {A B} (m : M A) (k : A -> M B) G b :
  read_only m ->
  run (bind m k) G = Ok b ->
  exists a, run m G = Ok a /\ run (k a) G = Ok b.
Proof.
  intros Hm H. rewrite run_bind in H by assumption.
  destruct (run m G) as [a|e]; [eauto | discriminate].
Qed.

Lemma rbind_ok {A B} (r : result A) (k : A -> result B) b :
  rbind r k = Ok b -> exists a, r = Ok a /\ k a = Ok b.
Proof. destruct r as [a|e]; simpl; [eauto | discriminate]. Qed.

Lemma rmap_ok {A B} (f : A -> result B) l ys :
  rmap f l = Ok ys -> Forall2 (fun x y => f x = Ok y) l ys.
Proof.
  revert ys. induction l as [|x l IH]; simpl; intros ys H.
  - inversion H. constructor.
  - apply rbind_ok in H as (y & Hy & H).
    apply rbind_ok in H as (ys' & Hys & H). inversion H; subst.
    constructor; auto.
Qed.

Lemma run_mapM_ok {A B} (f : A -> M B) G :
  (forall x, read_only (f x)) ->
  forall l ys, run (mapM f l) G = Ok ys ->
               Forall2 (fun x y => run (f x) G = Ok y) l ys.
Proof.
  intros Hf l. induction l as [|x l IH]; simpl; intros ys H.
  - inversion H. constructor.
  - apply run_bind_ok in H as (y & Hy & H); [|apply Hf].
    apply run_bind_ok in H as (ys' & Hys & H); [|apply ro_mapM, Hf].
    inversion H; subst. constructor; auto.
Qed.

(** A loop invariant: what every iteration preserves holds of the state
    the loop ends with. *)
Lemma for_each_invariant {A S} (I : S -> Prop) (body : A -> S -> M (ctl S)) G :
  (forall x s, read_only (body x s)) ->
  (forall x s c, I s -> run (body x s) G = Ok c ->
                 match c with Continue s' | Break s' => I s' end) ->
  forall l s s', I s -> run (for_each l body s) G = Ok s' -> I s'.
Proof.
  intros Hro Hstep l. induction l as [|x l IH]; simpl; intros s s' Hs H.
  - inversion H; subst; assumption.
  - apply run_bind_ok in H as (c & Hc & H); [|apply Hro].
    specialize (Hstep x s c Hs Hc). destruct c as [s1|s1].
    + exact (IH s1 s' Hstep H).
    + inversion H; subst; assumption.
Qed.

(** A loop whose every iteration falls through with the state untouched. *)
Lemma for_each_skip {A S} (body : A -> S -> M (ctl S)) G l s :
  (forall x, In x l -> body x s G = (Ok (Continue s), G)) ->
  for_each l body s G = (Ok s, G).
Proof.
  induction l as [|x l IH]; simpl; intros H.
  - reflexivity.
  - unfold bind. rewrite (H x) by auto. apply IH. intros y Hy. apply H. auto.
Qed.

(* ===================================================================== *)
(** ** The test suite's expectations *)
(* ===================================================================== *)

Example sample_journey_pattern :
  run (let* js := extract_user_journeys (VInt 1) 10 in
       lift (rmap (fun j => extract_journey_pattern (events j)) js)) sample_graph
  = Ok ["page_view → click → purchase"].
Proof. vm_compute. reflexivity. Qed.

Example churned_patterns :
  run (find_common_patterns (Some [("churned", VBool true)]) 10) churned_user_graph
  = Ok [("search → exit", 1, NFloat (of_Z 100))].
Proof. vm_compute. reflexivity. Qed.

(* ===================================================================== *)
(** ** Pattern strings *)
(* ===================================================================== *)

Lemma rmap_as_str_event_types (evs : list event_view) (tys : list string) :
  map event_type evs = map VStr tys ->
  rmap (fun e => as_str (event_type e)) evs = Ok tys.
Proof.
  revert tys. induction evs as [|e evs IH]; intros [|t tys] H;
    simpl in *; try discriminate; [reflexivity|].
  injection H as Ht Hrest. rewrite Ht. simpl. rewrite (IH tys Hrest). reflexivity.
Qed.

Lemma rmap_ext_map {A B C} (f : C -> result B) (g : A -> C) (l l' : list A) :
  map g l = map g l' ->
  rmap (fun x => f (g x)) l = rmap (fun x => f (g x)) l'.
Proof.
  revert l'. induction l as [|x l IH]; intros [|y l'] H;
    simpl in *; try discriminate; [reflexivity|].
  injection H as Hx Hl. rewrite Hx, (IH l' Hl). reflexivity.
Qed.

(** C8. [extract_journey_pattern] of the empty sequence is the empty
    string; of any sequence of events with (string) types it is exactly
    those types, in sequence order, joined by [" → "]; and its result is a
    function of the event types alone: it reads neither the graph nor any
    other field of the events. *)
Theorem extract_journey_pattern_spec :
  extract_journey_pattern [] = Ok ""
  /\ (forall (evs : list event_view) (tys : list string),
         map event_type evs = map VStr tys ->
         extract_journey_pattern evs = Ok (String.concat " → " tys))
  /\ (forall evs evs' : list event_view,
         map event_type evs = map event_type evs' ->
         extract_journey_pattern evs = extract_journey_pattern evs').
Proof.
  split; [reflexivity|]. split.
  - intros evs tys H. unfold extract_journey_pattern.
    rewrite (rmap_as_str_event_types evs tys H). reflexivity.
  - intros evs evs' H. unfold extract_journey_pattern.
    rewrite (rmap_ext_map as_str event_type evs evs' H). reflexivity.
Qed.

Lemma extract_journey_pattern_witness :
  extract_journey_pattern
    [mkEvent (VInt 1) (VStr "page_view") (VStr "t0") (VStr "/home") [];
     mkEvent (VInt 2) (VStr "click") (VStr "t1") (VStr "/products") [];
     mkEvent (VInt 3) (VStr "purchase") (VStr "t2") (VStr "/checkout") []]
  = Ok "page_view → click → purchase".
Proof.
  apply (proj1 (proj2 extract_journey_pattern_spec) _
               ["page_view"; "click"; "purchase"]).
  reflexivity.
Defined.

(* ===================================================================== *)
(** ** Absent users *)
(* ===================================================================== *)

(** C5. For a user id whose node [user_<id>] is not in the graph,
    [extract_user_journeys] returns the empty list and [get_user_context]
    returns [None]; neither raises. *)
Theorem absent_user_is_not_an_error (G : Graph) (user_id : value) (max_sessions : Z) :
  mem_node G (user_node_of user_id) = false ->
  run (extract_user_journeys user_id max_sessions) G = Ok []
  /\ run (get_user_context user_id) G = Ok None.
Proof.
  intros H. unfold run, extract_user_journeys, get_user_context, bind, has_node.
  rewrite H. split; reflexivity.
Qed.

Lemma absent_user_witness :
  run (extract_user_journeys (VInt 999) 10) sample_graph = Ok []
  /\ run (get_user_context (VInt 999)) sample_graph = Ok None.
Proof.
  apply (absent_user_is_not_an_error sample_graph (VInt 999) 10).
  vm_compute. reflexivity.
Defined.

(* ===================================================================== *)
(** ** The graph is only read *)
(* ===================================================================== *)

(** C9. Every retrieval operation hands back the graph it was given: the
    nodes, edges and attributes after a call, returning or raising, are
    those before it. The serializers do not receive the graph at all; they
    appear here as the queries run them. *)
Theorem retrieval_leaves_graph_unchanged (G : Graph) :
  (forall uid k, snd (extract_user_journeys uid k G) = G)
  /\ (forall uid, snd (get_user_context uid G) = G)
  /\ (forall outcome k, snd (find_sessions_by_outcome outcome k G) = G)
  /\ (forall k, snd (find_conversion_paths k G) = G)
  /\ (forall k, snd (find_churn_paths k G) = G)
  /\ (forall f k, snd (find_common_patterns f k G) = G)
  /\ (forall fa fb na nb k, snd (compare_cohorts fa fb na nb k G) = G)
  /\ (forall c k, snd (find_products_before_purchase c k G) = G)
  /\ (forall c k, snd (find_exit_points_after_category c k G) = G)
  /\ (forall evs, snd (lift (extract_journey_pattern evs) G) = G)
  /\ (forall ps k b, snd (lift (serialize_journeys_for_llm ps k b) G) = G)
  /\ (forall ps d, snd (lift (serialize_patterns_for_llm ps d) G) = G)
  /\ (forall c, snd (ret (serialize_comparison_for_llm c) G) = G)
  /\ (forall k, snd (query_churned_user_journeys k G) = G)
  /\ snd (query_high_vs_low_ltv G) = G
  /\ (forall c, snd (query_pre_purchase_behavior c G) = G)
  /\ (forall c, snd (query_category_exit_analysis c G) = G).
Proof.
  repeat split; intros.
  - apply ro_extract_user_journeys.
  - apply ro_get_user_context.
  - apply ro_find_sessions_by_outcome.
  - apply ro_find_conversion_paths.
  - apply ro_find_churn_paths.
  - apply ro_find_common_patterns.
  - apply ro_compare_cohorts.
  - apply ro_find_products_before_purchase.
  - apply ro_find_exit_points_after_category.
  - apply ro_query_churned_user_journeys.
  - apply ro_query_high_vs_low_ltv.
  - apply ro_query_pre_purchase_behavior.
  - apply ro_query_category_exit_analysis.
Qed.

(* ===================================================================== *)
(** ** The empty graph *)
(* ===================================================================== *)

Lemma prefix_app (n r : string) : String.prefix n (n ++ r) = true.
Proof.
  induction n as [|a n IH]; simpl.
  - destruct r; reflexivity.
  - destruct (ascii_dec a a); [assumption | contradiction].
Qed.

Lemma contains_prefix (n s : string) :
  String.prefix n s = true -> contains n s = true.
Proof. intros H. destruct s; cbn [contains]; rewrite H; reflexivity. Qed.

Lemma contains_app (n pre r : string) : contains n (pre ++ n ++ r) = true.
Proof.
  induction pre as [|a pre IH].
  - cbn [append]. apply contains_prefix, prefix_app.
  - cbn [append contains]. rewrite IH. apply orb_true_r.
Qed.

Lemma append_assoc (a b c : string) : (a ++ b) ++ c = a ++ b ++ c.
Proof. induction a as [|x a IH]; simpl; [reflexivity | rewrite IH; reflexivity]. Qed.

Lemma placeholder_contained (t pre post : string) :
  placeholder t -> contains "No " (pre ++ t ++ post) = true.
Proof.
  intros [-> | [d ->]].
  - change no_journeys with ("No " ++ "journeys found matching the criteria.").
    rewrite append_assoc. apply contains_app.
  - unfold no_patterns. rewrite append_assoc. apply contains_app.
Qed.

(** C4, as the code has it. On the empty graph no high-level query raises.
    The churned-user analysis returns its two placeholders; the cohort
    comparison prints its all-zero block before the two pattern
    placeholders; the pre-purchase analysis prints its headers with a zero
    count before the journey placeholder; the category exit analysis has no
    placeholder and returns its report with zero counts. *)
Theorem empty_graph_queries :
  (forall sample_size,
      run (query_churned_user_journeys sample_size) empty_graph
      = Ok (no_journeys ++ NL ++ NL ++ no_patterns "churned user journey patterns"))
  /\ run query_high_vs_low_ltv empty_graph
     = Ok (zero_comparison_text ++ NL ++ NL
             ++ no_patterns "high-value user patterns" ++ NL ++ NL
             ++ no_patterns "low-value user patterns")
  /\ (forall category,
         run (query_pre_purchase_behavior category) empty_graph
         = Ok (join NL (["## Pre-Purchase Behavior Analysis" ++ NL]
                          +++ filter_line category
                          +++ ["Purchases analyzed: 0";
                               NL ++ "### Categories viewed before purchase:";
                               NL ++ "### Sample conversion journeys:"])
                 ++ NL ++ NL ++ no_journeys))
  /\ (forall category,
         run (query_category_exit_analysis category) empty_graph
         = Ok (join NL ["## Exit Analysis for " ++ category ++ " Category" ++ NL;
                        "- Users who exited after viewing " ++ category ++ ": 0";
                        "- Average events before exit: 0";
                        NL ++ "### Last event type before exit:"])).
Proof.
  split; [intros; reflexivity|].
  split; [vm_compute; reflexivity|].
  split.
  - intros [c|]; [|reflexivity].
    unfold run, query_pre_purchase_behavior, filter_line.
    destruct (String.eqb c ""); reflexivity.
  - intros c. reflexivity.
Qed.

(** C4 as stated fails for the category exit analysis: on the empty graph
    its text contains no placeholder at all. *)
Lemma exit_analysis_has_no_placeholder :
  ~ (exists pre t post,
        placeholder t
        /\ run (query_category_exit_analysis "Electronics") empty_graph
           = Ok (pre ++ t ++ post)).
Proof.
  intros (pre & t & post & Ht & H).
  pose proof (placeholder_contained t pre post Ht) as C.
  assert (E : forall s, run (query_category_exit_analysis "Electronics") empty_graph
                        = Ok s -> contains "No " s = false).
  { intros s Hs. vm_compute in Hs. injection Hs as <-. vm_compute. reflexivity. }
  rewrite (E _ H) in C. discriminate.
Qed.

(* ===================================================================== *)
(** ** Order facts about [<] *)
(* ===================================================================== *)

Lemma option_CompOpp_involutive (c : option comparison) :
  option_map CompOpp (option_map CompOpp c) = c.
Proof. destruct c as [[| |]|]; reflexivity. Qed.

Lemma SFcompare_antisym (f g : float) :
  SFcompare g f = option_map CompOpp (SFcompare f g).
Proof.
  destruct f as [s1|s1| |s1 m1 e1], g as [s2|s2| |s2 m2 e2];
    try destruct s1; try destruct s2; try reflexivity.
  - simpl. rewrite (Z.compare_antisym e1 e2).
    destruct (Z.compare e1 e2); simpl; try reflexivity.
    rewrite (Pos.compare_cont_antisym m1 m2 Eq).
    destruct (Pos.compare_cont Eq m1 m2); reflexivity.
  - simpl. rewrite (Z.compare_antisym e1 e2).
    destruct (Z.compare e1 e2); simpl; try reflexivity.
    rewrite (Pos.compare_cont_antisym m1 m2 Eq). reflexivity.
Qed.

Lemma num_cmp_antisym (a b : number) :
  num_cmp b a = option_map CompOpp (num_cmp a b).
Proof.
  destruct a as [x|f], b as [y|g]; simpl.
  - rewrite (Z.compare_antisym x y). reflexivity.
  - reflexivity.
  - symmetry. apply option_CompOpp_involutive.
  - apply SFcompare_antisym.
Qed.

(** [<] is asymmetric wherever it is defined. *)
Lemma py_lt_asym (a b : value) : py_lt a b = Ok true -> py_lt b a = Ok false.
Proof.
  assert (N : forall x y, num_ltb x y = true -> num_ltb y x = false).
  { intros x y. unfold num_ltb. rewrite (num_cmp_antisym x y).
    destruct (num_cmp x y) as [[| |]|]; simpl; congruence. }
  assert (S : forall s t, String.ltb s t = true -> String.ltb t s = false).
  { intros s t. unfold String.ltb. rewrite (String.compare_antisym t s).
    destruct (String.compare s t); simpl; congruence. }
  destruct a as [|x|x|x|x], b as [|y|y|y|y]; simpl; try discriminate;
    intros H; injection H as H; f_equal;
    first [apply (N _ _ H) | apply (S _ _ H)].
Qed.

Lemma py_lt_irrefl (a : value) : py_lt a a <> Ok true.
Proof. intros H. pose proof (py_lt_asym a a H). congruence. Qed.

(* ===================================================================== *)
(** ** The stable sort *)
(* ===================================================================== *)

Section SortBy.
Context {A : Type} (key : A -> value).

Lemma insert_by_perm (x : A) l l' :
  insert_by key x l = Ok l' -> Permutation (x :: l) l'.
Proof.
  revert l'. induction l as [|h t IH]; simpl; intros l' H.
  - inversion H. apply Permutation_refl.
  - apply rbind_ok in H as (b & Hb & H). destruct b.
    + apply rbind_ok in H as (t' & Ht & H). inversion H; subst.
      eapply perm_trans; [apply perm_swap|]. apply perm_skip. apply IH, Ht.
    + inversion H. apply Permutation_refl.
Qed.

Lemma sort_by_perm l l' : sort_by key l = Ok l' -> Permutation l l'.
Proof.
  revert l'. induction l as [|x l IH]; simpl; intros l' H.
  - inversion H. constructor.
  - apply rbind_ok in H as (s & Hs & H).
    eapply perm_trans; [apply perm_skip, IH, Hs|]. apply insert_by_perm, H.
Qed.

Lemma insert_by_hd (x a : A) l l' :
  insert_by key x l = Ok l' ->
  HdRel (not_after key) a l -> not_after key a x -> HdRel (not_after key) a l'.
Proof.
  destruct l as [|h t]; simpl; intros H Hl Hx.
  - inversion H. constructor. assumption.
  - apply rbind_ok in H as (b & Hb & H). destruct b.
    + apply rbind_ok in H as (t' & Ht & H). inversion H; subst.
      constructor. inversion Hl; assumption.
    + inversion H. constructor. assumption.
Qed.

Lemma insert_by_sorted (x : A) l l' :
  Sorted (not_after key) l -> insert_by key x l = Ok l' -> Sorted (not_after key) l'.
Proof.
  revert l'. induction l as [|h t IH]; simpl; intros l' Hs H.
  - inversion H. repeat constructor.
  - apply rbind_ok in H as (b & Hb & H). destruct b.
    + apply rbind_ok in H as (t' & Ht & H). inversion H; subst.
      inversion Hs; subst. constructor.
      * apply IH; assumption.
      * eapply insert_by_hd; eauto. apply py_lt_asym, Hb.
    + inversion H; subst. constructor; [assumption|]. constructor. exact Hb.
Qed.

Lemma sort_by_sorted l l' : sort_by key l = Ok l' -> Sorted (not_after key) l'.
Proof.
  revert l'. induction l as [|x l IH]; simpl; intros l' H.
  - inversion H. constructor.
  - apply rbind_ok in H as (s & Hs & H).
    exact (insert_by_sorted x s l' (IH s Hs) H).
Qed.

(** Stability: elements none of which sorts before another keep their
    relative order. *)
Lemma insert_by_filter (p : A -> bool) (x : A) l l' :
  (forall h, In h l -> p h = true -> p x = true ->
             py_lt (key h) (key x) <> Ok true) ->
  insert_by key x l = Ok l' -> filter p l' = filter p (x :: l).
Proof.
  revert l'. induction l as [|h t IH]; simpl; intros l' Hp H.
  - inversion H. reflexivity.
  - apply rbind_ok in H as (b & Hb & H). destruct b.
    + apply rbind_ok in H as (t' & Ht & H). inversion H; subst. simpl.
      rewrite (IH t') by auto. simpl.
      destruct (p h) eqn:Eh, (p x) eqn:Ex; try reflexivity.
      exfalso. apply (Hp h); auto.
    + inversion H. reflexivity.
Qed.

Lemma sort_by_filter (p : A -> bool) l l' :
  (forall a b, In a l -> In b l -> p a = true -> p b = true ->
               py_lt (key a) (key b) <> Ok true) ->
  sort_by key l = Ok l' -> filter p l' = filter p l.
Proof.
  revert l'. induction l as [|x l IH]; simpl; intros l' Hp H.
  - inversion H. reflexivity.
  - apply rbind_ok in H as (s & Hs & H).
    assert (Hin : forall h, In h s -> In h l).
    { intros h Hh. eapply Permutation_in; [|exact Hh].
      apply Permutation_sym, sort_by_perm, Hs. }
    assert (Hx : forall h, In h s -> p h = true -> p x = true ->
                           py_lt (key h) (key x) <> Ok true).
    { intros h Hh. apply Hp; [right; apply Hin, Hh | left; reflexivity]. }
    assert (Hl : forall a b, In a l -> In b l -> p a = true -> p b = true ->
                             py_lt (key a) (key b) <> Ok true).
    { intros a b Ha Hb. apply Hp; right; assumption. }
    rewrite (insert_by_filter p x s l' Hx H). simpl.
    rewrite (IH s Hl Hs). reflexivity.
Qed.

End SortBy.

Lemma sort_by_timestamp_stable (t : value) (l l' : list event_view) :
  sort_by timestamp l = Ok l' -> filter (at_time t) l' = filter (at_time t) l.
Proof.
  apply sort_by_filter. intros a b _ _ Ha Hb. unfold at_time in *.
  destruct (value_eq_dec (timestamp a) t); [|discriminate].
  destruct (value_eq_dec (timestamp b) t); [|discriminate].
  rewrite e, e0. apply py_lt_irrefl.
Qed.

(* ===================================================================== *)
(** ** What a journey is made of *)
(* ===================================================================== *)

(** Take a returning bind apart, the read-only side conditions solved by
    [ro]. *)
Ltac run_inv H :=
  repeat (apply run_bind_ok in H; [destruct H as (? & ? & H) | solve [ro]]).

Lemma extract_session_ok (n : string) (G : Graph) (j : journey) :
  run (extract_session n) G = Ok j ->
  exists d succs collected,
    run (node_attrs n) G = Ok d
    /\ run (successors n) G = Ok succs
    /\ run (for_each succs collect_event []) G = Ok collected
    /\ sort_by timestamp collected = Ok (events j)
    /\ event_count j = len (events j)
    /\ session_id j = get d "session_id"
    /\ start_time j = get d "start_time".
Proof.
  intros H. unfold extract_session in H. run_inv H.
  rewrite run_lift in *. inversion H; subst; simpl.
  eauto 12.
Qed.

Lemma extract_user_journeys_ok (uid : value) (k : Z) (G : Graph) js :
  run (extract_user_journeys uid k) G = Ok js ->
  Forall (fun j => exists n, run (extract_session n) G = Ok j) js.
Proof.
  intros H. unfold extract_user_journeys in H.
  apply run_bind_ok in H as (present & _ & H); [|solve [ro]].
  destruct present; simpl in H.
  - run_inv H. apply run_mapM_ok in H; [|intros; auto with ro].
    clear - H. induction H; constructor; eauto.
  - inversion H. constructor.
Qed.

(* ===================================================================== *)
(** ** The events of a session *)
(* ===================================================================== *)

Lemma find_node_In (ns : list (string * attrs)) n d :
  find_node ns n = Some d -> In (n, d) ns.
Proof.
  induction ns as [|[n' d'] ns IH]; simpl; [discriminate|].
  destruct (String.eqb_spec n' n) as [->|_].
  - intros H. injection H as <-. auto.
  - auto.
Qed.

Lemma collect_products_ok (G : Graph) (succs : list string) :
  forall acc ps,
    run (for_each succs
           (fun product_node products =>
              let* is_product := node_has_type "Product" product_node in
              if is_product then
                let* product_data := node_attrs product_node in
                ret (Continue (products +++ [product_data]))
              else ret (Continue products))
           acc) G = Ok ps ->
    exists product_nodes found,
      run (filterM (node_has_type "Product") succs) G = Ok product_nodes
      /\ Forall2 (fun p a => run (node_attrs p) G = Ok a) product_nodes found
      /\ ps = acc +++ found.
Proof.
  induction succs as [|x succs IH]; intros acc ps H; cbn [for_each] in H.
  - rewrite run_ret in H. injection H as <-.
    exists [], []. rewrite app_nil_r. repeat split. constructor.
  - apply run_bind_ok in H as (c & Hc & H); [|solve [ro]].
    apply run_bind_ok in Hc as (b & Hb & Hc); [|solve [ro]].
    cbn [filterM]. rewrite run_bind by auto with ro. rewrite Hb.
    rewrite run_bind by (apply ro_filterM; intros; auto with ro).
    destruct b.
    + apply run_bind_ok in Hc as (d & Hd & Hc); [|solve [ro]].
      rewrite run_ret in Hc. injection Hc as <-.
      destruct (IH _ _ H) as (pn & found & -> & Hf & ->).
      exists (x :: pn), (d :: found). rewrite <- app_assoc.
      repeat split. constructor; assumption.
    + rewrite run_ret in Hc. injection Hc as <-.
      destruct (IH _ _ H) as (pn & found & -> & Hf & ->).
      exists pn, found. repeat split. assumption.
Qed.

Lemma collect_events_ok (G : Graph) (succs : list string) :
  forall acc collected,
    run (for_each succs collect_event acc) G = Ok collected ->
    exists event_nodes found,
      run (filterM (node_has_type "Event") succs) G = Ok event_nodes
      /\ Forall2 (views G) event_nodes found
      /\ collected = acc +++ found.
Proof.
  induction succs as [|x succs IH]; intros acc collected H; cbn [for_each] in H.
  - rewrite run_ret in H. injection H as <-.
    exists [], []. rewrite app_nil_r. repeat split. constructor.
  - apply run_bind_ok in H as (c & Hc & H); [|solve [ro]].
    unfold collect_event in Hc.
    apply run_bind_ok in Hc as (b & Hb & Hc); [|solve [ro]].
    cbn [filterM]. rewrite run_bind by auto with ro. rewrite Hb.
    rewrite run_bind by (apply ro_filterM; intros; auto with ro).
    destruct b; cbn [negb] in Hc.
    + apply run_bind_ok in Hc as (d & Hd & Hc); [|solve [ro]].
      apply run_bind_ok in Hc as (ss & Hss & Hc); [|solve [ro]].
      apply run_bind_ok in Hc as (ps & Hps & Hc); [|solve [ro]].
      rewrite run_ret in Hc. injection Hc as <-.
      apply collect_products_ok in Hps as (pn & pf & Hpn & Hpf & ->).
      destruct (IH _ _ H) as (en & found & -> & Hf & ->).
      eexists (x :: en), (_ :: found). rewrite <- app_assoc.
      split; [reflexivity|]. split; [|reflexivity].
      constructor; [|assumption].
      exists d, ss, pn. cbn. repeat split; assumption.
    + rewrite run_ret in Hc. injection Hc as <-.
      destruct (IH _ _ H) as (en & found & -> & Hf & ->).
      exists en, found. repeat split. assumption.
Qed.

(** A returned journey is made of the views of the session's [Event]
    successors, sorted. *)
Lemma extract_session_views (n : string) (G : Graph) (j : journey) :
  run (extract_session n) G = Ok j ->
  exists succs event_nodes collected,
    run (successors n) G = Ok succs
    /\ run (for_each succs collect_event []) G = Ok collected
    /\ run (filterM (node_has_type "Event") succs) G = Ok event_nodes
    /\ Forall2 (views G) event_nodes collected
    /\ sort_by timestamp collected = Ok (events j)
    /\ event_count j = len (events j)
    /\ event_count j = len event_nodes.
Proof.
  intros H. apply extract_session_ok in H
    as (d & succs & collected & _ & Hs & Hc & Hsort & Hlen & _).
  destruct (collect_events_ok G succs [] collected Hc) as (en & found & He & Hv & E).
  simpl in E. subst found.
  exists succs, en, collected. repeat split; try assumption.
  rewrite Hlen. unfold len. f_equal.
  rewrite <- (Permutation_length (sort_by_perm timestamp _ _ Hsort)).
  symmetry. exact (Forall2_length Hv).
Qed.

Lemma views_timestamp (G : Graph) (n : string) (e : event_view) :
  no_nan_timestamps G = true -> views G n e -> is_nan_value (timestamp e) = false.
Proof.
  intros Hg (d & succs & pn & Hd & _ & _ & Ht & _).
  unfold run, node_attrs in Hd. simpl in Hd.
  destruct (find_node (g_nodes G) n) as [d'|] eqn:F; [|discriminate].
  injection Hd as ->. apply find_node_In in F.
  unfold no_nan_timestamps in Hg. rewrite forallb_forall in Hg.
  specialize (Hg _ F). simpl in Hg. rewrite Ht.
  apply negb_true_iff in Hg. exact Hg.
Qed.

(* ===================================================================== *)
(** ** Event order within a journey *)
(* ===================================================================== *)

(** C2, as the code has it. On a graph without NaN timestamps, the events
    of every journey returned by [extract_user_journeys] are those
    collected from the session's successors, sorted by timestamp: no event
    sorts before its predecessor. The sort is stable and looks at the
    timestamp only: any group of events none of which sorts before another
    (events with the same timestamp, or with timestamps that compare equal
    such as [1] and [1.0]) stays in the order in which the session's
    successors are iterated; the event id plays no part. *)
Theorem journey_events_sorted_stably (G : Graph) (uid : value) (k : Z) js :
  no_nan_timestamps G = true ->
  run (extract_user_journeys uid k) G = Ok js ->
  Forall
    (fun j =>
       Sorted (not_after timestamp) (events j)
       /\ Forall (fun e => is_nan_value (timestamp e) = false) (events j)
       /\ exists session_node succs collected,
           run (successors session_node) G = Ok succs
           /\ run (for_each succs collect_event []) G = Ok collected
           /\ Permutation collected (events j)
           /\ (forall t, filter (at_time t) (events j) = filter (at_time t) collected)
           /\ (forall group : event_view -> bool,
                  (forall a b, In a collected -> In b collected ->
                               group a = true -> group b = true ->
                               py_lt (timestamp a) (timestamp b) <> Ok true) ->
                  filter group (events j) = filter group collected))
    js.
Proof.
  intros Hnan H. apply extract_user_journeys_ok in H.
  eapply Forall_impl; [|exact H]. intros j (n & Hj).
  apply extract_session_views in Hj
    as (succs & event_nodes & collected & Hs & Hc & _ & Hv & Hsort & _).
  pose proof (sort_by_perm timestamp _ _ Hsort) as Hperm.
  split; [eapply sort_by_sorted; eassumption|]. split.
  { eapply Permutation_Forall; [exact Hperm|].
    clear - Hnan Hv. induction Hv; constructor; [|assumption].
    eapply views_timestamp; eassumption. }
  exists n, succs, collected. repeat split; try assumption.
  - intros t. eapply sort_by_timestamp_stable; eassumption.
  - intros group Hg. eapply sort_by_filter; eassumption.
Qed.

Lemma journey_events_sorted_stably_witness :
  exists js,
    run (extract_user_journeys (VInt 7) 10) tie_graph = Ok js
    /\ map (fun j => map event_id (events j)) js = [[VInt 2; VInt 1]]
    /\ Forall
         (fun j =>
            Sorted (not_after timestamp) (events j)
            /\ Forall (fun e => is_nan_value (timestamp e) = false) (events j)
            /\ exists session_node succs collected,
                run (successors session_node) tie_graph = Ok succs
                /\ run (for_each succs collect_event []) tie_graph = Ok collected
                /\ Permutation collected (events j)
                /\ (forall t, filter (at_time t) (events j)
                              = filter (at_time t) collected)
                /\ (forall group : event_view -> bool,
                       (forall a b, In a collected -> In b collected ->
                                    group a = true -> group b = true ->
                                    py_lt (timestamp a) (timestamp b) <> Ok true) ->
                       filter group (events j) = filter group collected))
         js.
Proof.
  eexists. split; [vm_compute; reflexivity|]. split; [reflexivity|].
  apply (journey_events_sorted_stably tie_graph (VInt 7) 10);
    vm_compute; reflexivity.
Defined.

(** C2 as stated fails: on [tie_graph] the journey lists event 2 before
    event 1 although their timestamps are equal. *)
Lemma ties_are_not_broken_by_event_id :
  ~ (forall G uid k js,
        run (extract_user_journeys uid k) G = Ok js ->
        Forall (fun j => Sorted by_time_then_id (events j)) js).
Proof.
  intros C.
  assert (H : exists js, run (extract_user_journeys (VInt 7) 10) tie_graph = Ok js
                         /\ map (fun j => map event_id (events j)) js
                            = [[VInt 2; VInt 1]]
                         /\ map (fun j => map timestamp (events j)) js
                            = [[VStr "2026-01-01T09:00:00"; VStr "2026-01-01T09:00:00"]]).
  { eexists. split; [vm_compute; reflexivity|]. split; reflexivity. }
  destruct H as (js & Hrun & Hid & Hts).
  specialize (C _ _ _ _ Hrun).
  destruct js as [|j [|? ?]]; try discriminate.
  inversion C as [|? ? Hj _]; subst. simpl in Hid, Hts.
  injection Hid as Hid. injection Hts as Hts.
  destruct (events j) as [|a [|b [|? ?]]]; try discriminate.
  simpl in Hid, Hts. injection Hid as Ha Hb. injection Hts as Ta Tb.
  inversion Hj as [|? ? _ Hhd]; subst. inversion Hhd as [|? ? Hab]; subst.
  destruct Hab as [Hlt | [_ Hlt]].
  - rewrite Ta, Tb in Hlt. vm_compute in Hlt. discriminate.
  - rewrite Ha, Hb in Hlt. vm_compute in Hlt. discriminate.
Qed.

(* ===================================================================== *)
(** ** The stored [event_count] of a session *)
(* ===================================================================== *)

Lemma lookup_dict_set_other (k k' : string) (v : value) (d : attrs) :
  k <> k' -> lookup (dict_set k v d) k' = lookup d k'.
Proof.
  intros Hk. induction d as [|[k0 v0] d IH]; simpl.
  - destruct (String.eqb_spec k k'); [contradiction | reflexivity].
  - destruct (String.eqb_spec k0 k) as [->|Hne]; simpl.
    + destruct (String.eqb_spec k k'); [contradiction | reflexivity].
    + rewrite IH. reflexivity.
Qed.

Lemma get_restamp (v : value) (d : attrs) (k : string) :
  k <> "event_count" -> get (restamp_attrs v d) k = get d k.
Proof.
  intros Hk. unfold restamp_attrs, get.
  destruct (has_type d "Session"); [|reflexivity].
  rewrite lookup_dict_set_other by congruence. reflexivity.
Qed.

Lemma has_type_restamp (v : value) (d : attrs) (ty : string) :
  has_type (restamp_attrs v d) ty = has_type d ty.
Proof. unfold has_type. rewrite get_restamp by discriminate. reflexivity. Qed.

Lemma has_type_unique (d : attrs) (ty ty' : string) :
  has_type d ty = true -> ty <> ty' -> has_type d ty' = false.
Proof.
  unfold has_type. destruct (get d "node_type") as [|b|z|f|s]; simpl;
    try discriminate.
  intros H Hne. apply String.eqb_eq in H. subst.
  apply String.eqb_neq. assumption.
Qed.

Lemma restamp_attrs_other (v : value) (d : attrs) (ty : string) :
  has_type d ty = true -> ty <> "Session" -> restamp_attrs v d = d.
Proof.
  intros H Hne. unfold restamp_attrs.
  rewrite (has_type_unique d ty "Session" H Hne). reflexivity.
Qed.

Lemma find_node_restamp (f : string -> value) (G : Graph) (n : string) :
  find_node (g_nodes (restamp f G)) n
  = option_map (restamp_attrs (f n)) (find_node (g_nodes G) n).
Proof.
  unfold restamp; simpl. induction (g_nodes G) as [|[n' d] ns IH]; simpl.
  - reflexivity.
  - destruct (String.eqb_spec n' n) as [->|_]; [reflexivity | apply IH].
Qed.

Lemma mem_node_restamp (f : string -> value) (G : Graph) (n : string) :
  mem_node (restamp f G) n = mem_node G n.
Proof.
  unfold mem_node. rewrite find_node_restamp.
  destruct (find_node (g_nodes G) n); reflexivity.
Qed.

Section Restamp.
Variable f : string -> value.
Variable G : Graph.

Lemma run_has_node_restamp n :
  run (has_node n) (restamp f G) = run (has_node n) G.
Proof. unfold run, has_node; simpl. rewrite mem_node_restamp. reflexivity. Qed.

Lemma run_successors_restamp n :
  run (successors n) (restamp f G) = run (successors n) G.
Proof. unfold run, successors; simpl. rewrite mem_node_restamp. reflexivity. Qed.

Lemma run_node_has_type (ty n : string) (H : Graph) :
  run (node_has_type ty n) H
  = match find_node (g_nodes H) n with
    | Some d => Ok (has_type d ty)
    | None => Err KeyError
    end.
Proof.
  unfold run, node_has_type, bind, node_attrs.
  destruct (find_node (g_nodes H) n); reflexivity.
Qed.

Lemma run_node_has_type_restamp ty n :
  run (node_has_type ty n) (restamp f G) = run (node_has_type ty n) G.
Proof.
  rewrite !run_node_has_type, find_node_restamp.
  destruct (find_node (g_nodes G) n); simpl; [|reflexivity].
  rewrite has_type_restamp. reflexivity.
Qed.

(** The attributes of a node that is not a session are read unchanged. *)
Lemma run_node_attrs_restamp ty n :
  run (node_has_type ty n) G = Ok true -> ty <> "Session" ->
  run (node_attrs n) (restamp f G) = run (node_attrs n) G.
Proof.
  rewrite run_node_has_type. unfold run, node_attrs; cbn [fst].
  rewrite find_node_restamp.
  destruct (find_node (g_nodes G) n) as [d|]; simpl; [|reflexivity].
  intros H Hne. injection H as H. rewrite (restamp_attrs_other _ d ty H Hne).
  reflexivity.
Qed.

Lemma run_for_each_ext {A S} (b1 b2 : A -> S -> M (ctl S)) (G1 G2 : Graph) :
  (forall x s, read_only (b1 x s)) ->
  (forall x s, read_only (b2 x s)) ->
  (forall x s, run (b1 x s) G1 = run (b2 x s) G2) ->
  forall l s, run (for_each l b1 s) G1 = run (for_each l b2 s) G2.
Proof.
  intros R1 R2 E l. induction l as [|x l IH]; intros s; simpl.
  - reflexivity.
  - rewrite !run_bind by auto. rewrite E.
    destruct (run (b2 x s) G2) as [[s'|s']|e]; [apply IH | reflexivity | reflexivity].
Qed.

Lemma run_mapM_ext {A B} (f1 f2 : A -> M B) (G1 G2 : Graph) :
  (forall x, read_only (f1 x)) ->
  (forall x, read_only (f2 x)) ->
  (forall x, run (f1 x) G1 = run (f2 x) G2) ->
  forall l, run (mapM f1 l) G1 = run (mapM f2 l) G2.
Proof.
  intros R1 R2 E l. induction l as [|x l IH]; simpl.
  - reflexivity.
  - rewrite !run_bind by auto using ro_mapM. rewrite E.
    destruct (run (f2 x) G2); [|reflexivity].
    rewrite !run_bind by auto using ro_mapM. rewrite IH. reflexivity.
Qed.

Lemma run_filterM_ext {A} (p1 p2 : A -> M bool) (G1 G2 : Graph) :
  (forall x, read_only (p1 x)) ->
  (forall x, read_only (p2 x)) ->
  (forall x, run (p1 x) G1 = run (p2 x) G2) ->
  forall l, run (filterM p1 l) G1 = run (filterM p2 l) G2.
Proof.
  intros R1 R2 E l. induction l as [|x l IH]; simpl.
  - reflexivity.
  - rewrite !run_bind by auto using ro_filterM. rewrite E.
    destruct (run (p2 x) G2); [|reflexivity].
    rewrite !run_bind by auto using ro_filterM. rewrite IH. reflexivity.
Qed.

Lemma run_collect_event_restamp n evs :
  run (collect_event n evs) (restamp f G) = run (collect_event n evs) G.
Proof.
  unfold collect_event. rewrite !run_bind by ro.
  rewrite run_node_has_type_restamp.
  destruct (run (node_has_type "Event" n) G) as [[|]|e] eqn:E; simpl;
    try reflexivity.
  rewrite !run_bind by ro.
  rewrite (run_node_attrs_restamp "Event" n E) by discriminate.
  destruct (run (node_attrs n) G) as [event_data|e]; [|reflexivity].
  rewrite !run_bind by ro. rewrite run_successors_restamp.
  destruct (run (successors n) G) as [succs|e]; [|reflexivity].
  rewrite !run_bind by ro.
  match goal with
  | |- context [run (for_each succs ?b []) (restamp f G)] =>
      rewrite (run_for_each_ext b b (restamp f G) G)
  end.
  - destruct (run (for_each succs _ []) G); reflexivity.
  - intros; ro.
  - intros; ro.
  - intros p ps. rewrite !run_bind by ro.
    rewrite run_node_has_type_restamp.
    destruct (run (node_has_type "Product" p) G) as [[|]|e] eqn:P; simpl;
      try reflexivity.
    rewrite !run_bind by ro.
    rewrite (run_node_attrs_restamp "Product" p P) by discriminate.
    reflexivity.
Qed.

Lemma run_extract_session_restamp n :
  run (extract_session n) (restamp f G) = run (extract_session n) G.
Proof.
  unfold extract_session. rewrite !run_bind by ro.
  unfold run at 1 3, node_attrs; cbn [fst]. rewrite find_node_restamp.
  destruct (find_node (g_nodes G) n) as [d|]; simpl; [|reflexivity].
  rewrite !run_bind by ro. rewrite run_successors_restamp.
  destruct (run (successors n) G) as [succs|e]; [|reflexivity].
  rewrite !run_bind by ro.
  rewrite (run_for_each_ext collect_event collect_event (restamp f G) G)
    by (auto using run_collect_event_restamp with ro).
  destruct (run (for_each succs collect_event []) G) as [collected|e];
    [|reflexivity].
  rewrite !run_bind by ro. rewrite !run_lift.
  destruct (sort_by timestamp collected); [|reflexivity].
  rewrite !run_ret, !get_restamp by discriminate. reflexivity.
Qed.

Lemma run_extract_user_journeys_restamp uid k :
  run (extract_user_journeys uid k) (restamp f G)
  = run (extract_user_journeys uid k) G.
Proof.
  unfold extract_user_journeys. rewrite !run_bind by ro.
  rewrite run_has_node_restamp.
  destruct (run (has_node (user_node_of uid)) G) as [[|]|e]; simpl;
    try reflexivity.
  rewrite !run_bind by ro. rewrite run_successors_restamp.
  destruct (run (successors (user_node_of uid)) G) as [succs|e]; [|reflexivity].
  rewrite !run_bind by ro.
  rewrite (run_filterM_ext (node_has_type "Session") (node_has_type "Session")
                           (restamp f G) G)
    by (auto using run_node_has_type_restamp with ro).
  destruct (run (filterM (node_has_type "Session") succs) G) as [sessions|e];
    [|reflexivity].
  apply run_mapM_ext; auto using run_extract_session_restamp with ro.
Qed.

End Restamp.

(** C10. In every journey returned by [extract_user_journeys] the [events]
    list is made of the views of the [Event]-typed successors of the
    session node, one each, and [event_count] is the length of that list,
    that is, the number of those successors; and whatever [event_count]
    the [Session] nodes themselves store, the call returns the same. *)
Theorem event_count_is_recomputed (G : Graph) (uid : value) (k : Z) :
  (forall js,
      run (extract_user_journeys uid k) G = Ok js ->
      Forall
        (fun j =>
           event_count j = len (events j)
           /\ exists session_node succs event_nodes collected,
               run (successors session_node) G = Ok succs
               /\ run (filterM (node_has_type "Event") succs) G = Ok event_nodes
               /\ Forall2 (views G) event_nodes collected
               /\ Permutation collected (events j)
               /\ event_count j = len event_nodes)
        js)
  /\ (forall f : string -> value,
         run (extract_user_journeys uid k) (restamp f G)
         = run (extract_user_journeys uid k) G).
Proof.
  split.
  - intros js H. apply extract_user_journeys_ok in H.
    eapply Forall_impl; [|exact H]. intros j (n & Hj).
    apply extract_session_views in Hj
      as (succs & event_nodes & collected & Hs & _ & He & Hv & Hsort & Hlen & Hn).
    split; [exact Hlen|].
    exists n, succs, event_nodes, collected. repeat split; try assumption.
    eapply sort_by_perm; eassumption.
  - intros f. apply run_extract_user_journeys_restamp.
Qed.

Lemma event_count_is_recomputed_witness :
  exists js,
    run (extract_user_journeys (VInt 1) 10)
        (restamp (fun _ => VInt 99) sample_graph) = Ok js
    /\ Forall
         (fun j =>
            event_count j = len (events j)
            /\ exists session_node succs event_nodes collected,
                run (successors session_node) sample_graph = Ok succs
                /\ run (filterM (node_has_type "Event") succs) sample_graph
                   = Ok event_nodes
                /\ Forall2 (views sample_graph) event_nodes collected
                /\ Permutation collected (events j)
                /\ event_count j = len event_nodes)
         js
    /\ map event_count js = [3].
Proof.
  destruct (event_count_is_recomputed sample_graph (VInt 1) 10) as [Hlen Hsame].
  eexists. split; [rewrite Hsame; vm_compute; reflexivity|].
  split; [apply Hlen; vm_compute; reflexivity | reflexivity].
Defined.

(* ===================================================================== *)
(** ** Sessions by outcome *)
(* ===================================================================== *)

(** A loop invariant with a separate condition for the state a [break]
    leaves, the body seeing only elements of the list. *)
Lemma for_each_invariant_break {A S} (I J : S -> Prop)
    (body : A -> S -> M (ctl S)) G l :
  (forall x s, read_only (body x s)) ->
  (forall x s c, In x l -> I s -> run (body x s) G = Ok c ->
                 match c with Continue s' => I s' | Break s' => J s' end) ->
  forall s s', I s -> run (for_each l body s) G = Ok s' -> I s' \/ J s'.
Proof.
  intros Hro. induction l as [|x l IH]; simpl; intros Hstep s s' Hs H.
  - inversion H; subst; auto.
  - apply run_bind_ok in H as (c & Hc & H); [|apply Hro].
    pose proof (Hstep x s c (or_introl eq_refl) Hs Hc) as Hc'.
    destruct c as [s1|s1].
    + apply (IH (fun y t c' Hy => Hstep y t c' (or_intror Hy)) s1 s' Hc' H).
    + inversion H; subst; auto.
Qed.

Lemma len_app_one {A} (l : list A) (x : A) : len (l +++ [x]) = len l + 1.
Proof. unfold len. rewrite length_app. simpl. lia. Qed.

(** With a limit of at least one the result is as C6 says. *)
Lemma find_sessions_by_outcome_positive_limit (G : Graph) (outcome : string)
    (limit : Z) (sessions : list string) :
  1 <= limit ->
  run (find_sessions_by_outcome outcome limit) G = Ok sessions ->
  len sessions <= limit /\ Forall (owns_terminal G outcome) sessions.
Proof.
  intros Hlim H. unfold find_sessions_by_outcome in H.
  apply run_bind_ok in H as (nodes & Hn & H); [|solve [ro]].
  inversion Hn; subst nodes; clear Hn.
  apply (for_each_invariant_break
           (fun s => len s < limit /\ Forall (owns_terminal G outcome) s)
           (fun s => len s <= limit /\ Forall (owns_terminal G outcome) s))
    in H.
  - destruct H as [[? ?]|[? ?]]; split; auto; lia.
  - intros; ro.
  - intros [event data] s c Hin [Hlen Hall] Hc.
    destruct (has_type data "Event") eqn:Ty; simpl in Hc;
      [|inversion Hc; subst; auto].
    destruct (py_eqb (get data "event_type") (VStr outcome)) eqn:Ev; simpl in Hc;
      [|inversion Hc; subst; auto].
    apply run_bind_ok in Hc as (succs & Hsuccs & Hc); [|solve [ro]].
    apply run_bind_ok in Hc as (has_next & Hnext & Hc); [|solve [ro]].
    apply run_bind_ok in Hc as (s1 & Hs1 & Hc); [|solve [ro]].
    assert (Hs1' : len s1 <= limit /\ Forall (owns_terminal G outcome) s1).
    { destruct has_next; simpl in Hs1.
      - inversion Hs1; subst. split; [lia | assumption].
      - apply run_bind_ok in Hs1 as (preds & Hpreds & Hs1); [|solve [ro]].
        apply run_bind_ok in Hs1 as (owner & Howner & Hs1); [|solve [ro]].
        destruct owner as [pred|]; inversion Hs1; subst.
        + split; [rewrite len_app_one; lia|].
          apply Forall_app. split; [assumption|]. constructor; [|constructor].
          exists event, data, succs, preds. repeat split; assumption.
        + split; [lia | assumption]. }
    destruct (limit <=? len s1) eqn:L; inversion Hc; subst.
    + assumption.
    + apply Z.leb_gt in L. split; [assumption | apply Hs1'].
  - split; [unfold len; simpl; lia | constructor].
Qed.

(** C6 at a limit of zero: the limit is tested only after a session has
    been appended, so one session comes back although none may. *)
Example find_sessions_by_outcome_limit_zero :
  run (find_sessions_by_outcome "exit" 0) churned_user_graph = Ok ["session_2"].
Proof. vm_compute. reflexivity. Qed.

(* ===================================================================== *)
(** ** Backward walks *)
(* ===================================================================== *)

Lemma ro_traced {S} (visit : string -> S -> M S) n st :
  (forall n s, read_only (visit n s)) -> read_only (traced visit n st).
Proof. intros Hv. unfold traced. ro. Qed.

Lemma ro_walk_step {S} (visit : string -> S -> M S) i st :
  (forall n s, read_only (visit n s)) -> read_only (walk_step visit i st).
Proof. intros Hv. unfold walk_step. ro. Qed.

Lemma run_walk_step {S} (visit : string -> S -> M S) G i current s :
  (forall n s, read_only (visit n s)) ->
  run (walk_step visit i (current, s)) G
  = match run (previous_event current) G with
    | Ok None => Ok (Break (current, s))
    | Ok (Some prev) =>
        if String.eqb prev "" then Ok (Break (current, s))
        else match run (visit prev s) G with
             | Ok s1 => Ok (Continue (prev, s1))
             | Err e => Err e
             end
    | Err e => Err e
    end.
Proof.
  intros Hv. unfold walk_step. rewrite run_bind by auto with ro.
  destruct (run (previous_event current) G) as [[prev|]|e]; try reflexivity.
  destruct (String.eqb prev ""); [reflexivity|].
  rewrite run_bind by auto. destruct (run (visit prev s) G); reflexivity.
Qed.

Lemma run_traced {S} (visit : string -> S -> M S) G n s trail :
  (forall n s, read_only (visit n s)) ->
  run (traced visit n (s, trail)) G
  = match run (visit n s) G with
    | Ok s1 => Ok (s1, trail +++ [n])
    | Err e => Err e
    end.
Proof.
  intros Hv. unfold traced. rewrite run_bind by auto. cbn [fst snd].
  destruct (run (visit n s) G); reflexivity.
Qed.

Section Walk.
Context {S : Type} (visit : string -> S -> M S) (G : Graph).
Hypothesis visit_ro : forall n s, read_only (visit n s).

(** A quantity every visit advances by [d]. *)
Variable count : S -> Z.
Variable d : Z.
Hypothesis visit_counts :
  forall n s s', run (visit n s) G = Ok s' -> count s' = count s + d.

(** The traced loop computes what the plain loop computes, and its record
    is a [NEXT] chain no longer than the loop's range. *)
Lemma walk_loop_traced (l : list nat) :
  forall (current : string) (s : S) (trail : list string),
    match run (for_each l (walk_step (traced visit)) (current, (s, trail))) G with
    | Ok (_, (s', trail')) =>
        exists last hops,
          run (for_each l (walk_step visit) (current, s)) G = Ok (last, s')
          /\ trail' = trail +++ hops
          /\ (List.length hops <= List.length l)%nat
          /\ next_chain G current hops
          /\ count s' = count s + d * Z.of_nat (List.length hops)
    | Err e => run (for_each l (walk_step visit) (current, s)) G = Err e
    end.
Proof.
  induction l as [|i l IH]; intros current s trail.
  - simpl. exists current, []. rewrite app_nil_r. simpl.
    repeat split; [lia | lia].
  - cbn [for_each].
    rewrite !run_bind by (apply ro_walk_step; auto using ro_traced).
    rewrite !run_walk_step by auto using ro_traced.
    destruct (run (previous_event current) G) as [[prev|]|e] eqn:P.
    + destruct (String.eqb prev "") eqn:Eprev.
      * simpl. exists current, []. rewrite app_nil_r. simpl.
        repeat split; [lia | lia].
      * rewrite run_traced by auto.
        destruct (run (visit prev s) G) as [s1|e] eqn:V; [|reflexivity].
        specialize (IH prev s1 (trail +++ [prev])).
        destruct (run (for_each l (walk_step (traced visit))
                                (prev, (s1, trail +++ [prev]))) G)
          as [[last [s' trail']]|e]; [|exact IH].
        destruct IH as (last' & hops & Hrun & Htr & Hlen & Hch & Hcnt).
        exists last', (prev :: hops). rewrite <- app_assoc in Htr. simpl in *.
        repeat split; try assumption; try lia.
        rewrite Hcnt, (visit_counts _ _ _ V). lia.
    + simpl. exists current, []. rewrite app_nil_r. simpl.
      repeat split; [lia | lia].
    + reflexivity.
Qed.

Lemma walk_back_traced (start : string) (s : S) :
  match run (walk_back (traced visit) start (s, [])) G with
  | Ok (s', hops) =>
      run (walk_back visit start s) G = Ok s'
      /\ (List.length hops <= 20)%nat
      /\ next_chain G start hops
      /\ count s' = count s + d * Z.of_nat (List.length hops)
  | Err e => run (walk_back visit start s) G = Err e
  end.
Proof.
  unfold walk_back.
  rewrite !run_bind
    by (apply ro_for_each; intros; apply ro_walk_step; auto using ro_traced).
  pose proof (walk_loop_traced (range 20) start s []) as H.
  destruct (run (for_each (range 20) (walk_step (traced visit)) (start, (s, []))) G)
    as [[last [s' trail']]|e].
  - destruct H as (last' & hops & Hrun & Htr & Hlen & Hch & Hcnt).
    rewrite Hrun. simpl in Htr. subst trail'. cbn [run ret fst].
    unfold range in Hlen. rewrite length_seq in Hlen. auto.
  - rewrite H. reflexivity.
Qed.

End Walk.

Lemma check_category_counts (c : string) (G : Graph) n w w' :
  run (check_category c n w) G = Ok w' -> events_count w' = events_count w + 1.
Proof.
  intros H. unfold check_category in H.
  apply run_bind_ok in H as (event_data & _ & H); [|solve [ro]].
  apply run_bind_ok in H as (succs & _ & H); [|solve [ro]].
  apply run_bind_ok in H as (hit & _ & H); [|solve [ro]].
  destruct hit; inversion H; reflexivity.
Qed.

(** C7. In both product queries a backward walk from any event makes at
    most 20 hops along [NEXT] predecessors, whatever the graph: the walk
    that records its hops returns what the walk of the module returns, and
    its record is a chain of at most 20 [NEXT] predecessors (for the exit
    analysis, as many as the events it counted). Both queries therefore
    return on a graph whose [NEXT] edges form a cycle, as on
    [cyclic_graph], where each walk stops after its 20th hop. *)
Theorem backward_walks_take_at_most_20_hops :
  (forall G start viewed,
      match run (walk_back (traced tally_viewed) start (viewed, [])) G with
      | Ok (viewed', hops) =>
          run (walk_back tally_viewed start viewed) G = Ok viewed'
          /\ (List.length hops <= 20)%nat
          /\ next_chain G start hops
      | Err e => run (walk_back tally_viewed start viewed) G = Err e
      end)
  /\ (forall G category start w,
         match run (walk_back (traced (check_category category)) start (w, [])) G with
         | Ok (w', hops) =>
             run (walk_back (check_category category) start w) G = Ok w'
             /\ (List.length hops <= 20)%nat
             /\ next_chain G start hops
             /\ events_count w' = events_count w + Z.of_nat (List.length hops)
         | Err e => run (walk_back (check_category category) start w) G = Err e
         end)
  /\ run (find_products_before_purchase None 50) cyclic_graph
     = Ok (mkPurchaseReport 1 [(VStr "Electronics", 10)] [(VStr "Test Product", 10)])
  /\ run (find_exit_points_after_category "Electronics" 50) cyclic_graph
     = Ok (mkExitReport "Electronics" 1 (NFloat (of_Z 20)) [(VStr "click", 10)]).
Proof.
  split; [|split; [|split]].
  - intros G start viewed.
    pose proof (walk_back_traced tally_viewed G ro_tally_viewed (fun _ => 0) 0
                  (fun _ _ _ _ => eq_refl) start viewed) as H.
    destruct (run (walk_back (traced tally_viewed) start (viewed, [])) G)
      as [[viewed' hops]|e]; [|exact H].
    destruct H as (H1 & H2 & H3 & _). auto.
  - intros G category start w.
    pose proof (walk_back_traced (check_category category) G
                  (ro_check_category category) events_count 1
                  (check_category_counts category G) start w) as H.
    destruct (run (walk_back (traced (check_category category)) start (w, [])) G)
      as [[w' hops]|e]; [|exact H].
    destruct H as (H1 & H2 & H3 & H4). repeat split; try assumption.
    rewrite H4. lia.
  - vm_compute. reflexivity.
  - vm_compute. reflexivity.
Qed.

(* ===================================================================== *)
(** ** Counters and rankings *)
(* ===================================================================== *)

Lemma counter_total_app {K} (a b : counter K) :
  counter_total (a +++ b) = counter_total a + counter_total b.
Proof.
  unfold counter_total. induction a as [|x a IH]; simpl; [reflexivity|].
  rewrite IH. lia.
Qed.

Lemma counter_total_perm {K} (a b : counter K) :
  Permutation a b -> counter_total a = counter_total b.
Proof.
  unfold counter_total. induction 1; simpl; lia.
Qed.

Lemma counted_total_nonneg {K} (c : counter K) : counted c -> 0 <= counter_total c.
Proof.
  unfold counter_total. induction 1 as [|x c Hx _ IH]; simpl; lia.
Qed.

Lemma counted_total_pos {K} (c : counter K) :
  counted c -> c <> [] -> 1 <= counter_total c.
Proof.
  intros H Hne. destruct H as [|x c Hx Hc]; [contradiction|].
  pose proof (counted_total_nonneg c Hc). unfold counter_total in *. simpl. lia.
Qed.

Lemma counter_incr_total {K} (eqb : K -> K -> bool) k (c : counter K) :
  counter_total (counter_incr eqb k c) = counter_total c + 1.
Proof.
  unfold counter_total. induction c as [|[k' n] c IH]; simpl; [reflexivity|].
  destruct (eqb k' k); simpl; lia.
Qed.

Lemma counter_incr_counted {K} (eqb : K -> K -> bool) k (c : counter K) :
  counted c -> counted (counter_incr eqb k c).
Proof.
  unfold counted. induction 1 as [|[k' n] c Hx Hc IH]; simpl.
  - repeat constructor. simpl. lia.
  - destruct (eqb k' k); constructor; simpl in *; auto; lia.
Qed.

Lemma counter_incr_keys (k : string) (c : counter string) :
  forall x, In x (map fst (counter_incr String.eqb k c)) -> x = k \/ In x (map fst c).
Proof.
  induction c as [|[k' n] c IH]; simpl; intros x H.
  - destruct H as [<-|[]]. auto.
  - destruct (String.eqb k' k); simpl in H.
    + destruct H as [<-|H]; auto.
    + destruct H as [<-|H]; auto. destruct (IH x H); auto.
Qed.

Lemma counter_incr_nodup (k : string) (c : counter string) :
  NoDup (map fst c) -> NoDup (map fst (counter_incr String.eqb k c)).
Proof.
  induction c as [|[k' n] c IH]; simpl; intros H.
  - repeat constructor. intros [].
  - inversion H as [|? ? Hnot Hnd]; subst.
    destruct (String.eqb_spec k' k) as [->|Hne]; simpl.
    + constructor; assumption.
    + constructor; [|apply IH; assumption].
      intros Hin. apply counter_incr_keys in Hin as [->|Hin]; auto.
Qed.

Lemma insert_desc_perm {K} (x : K * Z) l : Permutation (x :: l) (insert_desc x l).
Proof.
  induction l as [|h t IH]; simpl; [apply Permutation_refl|].
  destruct (snd x <? snd h).
  - eapply perm_trans; [apply perm_swap|]. apply perm_skip, IH.
  - apply Permutation_refl.
Qed.

Lemma sort_desc_perm {K} (c : counter K) : Permutation c (sort_desc c).
Proof.
  unfold sort_desc. induction c as [|x c IH]; simpl; [constructor|].
  eapply perm_trans; [apply perm_skip, IH | apply insert_desc_perm].
Qed.

(** The ranking is in descending order of count. *)
Lemma insert_desc_hd {K} (a x : K * Z) l :
  HdRel (fun a b => snd b <= snd a) a l -> snd x <= snd a ->
  HdRel (fun a b => snd b <= snd a) a (insert_desc x l).
Proof.
  destruct l as [|h t]; simpl; intros Hl Hx.
  - constructor. exact Hx.
  - destruct (snd x <? snd h); constructor; [inversion Hl; assumption | exact Hx].
Qed.

Lemma insert_desc_sorted {K} (x : K * Z) l :
  Sorted (fun a b => snd b <= snd a) l ->
  Sorted (fun a b => snd b <= snd a) (insert_desc x l).
Proof.
  induction l as [|h t IH]; simpl; intros Hs.
  - repeat constructor.
  - destruct (snd x <? snd h) eqn:E.
    + apply Z.ltb_lt in E. inversion Hs as [|? ? Ht Hhd]; subst.
      constructor; [apply IH, Ht|]. apply insert_desc_hd; [assumption | lia].
    + apply Z.ltb_ge in E. constructor; [assumption|]. constructor. exact E.
Qed.

Lemma sort_desc_sorted {K} (c : counter K) :
  Sorted (fun a b => snd b <= snd a) (sort_desc c).
Proof.
  unfold sort_desc. induction c as [|x c IH]; simpl;
    [constructor | apply insert_desc_sorted, IH].
Qed.

(** What [most_common n] leaves out counts, too. *)
Lemma most_common_total {K} (n : nat) (c : counter K) :
  counted c ->
  counter_total (most_common n c) <= counter_total c
  /\ ((List.length c <= n)%nat -> counter_total (most_common n c) = counter_total c)
  /\ ((n < List.length c)%nat -> counter_total (most_common n c) < counter_total c).
Proof.
  intros Hc. unfold most_common.
  pose proof (sort_desc_perm c) as P.
  rewrite (counter_total_perm _ _ P), (Permutation_length P).
  assert (Hs : counted (sort_desc c))
    by (unfold counted; eapply Permutation_Forall; eassumption).
  set (l := sort_desc c) in *. clearbody l. clear P Hc c.
  assert (E : counter_total l
              = counter_total (firstn n l) + counter_total (skipn n l))
    by (rewrite <- counter_total_app, firstn_skipn; reflexivity).
  assert (Hk : counted (skipn n l)).
  { unfold counted in *. rewrite <- (firstn_skipn n l) in Hs.
    apply Forall_app in Hs. apply Hs. }
  pose proof (counted_total_nonneg _ Hk). repeat split.
  - lia.
  - intros Hlen. rewrite skipn_all2 in E by assumption.
    unfold counter_total at 3 in E. simpl in E. lia.
  - intros Hlen. assert (Hne : skipn n l <> []).
    { intros E'. apply (f_equal (@List.length _)) in E'.
      rewrite length_skipn in E'. simpl in E'. lia. }
    pose proof (counted_total_pos _ Hk Hne). lia.
Qed.

(* ===================================================================== *)
(** ** Common patterns *)
(* ===================================================================== *)

Lemma tally_patterns_ok (G : Graph) filter limit pc tallied :
  run (tally_patterns filter limit) G = Ok (pc, tallied) -> tally_ok (pc, tallied).
Proof.
  intros H. unfold tally_patterns in H.
  apply run_bind_ok in H as (nodes & _ & H); [|solve [ro]].
  revert H. apply (for_each_invariant tally_ok).
  - intros; ro.
  - intros [n data] [pc0 sa0] c Hst Hc.
    destruct (has_type data "User"); simpl in Hc; [|inversion Hc; assumption].
    destruct (rejects filter data); [inversion Hc; assumption|].
    apply run_bind_ok in Hc as (journeys & _ & Hc); [|solve [ro]].
    apply run_bind_ok in Hc as ([pc1 sa1] & Hin & Hc); [|solve [ro]].
    assert (H1 : tally_ok (pc1, sa1)).
    { revert Hin. apply (for_each_invariant tally_ok); [intros; ro | | exact Hst].
      intros j [pc2 sa2] c2 (Hcnt & Hnd & Htot) Hc2. simpl in *.
      destruct (limit <=? sa2); [inversion Hc2; repeat split; assumption|].
      apply run_bind_ok in Hc2 as (pattern & _ & Hc2); [|solve [ro]].
      inversion Hc2; subst. repeat split; simpl.
      - apply counter_incr_counted, Hcnt.
      - apply counter_incr_nodup, Hnd.
      - rewrite counter_incr_total. reflexivity. }
    destruct (limit <=? sa1); inversion Hc; assumption.
  - repeat split; simpl; constructor.
Qed.

Lemma rmap_fst {A B C} (f : A * B -> result C) (l : list (A * B))
    (rs : list (A * B * C)) :
  rmap (fun '(a, b) => let? c := f (a, b) in Ok (a, b, c)) l = Ok rs ->
  map fst rs = l /\ Forall (fun r => f (fst r) = Ok (snd r)) rs.
Proof.
  revert rs. induction l as [|[a b] l IH]; simpl; intros rs H.
  - inversion H. split; constructor.
  - apply rbind_ok in H as (r & Hr & H). apply rbind_ok in Hr as (c & Hc & Hr).
    apply rbind_ok in H as (rs' & Hrs & H). inversion Hr; inversion H; subst.
    destruct (IH rs' Hrs) as [Hm Hf]. simpl. split; [f_equal; assumption|].
    constructor; assumption.
Qed.

(** The users the filter lets through are the only ones scanned. *)
Lemma tally_patterns_no_match (G : Graph) filter limit :
  (forall n d, In (n, d) (g_nodes G) -> has_type d "User" = true ->
               rejects filter d = true) ->
  run (tally_patterns filter limit) G = Ok ([], 0).
Proof.
  intros H. unfold run, tally_patterns, bind, nodes_data.
  rewrite for_each_skip; [reflexivity|].
  intros [n d] Hin. destruct (has_type d "User") eqn:U; [|reflexivity].
  simpl. rewrite (H n d Hin U). reflexivity.
Qed.

(* ===================================================================== *)
(** ** Rounding errors of the percentage arithmetic *)
(* ===================================================================== *)

(** The float operations are those of [SpecFloat]; what follows bounds
    the error of the three the percentages go through (the quotient of two
    integers, the product with 100, the running sum) on the values that
    occur there, all between 0 and 127. *)

Lemma bpow_pos (e : Z) : (0 < bpow e)%R.
Proof. apply powerRZ_lt. lra. Qed.

Lemma bpow_add (a b : Z) : bpow (a + b) = (bpow a * bpow b)%R.
Proof. apply powerRZ_add. lra. Qed.

Lemma bpow_IZR (n : Z) : 0 <= n -> IZR (2 ^ n) = bpow n.
Proof.
  intros H. rewrite <- (Z2Nat.id n H). unfold bpow.
  rewrite <- pow_powerRZ, <- pow_IZR. reflexivity.
Qed.

Lemma bpow_ge_1 (n : Z) : 0 <= n -> (1 <= bpow n)%R.
Proof.
  intros H. rewrite <- (bpow_IZR n H). apply IZR_le.
  pose proof (Z.pow_pos_nonneg 2 n ltac:(lia) H). lia.
Qed.

Lemma bpow_le (a b : Z) : a <= b -> (bpow a <= bpow b)%R.
Proof.
  intros H. replace b with (a + (b - a)) by lia. rewrite bpow_add.
  pose proof (bpow_pos a). pose proof (bpow_ge_1 (b - a) ltac:(lia)). nra.
Qed.

Lemma bpow_lt_inv (a b : Z) : (bpow a < bpow b)%R -> a < b.
Proof.
  intros H. destruct (Z.lt_ge_cases a b) as [|Hge]; [assumption|].
  pose proof (bpow_le b a Hge). lra.
Qed.

Lemma bpow_0 : bpow 0 = 1%R.
Proof. reflexivity. Qed.

Lemma digits2_bounds (p : positive) :
  2 ^ (Zpos (digits2_pos p) - 1) <= Zpos p < 2 ^ Zpos (digits2_pos p).
Proof.
  induction p as [p IH|p IH|]; cbn [digits2_pos].
  - rewrite Pos2Z.inj_succ. change (Zpos p~1) with (2 * Zpos p + 1).
    replace (Z.succ (Zpos (digits2_pos p)) - 1) with (Z.succ (Zpos (digits2_pos p) - 1))
      by lia.
    rewrite !Z.pow_succ_r by lia.
    generalize dependent (2 ^ (Zpos (digits2_pos p) - 1)).
    generalize (2 ^ Zpos (digits2_pos p)). intros b a IH. lia.
  - rewrite Pos2Z.inj_succ. change (Zpos p~0) with (2 * Zpos p).
    replace (Z.succ (Zpos (digits2_pos p)) - 1) with (Z.succ (Zpos (digits2_pos p) - 1))
      by lia.
    rewrite !Z.pow_succ_r by lia.
    generalize dependent (2 ^ (Zpos (digits2_pos p) - 1)).
    generalize (2 ^ Zpos (digits2_pos p)). intros b a IH. lia.
  - simpl. lia.
Qed.

Lemma shr_1_m (mrs : shr_record) :
  0 <= shr_m mrs -> shr_m (shr_1 mrs) = shr_m mrs / 2 /\ 0 <= shr_m (shr_1 mrs).
Proof.
  destruct mrs as [m r s]. simpl. intros H.
  destruct m as [|p|p]; [split; reflexivity| |lia].
  destruct p as [p|p|]; simpl.
  - change (Zpos p~1) with (2 * Zpos p + 1). split; [|lia].
    apply Z.div_unique with (r := 1); lia.
  - change (Zpos p~0) with (2 * Zpos p). split; [|lia].
    apply Z.div_unique with (r := 0); lia.
  - split; [reflexivity | lia].
Qed.

Lemma iter_shr_m (n : positive) :
  forall mrs, 0 <= shr_m mrs ->
              shr_m (SpecFloat.iter_pos shr_1 n mrs) = shr_m mrs / 2 ^ Zpos n
              /\ 0 <= shr_m (SpecFloat.iter_pos shr_1 n mrs).
Proof.
  induction n as [n IH|n IH|]; intros mrs H; cbn [SpecFloat.iter_pos].
  - destruct (shr_1_m mrs H) as [E1 P1].
    destruct (IH _ P1) as [E2 P2]. destruct (IH _ P2) as [E3 P3].
    split; [|exact P3]. rewrite E3, E2, E1.
    change (Zpos n~1) with (2 * Zpos n + 1).
    replace (2 * Zpos n + 1) with (1 + Zpos n + Zpos n) by lia.
    rewrite !Z.pow_add_r by lia. rewrite Z.pow_1_r.
    rewrite !Z.div_div by (try apply Z.pow_pos_nonneg; lia).
    f_equal. lia.
  - destruct (IH _ H) as [E2 P2]. destruct (IH _ P2) as [E3 P3].
    split; [|exact P3]. rewrite E3, E2.
    change (Zpos n~0) with (2 * Zpos n).
    replace (2 * Zpos n) with (Zpos n + Zpos n) by lia.
    rewrite !Z.pow_add_r by lia.
    rewrite !Z.div_div by (try apply Z.pow_pos_nonneg; lia).
    reflexivity.
  - destruct (shr_1_m mrs H) as [E1 P1]. split; [|exact P1].
    rewrite E1. reflexivity.
Qed.

Lemma shr_record_m (m : Z) (l : location) : shr_m (shr_record_of_loc m l) = m.
Proof. destruct l as [|[| |]]; reflexivity. Qed.

Lemma shr_fexp_spec (m e : Z) (l : location) :
  0 <= m ->
  exists mrs,
    shr_fexp prec emax m e l = (mrs, Z.max e (fexp prec emax (Zdigits2 m + e)))
    /\ shr_m mrs = m / 2 ^ (Z.max e (fexp prec emax (Zdigits2 m + e)) - e)
    /\ 0 <= shr_m mrs.
Proof.
  intros Hm. unfold shr_fexp, shr.
  destruct (fexp prec emax (Zdigits2 m + e) - e) as [|p|p] eqn:N.
  - exists (shr_record_of_loc m l). rewrite shr_record_m.
    replace (Z.max e (fexp prec emax (Zdigits2 m + e))) with e by lia.
    rewrite Z.sub_diag, Z.pow_0_r, Z.div_1_r. auto.
  - destruct (iter_shr_m p (shr_record_of_loc m l)) as [E P];
      [rewrite shr_record_m; exact Hm|].
    exists (SpecFloat.iter_pos shr_1 p (shr_record_of_loc m l)).
    replace (Z.max e (fexp prec emax (Zdigits2 m + e))) with (e + Zpos p) by lia.
    rewrite shr_record_m in E. rewrite E in P |- *.
    replace (e + Zpos p - e) with (Zpos p) by lia. auto.
  - exists (shr_record_of_loc m l). rewrite shr_record_m.
    replace (Z.max e (fexp prec emax (Zdigits2 m + e))) with e by lia.
    rewrite Z.sub_diag, Z.pow_0_r, Z.div_1_r. auto.
Qed.

Lemma round_nearest_even_cases (m : Z) (l : location) :
  round_nearest_even m l = m \/ round_nearest_even m l = m + 1.
Proof. destruct l as [|[| |]]; simpl; try destruct (Z.even m); auto. Qed.

(** Truncating [m] to a multiple of [2^n] loses less than [2^n]. *)
Lemma div_pow_R (m e n : Z) :
  0 <= m -> 0 <= n ->
  (IZR (m / 2 ^ n) * bpow (e + n) <= IZR m * bpow e
   < (IZR (m / 2 ^ n) + 1) * bpow (e + n))%R.
Proof.
  intros Hm Hn.
  assert (P : 0 < 2 ^ n) by (apply Z.pow_pos_nonneg; lia).
  pose proof (Z.mul_div_le m (2 ^ n) P) as L.
  pose proof (Z.mul_succ_div_gt m (2 ^ n) P) as U.
  apply IZR_le in L. apply IZR_lt in U.
  rewrite mult_IZR in L, U. unfold Z.succ in U. rewrite plus_IZR in U.
  rewrite (bpow_IZR n Hn) in L, U. rewrite bpow_add.
  pose proof (bpow_pos e). nra.
Qed.

Lemma fexp_small (x : Z) : x <= 7 -> fexp prec emax x <= -46.
Proof. unfold fexp, emin, prec, emax. lia. Qed.

Lemma fexp_ge (x : Z) : x - 53 <= fexp prec emax x.
Proof. unfold fexp, emin, prec, emax. lia. Qed.

(** A value below [2^k] has at most [k - e] binary digits. *)
Lemma digits_le (m e k : Z) :
  0 <= m -> e <= k -> (IZR m * bpow e < bpow k)%R -> Zdigits2 m + e <= k.
Proof.
  intros Hm He H. destruct m as [|p|p]; [cbn [Zdigits2]; lia| |lia].
  cbn [Zdigits2]. pose proof (digits2_bounds p) as [L _].
  apply IZR_le in L. rewrite bpow_IZR in L by lia.
  assert (B : (bpow (Zpos (digits2_pos p) - 1 + e) < bpow k)%R).
  { rewrite bpow_add. pose proof (bpow_pos e). nra. }
  apply bpow_lt_inv in B. lia.
Qed.

Lemma bpow_7 : bpow 7 = 128%R.
Proof. unfold bpow. simpl. lra. Qed.

Lemma bpow_m43 : (bpow (-43) * 8796093022208 = 1)%R.
Proof.
  change 8796093022208%R with (IZR (2 ^ 43)). rewrite bpow_IZR by lia.
  rewrite <- bpow_add. reflexivity.
Qed.

Lemma bpow_m45 : (4 * bpow (-45) = bpow (-43))%R.
Proof.
  replace (-43) with (2 + -45) by lia. rewrite bpow_add.
  replace (bpow 2) with 4%R by (unfold bpow; simpl; lra). reflexivity.
Qed.

(** Rounding a value of at most 127 given in units of at most [2^-45]
    moves it by at most [2^-43] and leaves a small float. *)
Lemma round_aux_coarse (mx ex : Z) (lx : location) :
  0 <= mx -> ex <= -45 -> (IZR mx * bpow ex <= 127)%R ->
  small_float (binary_round_aux prec emax false mx ex lx)
  /\ (IZR mx * bpow ex - bpow (-43)
      <= float_value (binary_round_aux prec emax false mx ex lx)
      <= IZR mx * bpow ex + bpow (-43))%R.
Proof.
  intros Hm He HV.
  pose proof bpow_7 as B7. pose proof bpow_m43 as U. pose proof bpow_m45 as U45.
  assert (D1 : Zdigits2 mx + ex <= 7).
  { apply digits_le; [assumption | lia | lra]. }
  pose proof (fexp_small _ D1) as F1.
  destruct (shr_fexp_spec mx ex lx Hm) as (mrs1 & S1 & M1 & P1).
  set (E1 := Z.max ex (fexp prec emax (Zdigits2 mx + ex))) in *.
  assert (HE1 : ex <= E1 <= -45) by (unfold E1; lia).
  pose proof (div_pow_R mx ex (E1 - ex) Hm ltac:(lia)) as [L1 U1].
  replace (ex + (E1 - ex)) with E1 in L1, U1 by lia. rewrite <- M1 in L1, U1.
  set (m1 := round_nearest_even (shr_m mrs1) (loc_of_shr_record mrs1)).
  assert (Hm1 : m1 = shr_m mrs1 \/ m1 = shr_m mrs1 + 1)
    by apply round_nearest_even_cases.
  assert (Pm1 : 0 <= m1) by lia.
  pose proof (bpow_le E1 (-45) ltac:(lia)) as BE1.
  pose proof (bpow_pos E1) as PE1.
  assert (V1 : (IZR mx * bpow ex - bpow E1 <= IZR m1 * bpow E1
                <= IZR mx * bpow ex + bpow E1)%R).
  { destruct Hm1 as [-> | ->]; [|rewrite plus_IZR]; nra. }
  assert (D2 : Zdigits2 m1 + E1 <= 7).
  { apply digits_le; [assumption | lia | lra]. }
  pose proof (fexp_small _ D2) as F2.
  destruct (shr_fexp_spec m1 E1 loc_Exact Pm1) as (mrs2 & S2 & M2 & P2).
  set (E2 := Z.max E1 (fexp prec emax (Zdigits2 m1 + E1))) in *.
  assert (HE2 : E1 <= E2 <= -45) by (unfold E2; lia).
  pose proof (div_pow_R m1 E1 (E2 - E1) Pm1 ltac:(lia)) as [L2 U2].
  replace (E1 + (E2 - E1)) with E2 in L2, U2 by lia. rewrite <- M2 in L2, U2.
  pose proof (bpow_le E2 (-45) ltac:(lia)) as BE2.
  pose proof (bpow_pos E2) as PE2.
  unfold binary_round_aux. rewrite S1. fold m1. rewrite S2.
  destruct (shr_m mrs2) as [|m|m] eqn:R2; [| |lia].
  - split; [left; reflexivity|]. simpl. simpl in L2, U2. lra.
  - assert (Hle : (E2 <=? emax - prec) = true)
      by (apply Z.leb_le; unfold emax, prec; lia).
    rewrite Hle. split; [right; exists m, E2; split; [reflexivity | lia]|].
    simpl. lra.
Qed.

Lemma small_float_value (f : float) : small_float f -> (0 <= float_value f)%R.
Proof.
  intros [->|(m & e & -> & _)]; simpl; [lra|].
  pose proof (bpow_pos e). pose proof (IZR_lt 0 (Zpos m) ltac:(lia)). nra.
Qed.

(** *** Multiplication by 100 *)

Lemma of_Z_100 : of_Z 100 = S754_finite false 7036874417766400 (-46).
Proof. reflexivity. Qed.

Lemma hundred_value : (IZR 7036874417766400 * bpow (-46) = 100)%R.
Proof.
  change 7036874417766400 with (100 * 2 ^ 46). rewrite mult_IZR.
  rewrite bpow_IZR by lia. rewrite Rmult_assoc, <- bpow_add. simpl. lra.
Qed.

Lemma times_100 (q : float) :
  small_float q -> (float_value q <= 1 + bpow (-40))%R ->
  small_float (fmul q (of_Z 100))
  /\ (100 * float_value q - bpow (-43)
      <= float_value (fmul q (of_Z 100))
      <= 100 * float_value q + bpow (-43))%R.
Proof.
  intros Hq Hle. rewrite of_Z_100. pose proof (bpow_pos (-43)).
  destruct Hq as [->|(m & e & -> & He)].
  - simpl. split; [left; reflexivity | lra].
  - unfold fmul. cbn [SFmul xorb].
    assert (V : (IZR (Zpos (m * 7036874417766400)) * bpow (e + -46)
                 = 100 * float_value (S754_finite false m e))%R).
    { rewrite Pos2Z.inj_mul, mult_IZR, bpow_add. cbn [float_value].
      pose proof hundred_value. nra. }
    assert (B40 : (bpow (-40) <= 1 / 8)%R).
    { pose proof bpow_m43 as U. replace (-40) with (3 + -43) by lia.
      rewrite bpow_add. replace (bpow 3) with 8%R by (unfold bpow; simpl; lra).
      lra. }
    destruct (round_aux_coarse (Zpos (m * 7036874417766400)) (e + -46) loc_Exact)
      as [S B]; [lia | lia | rewrite V; lra|].
    rewrite V in B. split; assumption.
Qed.

(** *** The quotient of two integers *)

Lemma digits_mono (c T : positive) :
  Zpos c <= Zpos T -> Zpos (digits2_pos c) <= Zpos (digits2_pos T).
Proof.
  intros H. pose proof (digits2_bounds c) as [L _].
  pose proof (digits2_bounds T) as [_ U].
  assert (P : 2 ^ (Zpos (digits2_pos c) - 1) < 2 ^ Zpos (digits2_pos T)) by lia.
  apply Z.pow_lt_mono_r_iff in P; lia.
Qed.

Lemma ratio_bound (c T : Z) :
  0 < c -> c <= T ->
  small_float (of_ratio c T)
  /\ (IZR c / IZR T - bpow (-42) <= float_value (of_ratio c T)
      <= IZR c / IZR T + bpow (-42))%R.
Proof.
  intros Hc HcT. destruct c as [|c|c]; try lia. destruct T as [|T|T]; try lia.
  unfold of_ratio, fdiv, raw. cbn [SFdiv xorb]. unfold SFdiv_core_binary.
  cbn [Zdigits2]. rewrite !Z.add_0_r, Z.sub_diag.
  pose proof (digits_mono c T HcT) as Hd.
  set (e' := Z.min (fexp prec emax (Zpos (digits2_pos c) - Zpos (digits2_pos T))) 0).
  assert (He' : e' <= -53).
  { unfold e', fexp, emin, prec, emax. lia. }
  replace (0 - e') with (- e') by lia.
  destruct (- e') as [|s|s] eqn:S; try lia.
  rewrite Z.shiftl_mul_pow2 by lia.
  pose proof (Z.div_eucl_eq (Zpos c * 2 ^ Zpos s) (Zpos T) ltac:(lia)) as Eq.
  pose proof (Z.mod_pos_bound (Zpos c * 2 ^ Zpos s) (Zpos T) ltac:(lia)) as Rb.
  unfold Z.modulo in Rb.
  destruct (Z.div_eucl (Zpos c * 2 ^ Zpos s) (Zpos T)) as [q r].
  assert (P2 : 0 < 2 ^ Zpos s) by (apply Z.pow_pos_nonneg; lia).
  assert (Hq : 0 <= q) by nia.
  pose proof (IZR_lt 0 (Zpos T) ltac:(lia)) as PT.
  pose proof (IZR_lt 0 (Zpos c) ltac:(lia)) as PC.
  pose proof (IZR_le _ _ HcT) as CT.
  assert (Hs : (bpow (Zpos s) * bpow e' = 1)%R).
  { rewrite <- bpow_add. replace (Zpos s + e') with 0 by lia. reflexivity. }
  assert (EqR : (IZR (Zpos c) * bpow (Zpos s) = IZR (Zpos T) * IZR q + IZR r)%R).
  { rewrite <- (bpow_IZR (Zpos s)) by lia.
    rewrite <- mult_IZR, <- mult_IZR, <- plus_IZR. f_equal. exact Eq. }
  assert (R0 : (0 <= IZR r < IZR (Zpos T))%R).
  { split; [apply IZR_le | apply IZR_lt]; lia. }
  pose proof (bpow_pos e') as Pe. pose proof (bpow_pos (Zpos s)) as Ps.
  pose proof (bpow_le e' (-53) He') as B53.
  pose proof bpow_m43 as U.
  assert (B53' : (bpow (-53) <= bpow (-43))%R) by (apply bpow_le; lia).
  assert (B42 : (bpow (-42) = 2 * bpow (-43))%R).
  { replace (-42) with (1 + -43) by lia. rewrite bpow_add.
    replace (bpow 1) with 2%R by (unfold bpow; simpl; lra). reflexivity. }
  set (x := (IZR (Zpos c) / IZR (Zpos T))%R).
  assert (Hx : (x * IZR (Zpos T) = IZR (Zpos c))%R) by (unfold x; field; lra).
  assert (X1 : (0 <= x <= 1)%R).
  { split; [unfold x; apply Rlt_le, Rdiv_lt_0_compat; lra|].
    apply Rmult_le_reg_r with (IZR (Zpos T)); lra. }
  assert (V : (IZR q * bpow e' <= x < IZR q * bpow e' + bpow e')%R).
  { assert (A : (x * IZR (Zpos T) * bpow (Zpos s)
                 = (IZR q * IZR (Zpos T) + IZR r))%R) by (rewrite Hx; lra).
    split.
    - apply Rmult_le_reg_r with (IZR (Zpos T) * bpow (Zpos s))%R; [nra|].
      replace (IZR q * bpow e' * (IZR (Zpos T) * bpow (Zpos s)))%R
        with (IZR q * IZR (Zpos T) * (bpow (Zpos s) * bpow e'))%R by ring.
      replace (x * (IZR (Zpos T) * bpow (Zpos s)))%R
        with (x * IZR (Zpos T) * bpow (Zpos s))%R by ring.
      rewrite Hs, A. lra.
    - apply Rmult_lt_reg_r with (IZR (Zpos T) * bpow (Zpos s))%R; [nra|].
      replace ((IZR q * bpow e' + bpow e') * (IZR (Zpos T) * bpow (Zpos s)))%R
        with ((IZR q + 1) * IZR (Zpos T) * (bpow (Zpos s) * bpow e'))%R by ring.
      replace (x * (IZR (Zpos T) * bpow (Zpos s)))%R
        with (x * IZR (Zpos T) * bpow (Zpos s))%R by ring.
      rewrite Hs, A. lra. }
  destruct (round_aux_coarse q e' (new_location (Zpos T) r)) as [Sm B];
    [assumption | lia | lra|].
  split; [exact Sm|]. fold x. lra.
Qed.

(** *** Addition *)

Lemma iter_xO (m d : positive) : Zpos (Pos.iter xO m d) = Zpos m * 2 ^ Zpos d.
Proof.
  induction d as [|d IH] using Pos.peano_ind.
  - simpl. lia.
  - rewrite Pos.iter_succ. change (Zpos (Pos.iter xO m d)~0)
      with (2 * Zpos (Pos.iter xO m d)).
    rewrite IH, Pos2Z.inj_succ, Z.pow_succ_r by lia. lia.
Qed.

(** Aligning a mantissa to a smaller exponent keeps the value. *)
Lemma shl_align_spec (m : positive) (e e' : Z) :
  snd (shl_align m e e') = Z.min e e'
  /\ (IZR (Zpos (fst (shl_align m e e'))) * bpow (Z.min e e')
      = IZR (Zpos m) * bpow e)%R.
Proof.
  unfold shl_align. destruct (e' - e) as [|d|d] eqn:D; cbn [fst snd].
  - replace (Z.min e e') with e by lia. auto.
  - replace (Z.min e e') with e by lia. auto.
  - replace (Z.min e e') with e' by lia. split; [reflexivity|].
    rewrite iter_xO, mult_IZR, bpow_IZR by lia.
    rewrite Rmult_assoc, <- bpow_add. replace (Zpos d + e') with e by lia.
    reflexivity.
Qed.

Lemma fadd_bound (a b : float) :
  small_float a -> small_float b ->
  (float_value a + float_value b <= 127)%R ->
  small_float (fadd a b)
  /\ (float_value a + float_value b - bpow (-43)
      <= float_value (fadd a b)
      <= float_value a + float_value b + bpow (-43))%R.
Proof.
  intros Ha Hb Hle. pose proof (bpow_pos (-43)).
  destruct Ha as [->|(m1 & e1 & -> & He1)], Hb as [->|(m2 & e2 & -> & He2)].
  - simpl. split; [left; reflexivity | lra].
  - unfold fadd. cbn [SFadd]. split; [right; eauto|]. simpl. lra.
  - unfold fadd. cbn [SFadd]. split; [right; eauto|]. simpl. lra.
  - unfold fadd. cbn [SFadd cond_Zopp].
    destruct (shl_align_spec m1 e1 (Z.min e1 e2)) as [_ V1].
    destruct (shl_align_spec m2 e2 (Z.min e1 e2)) as [_ V2].
    replace (Z.min e1 (Z.min e1 e2)) with (Z.min e1 e2) in V1 by lia.
    replace (Z.min e2 (Z.min e1 e2)) with (Z.min e1 e2) in V2 by lia.
    set (a1 := fst (shl_align m1 e1 (Z.min e1 e2))) in *.
    set (a2 := fst (shl_align m2 e2 (Z.min e1 e2))) in *.
    set (ez := Z.min e1 e2) in *.
    change (Zpos a1 + Zpos a2) with (Zpos (a1 + a2)).
    cbn [binary_normalize]. unfold binary_round.
    destruct (shl_align_spec (a1 + a2) ez
                (fexp prec emax (Zpos (digits2_pos (a1 + a2)) + ez))) as [E V].
    destruct (shl_align (a1 + a2) ez
                (fexp prec emax (Zpos (digits2_pos (a1 + a2)) + ez))) as [mz ez2].
    cbn [fst snd] in E, V.
    assert (S : (IZR (Zpos mz) * bpow ez2
                 = float_value (S754_finite false m1 e1)
                   + float_value (S754_finite false m2 e2))%R).
    { subst ez2. rewrite V. rewrite Pos2Z.inj_add, plus_IZR.
      cbn [float_value]. lra. }
    destruct (round_aux_coarse (Zpos mz) ez2 loc_Exact) as [Sm B];
      [lia | lia | rewrite S; exact Hle|].
    rewrite S in B. split; assumption.
Qed.

(** *** One percentage *)

Lemma percentage_bound (c T : Z) (n : number) :
  0 < T -> 1 <= c <= T -> percentage c T = Ok n ->
  exists p, n = NFloat p
            /\ small_float p
            /\ (100 * IZR c / IZR T - 202 * bpow (-43)
                <= float_value p
                <= 100 * IZR c / IZR T + 202 * bpow (-43))%R.
Proof.
  intros HT Hc H. unfold percentage in H.
  destruct (Z.ltb_spec 0 T); [|lia].
  unfold py_truediv in H. destruct (Z.eqb_spec T 0); [lia|].
  destruct (ratio_bound c T ltac:(lia) ltac:(lia)) as [Sq Bq].
  assert (Hinf : is_inf (of_ratio c T) = false).
  { destruct Sq as [->|(m & e & -> & _)]; reflexivity. }
  rewrite Hinf in H. simpl in H. unfold to_float in H. simpl in H.
  injection H as <-.
  pose proof bpow_m43 as U.
  assert (B42 : (bpow (-42) = 2 * bpow (-43))%R).
  { replace (-42) with (1 + -43) by lia. rewrite bpow_add.
    replace (bpow 1) with 2%R by (unfold bpow; simpl; lra). reflexivity. }
  assert (B40 : (bpow (-40) = 8 * bpow (-43))%R).
  { replace (-40) with (3 + -43) by lia. rewrite bpow_add.
    replace (bpow 3) with 8%R by (unfold bpow; simpl; lra). reflexivity. }
  assert (X1 : (0 <= IZR c / IZR T <= 1)%R).
  { pose proof (IZR_lt 0 T HT). pose proof (IZR_le 1 c ltac:(lia)).
    pose proof (IZR_le c T ltac:(lia)).
    split; [apply Rlt_le, Rdiv_lt_0_compat; lra|].
    apply Rmult_le_reg_r with (IZR T); [lra|].
    replace (IZR c / IZR T * IZR T)%R with (IZR c) by (field; lra). lra. }
  destruct (times_100 (of_ratio c T) Sq) as [Sp Bp]; [lra|].
  exists (fmul (of_ratio c T) (of_Z 100)).
  split; [reflexivity|]. split; [exact Sp|].
  replace (100 * IZR c / IZR T)%R with (100 * (IZR c / IZR T))%R
    by (unfold Rdiv; ring).
  lra.
Qed.

(** *** Exact comparison *)

Lemma cmp_dyadic_spec (m1 e1 m2 e2 : Z) :
  match cmp_dyadic m1 e1 m2 e2 with
  | Lt => (IZR m1 * bpow e1 < IZR m2 * bpow e2)%R
  | Eq => (IZR m1 * bpow e1 = IZR m2 * bpow e2)%R
  | Gt => (IZR m1 * bpow e1 > IZR m2 * bpow e2)%R
  end.
Proof.
  unfold cmp_dyadic. set (e := Z.min e1 e2).
  assert (A : forall m e0, e <= e0 ->
                (IZR (m * 2 ^ (e0 - e)) * bpow e = IZR m * bpow e0)%R).
  { intros m e0 H. rewrite mult_IZR, bpow_IZR by lia.
    rewrite Rmult_assoc, <- bpow_add. replace (e0 - e + e) with e0 by lia.
    reflexivity. }
  pose proof (A m1 e1 ltac:(unfold e; lia)) as A1.
  pose proof (A m2 e2 ltac:(unfold e; lia)) as A2.
  pose proof (bpow_pos e) as Pe.
  destruct (Z.compare_spec (m1 * 2 ^ (e1 - e)) (m2 * 2 ^ (e2 - e))) as [C|C|C].
  - rewrite <- A1, <- A2, C. reflexivity.
  - apply IZR_lt in C. rewrite <- A1, <- A2. nra.
  - apply IZR_lt in C. rewrite <- A1, <- A2. nra.
Qed.

Lemma near_100_of_value (p : float) :
  small_float p -> (99 < float_value p < 101)%R -> near_100 (NFloat p).
Proof.
  intros [->|(m & e & -> & _)] [L U]; [simpl in L; lra|].
  cbn [float_value] in L, U. unfold near_100, num_ltb, num_cmp, cmp_Z_float.
  pose proof (cmp_dyadic_spec 99 0 (Zpos m) e) as C1.
  pose proof (cmp_dyadic_spec 101 0 (Zpos m) e) as C2.
  rewrite bpow_0 in C1, C2. split.
  - destruct (cmp_dyadic 99 0 (Zpos m) e); [lra | reflexivity | lra].
  - simpl. destruct (cmp_dyadic 101 0 (Zpos m) e); simpl; [lra | lra | reflexivity].
Qed.

(** *** The sum of a ranking's percentages *)

Lemma exact_term_nonneg (T c : Z) : 0 < T -> 1 <= c -> (0 <= 100 * IZR c / IZR T)%R.
Proof.
  intros HT Hc. pose proof (IZR_lt 0 T HT). pose proof (IZR_le 1 c Hc).
  apply Rlt_le, Rdiv_lt_0_compat; lra.
Qed.

Lemma exact_sum_nonneg (T : Z) (rs : list (string * Z * number)) :
  0 < T -> Forall (tallied_entry T) rs -> (0 <= exact_sum T rs)%R.
Proof.
  intros HT. induction 1 as [|r rs [[Hc _] _] _ IH]; simpl; [lra|].
  pose proof (exact_term_nonneg T _ HT Hc). lra.
Qed.

Lemma exact_sum_total (T : Z) (rs : list (string * Z * number)) :
  0 < T ->
  exact_sum T rs = (100 * IZR (counter_total (map fst rs)) / IZR T)%R.
Proof.
  intros HT. pose proof (IZR_lt 0 T HT).
  induction rs as [|r rs IH]; unfold counter_total in *; simpl.
  - unfold Rdiv. ring.
  - rewrite IH, plus_IZR. field. lra.
Qed.

Lemma py_add_float (a : number) (s p : float) :
  to_float a = Ok s -> py_add a (NFloat p) = Ok (NFloat (fadd s p)).
Proof.
  intros H. unfold py_add. destruct a; cbv beta iota; rewrite H; reflexivity.
Qed.

Lemma percent_sum_from (T : Z) (rs : list (string * Z * number)) :
  0 < T ->
  Forall (tallied_entry T) rs ->
  forall (a : number) (s : float) (X err : R),
    to_float a = Ok s -> small_float s ->
    (0 <= X)%R -> (0 <= err)%R ->
    (X - err <= float_value s <= X + err)%R ->
    (X + exact_sum T rs <= 100)%R ->
    (err + INR (List.length rs) * (203 * bpow (-43)) <= 1)%R ->
    exists y s',
      fold_left (fun acc r => let? a := acc in py_add a (snd r)) rs (Ok a) = Ok y
      /\ to_float y = Ok s'
      /\ (rs <> [] -> y = NFloat s')
      /\ small_float s'
      /\ (X + exact_sum T rs - (err + INR (List.length rs) * (203 * bpow (-43)))
          <= float_value s'
          <= X + exact_sum T rs + (err + INR (List.length rs) * (203 * bpow (-43))))%R.
Proof.
  intros HT Hall. pose proof (bpow_pos (-43)) as Pu.
  induction Hall as [|r rs Hr Hrs IH]; intros a s X err Ha Hs HX Herr Hv Hsum Hbud.
  - exists a, s. simpl. repeat split; try assumption; try lra. congruence.
  - destruct Hr as [Hc Hp].
    destruct (percentage_bound _ _ _ HT Hc Hp) as (p & Ep & Sp & Bp).
    pose proof (exact_term_nonneg T _ HT (proj1 Hc)) as Hx.
    pose proof (exact_sum_nonneg T rs HT Hrs) as Hrest.
    change (List.length (r :: rs)) with (S (List.length rs)) in *.
    rewrite S_INR in *. pose proof (pos_INR (List.length rs)) as Hn.
    cbn [exact_sum] in *.
    set (x := (100 * IZR (snd (fst r)) / IZR T)%R) in *.
    destruct (fadd_bound s p Hs Sp) as [Sa Ba]; [nra|].
    cbn [fold_left]. unfold rbind at 2. rewrite Ep, (py_add_float a s p Ha).
    destruct (IH (NFloat (fadd s p)) (fadd s p) (X + x)%R
                 (err + 203 * bpow (-43))%R)
      as (y & s' & Hy & Hty & Hne & Ss' & Bs'); try assumption; try lra; try nra.
    + reflexivity.
    + exists y, s'. split; [exact Hy|]. split; [exact Hty|]. split.
      * intros _. destruct rs as [|r' rs']; [|apply Hne; discriminate].
        simpl in Hy. injection Hy as <-. simpl in Hty. injection Hty as <-.
        reflexivity.
      * split; [exact Ss'|]. lra.
Qed.

(** With all tallied sessions among the at most ten entries, the float sum
    of the percentages is 100 up to [2030 * 2^-43]. *)
Lemma percent_sum_close (T : Z) (rs : list (string * Z * number)) :
  0 < T ->
  Forall (tallied_entry T) rs ->
  counter_total (map fst rs) = T ->
  (List.length rs <= 10)%nat ->
  exists p,
    percent_sum rs = Ok (NFloat p)
    /\ (100 - 2030 * bpow (-43) <= float_value p <= 100 + 2030 * bpow (-43))%R
    /\ near_100 (NFloat p).
Proof.
  intros HT Hall Htot Hlen. pose proof bpow_m43 as U. pose proof (bpow_pos (-43)).
  pose proof (IZR_lt 0 T HT) as PT.
  assert (E : exact_sum T rs = 100%R).
  { rewrite (exact_sum_total T rs HT), Htot. field. lra. }
  assert (N : (INR (List.length rs) <= 10)%R).
  { apply le_INR in Hlen. simpl in Hlen. lra. }
  pose proof (pos_INR (List.length rs)) as N0.
  destruct (percent_sum_from T rs HT Hall (NInt 0) (S754_zero false) 0%R 0%R)
    as (y & s' & Hy & Hty & Hne & Ss' & Bs');
    try reflexivity; try (left; reflexivity); try (simpl; lra); try nra.
  assert (Hrs : rs <> []).
  { intros ->. unfold counter_total in Htot. simpl in Htot. lia. }
  rewrite (Hne Hrs) in Hy. exists s'. unfold percent_sum.
  split; [exact Hy|]. rewrite E in Bs'. split; [nra|].
  apply near_100_of_value; [exact Ss'|]. nra.
Qed.

(** The same for the sum taken in exact arithmetic, whatever the order or
    the method of the summation. *)
Lemma value_sum_close (T : Z) (rs : list (string * Z * number)) :
  0 < T ->
  Forall (tallied_entry T) rs ->
  (exact_sum T rs - INR (List.length rs) * (202 * bpow (-43))
   <= value_sum rs
   <= exact_sum T rs + INR (List.length rs) * (202 * bpow (-43)))%R.
Proof.
  intros HT. induction 1 as [|r rs [Hc Hp] _ IH].
  - simpl. lra.
  - destruct (percentage_bound _ _ _ HT Hc Hp) as (p & Ep & _ & Bp).
    change (List.length (r :: rs)) with (S (List.length rs)). rewrite S_INR.
    cbn [exact_sum value_sum]. rewrite Ep. cbn [number_value]. lra.
Qed.

Lemma in_most_common {K} (n : nat) (c : counter K) (x : K * Z) :
  In x (most_common n c) -> In x c.
Proof.
  unfold most_common. intros H.
  eapply Permutation_in; [apply Permutation_sym, sort_desc_perm|].
  revert H. generalize (sort_desc c) as l. clear c.
  induction n as [|n IH]; intros [|y l]; simpl; try contradiction.
  intros [H|H]; [left; exact H | right; apply IH, H].
Qed.

Lemma counted_le_total {K} (c : counter K) (x : K * Z) :
  counted c -> In x c -> 1 <= snd x <= counter_total c.
Proof.
  unfold counter_total. induction 1 as [|y c Hy Hc IH]; simpl; [contradiction|].
  pose proof (counted_total_nonneg c Hc) as P. unfold counter_total in P.
  intros [->|H]; [lia|]. specialize (IH H). lia.
Qed.

(** C1, as the code has it. Each returned percentage is
    [count / total * 100] up to rounding (within [202 * 2^-43] of the
    exact value), where [total] is the number of sessions tallied over all
    patterns, not only over the (at most ten) returned ones. So when at
    most ten distinct patterns were tallied, and at least one session, the
    returned counts add up to [total] and the returned percentages sum
    to 100 up to rounding: within [2020 * 2^-43] when added exactly, and
    within [2030 * 2^-43] (so between 99 and 101) when added as floats
    from left to right. With more than ten distinct patterns the returned
    counts add up to less than [total], and the percentages can fall
    short of 100. When the filter lets no user through, nothing is tallied
    and the returned list is empty. *)
Theorem common_pattern_percentages (G : Graph) (filter : option user_filter)
    (limit : Z) :
  (forall rs,
      run (find_common_patterns filter limit) G = Ok rs ->
      exists pc tallied,
        run (tally_patterns filter limit) G = Ok (pc, tallied)
        /\ NoDup (map fst pc)
        /\ counter_total pc = tallied
        /\ map fst rs = most_common 10 pc
        /\ (0 < tallied ->
            Forall (fun r =>
                      exists p,
                        snd r = NFloat p
                        /\ (100 * IZR (snd (fst r)) / IZR tallied - 202 * bpow (-43)
                            <= float_value p
                            <= 100 * IZR (snd (fst r)) / IZR tallied
                               + 202 * bpow (-43))%R)
                   rs)
        /\ (0 < tallied -> (List.length pc <= 10)%nat ->
            exists p,
              percent_sum rs = Ok (NFloat p)
              /\ (100 - 2030 * bpow (-43) <= float_value p
                  <= 100 + 2030 * bpow (-43))%R
              /\ near_100 (NFloat p))
        /\ (0 < tallied -> (List.length pc <= 10)%nat ->
            (100 - 2020 * bpow (-43) <= value_sum rs <= 100 + 2020 * bpow (-43))%R)
        /\ counter_total (map fst rs) <= tallied
        /\ ((List.length pc <= 10)%nat -> counter_total (map fst rs) = tallied)
        /\ ((10 < List.length pc)%nat -> counter_total (map fst rs) < tallied))
  /\ ((forall n d, In (n, d) (g_nodes G) -> has_type d "User" = true ->
                   rejects filter d = true) ->
      run (find_common_patterns filter limit) G = Ok []).
Proof.
  split.
  - intros rs H. unfold find_common_patterns in H.
    apply run_bind_ok in H as ([pc tallied] & Ht & H); [|solve [ro]].
    rewrite run_lift in H.
    destruct (tally_patterns_ok G filter limit pc tallied Ht) as (Hc & Hnd & Htot).
    simpl in Hc, Hnd, Htot.
    apply (rmap_fst (fun pc0 => percentage (snd pc0) (counter_total pc))) in H
      as [Hm Hf].
    destruct (most_common_total 10 pc Hc) as (H1 & H2 & H3).
    assert (Hall : Forall (tallied_entry (counter_total pc)) rs).
    { rewrite Forall_forall in Hf |- *. intros r Hr. split; [|exact (Hf r Hr)].
      apply counted_le_total; [exact Hc|].
      apply (in_most_common 10). rewrite <- Hm. apply in_map. exact Hr. }
    exists pc, tallied. rewrite Hm, <- Htot.
    split; [rewrite Htot; exact Ht|]. split; [exact Hnd|].
    split; [reflexivity|]. split; [reflexivity|]. split.
    { intros HT. eapply Forall_impl; [|exact Hall]. intros r [Hcr Hp].
      destruct (percentage_bound _ _ _ HT Hcr Hp) as (p & Ep & _ & Bp).
      exists p. split; assumption. }
    split.
    { intros HT Hlen.
      apply (percent_sum_close (counter_total pc)); try assumption.
      - rewrite Hm. apply H2, Hlen.
      - rewrite <- (length_map fst rs), Hm. unfold most_common.
        rewrite length_firstn. lia. }
    split.
    { intros HT Hlen.
      pose proof (value_sum_close (counter_total pc) rs HT Hall) as B.
      assert (E : exact_sum (counter_total pc) rs = 100%R).
      { rewrite (exact_sum_total _ rs HT), Hm, (H2 Hlen).
        pose proof (IZR_lt 0 _ HT). field. lra. }
      assert (N : (INR (List.length rs) <= 10)%R).
      { assert (L : (List.length rs <= 10)%nat).
        { rewrite <- (length_map fst rs), Hm. unfold most_common.
          rewrite length_firstn. lia. }
        apply le_INR in L. simpl in L. lra. }
      pose proof (bpow_pos (-43)). rewrite E in B. nra. }
    split; [exact H1|]. split; [exact H2 | exact H3].
  - intros Hno. unfold find_common_patterns. rewrite run_bind by ro.
    rewrite (tally_patterns_no_match G filter limit Hno). reflexivity.
Qed.

Lemma common_pattern_percentages_witness :
  (exists pc tallied,
      run (tally_patterns None 100) (distinct_patterns 3) = Ok (pc, tallied)
      /\ NoDup (map fst pc)
      /\ counter_total pc = tallied
      /\ map fst three_thirds = most_common 10 pc
      /\ (0 < tallied ->
          Forall (fun r =>
                    exists p,
                      snd r = NFloat p
                      /\ (100 * IZR (snd (fst r)) / IZR tallied - 202 * bpow (-43)
                          <= float_value p
                          <= 100 * IZR (snd (fst r)) / IZR tallied
                             + 202 * bpow (-43))%R)
                 three_thirds)
      /\ (0 < tallied -> (List.length pc <= 10)%nat ->
          exists p,
            percent_sum three_thirds = Ok (NFloat p)
            /\ (100 - 2030 * bpow (-43) <= float_value p
                <= 100 + 2030 * bpow (-43))%R
            /\ near_100 (NFloat p))
      /\ (0 < tallied -> (List.length pc <= 10)%nat ->
          (100 - 2020 * bpow (-43) <= value_sum three_thirds
           <= 100 + 2020 * bpow (-43))%R)
      /\ counter_total (map fst three_thirds) <= tallied
      /\ ((List.length pc <= 10)%nat -> counter_total (map fst three_thirds) = tallied)
      /\ ((10 < List.length pc)%nat -> counter_total (map fst three_thirds) < tallied))
  /\ run (find_common_patterns (Some [("churned", VBool true)]) 10) sample_graph
     = Ok [].
Proof.
  split.
  - apply (proj1 (common_pattern_percentages (distinct_patterns 3) None 100)
                 three_thirds).
    vm_compute. reflexivity.
  - apply (proj2 (common_pattern_percentages sample_graph
                    (Some [("churned", VBool true)]) 10)).
    intros n d Hin Hu. vm_compute in Hin.
    repeat (destruct Hin as [Hin|Hin];
            [inversion Hin; subst; vm_compute in Hu |- *; congruence|]).
    contradiction.
Defined.

(** C1 as stated fails: with eleven patterns of one session each, the ten
    returned percentages are 100/11 each and add up to less than 91. *)
Lemma top_ten_percentages_fall_short :
  ~ (forall G filter limit rs pc tallied,
        run (find_common_patterns filter limit) G = Ok rs ->
        run (tally_patterns filter limit) G = Ok (pc, tallied) ->
        0 < tallied ->
        exists x, percent_sum rs = Ok x /\ near_100 x).
Proof.
  intros C.
  assert (H : exists rs pc x,
             run (find_common_patterns None 100) (distinct_patterns 11) = Ok rs
             /\ run (tally_patterns None 100) (distinct_patterns 11) = Ok (pc, 11)
             /\ List.length pc = 11%nat
             /\ List.length rs = 10%nat
             /\ percent_sum rs = Ok x
             /\ num_ltb x (NInt 91) = true
             /\ num_ltb (NInt 99) x = false).
  { do 3 eexists. split; [vm_compute; reflexivity|].
    split; [vm_compute; reflexivity|].
    repeat split; vm_compute; reflexivity. }
  destruct H as (rs & pc & x & Hrun & Htally & _ & _ & Hsum & _ & Hlow).
  destruct (C _ _ _ _ _ _ Hrun Htally eq_refl) as (y & Hy & Hnear & _).
  rewrite Hsum in Hy. injection Hy as <-. congruence.
Qed.

(* ===================================================================== *)
(** ** Cohort deltas *)
(* ===================================================================== *)

Lemma dict_get_set_same {V} (k : string) (v : V) (d : list (string * V)) :
  dict_get (dict_set k v d) k = Some v.
Proof.
  induction d as [|[k' v'] d IH]; simpl.
  - rewrite String.eqb_refl. reflexivity.
  - destruct (String.eqb k' k) eqn:E; simpl; rewrite E; [reflexivity | exact IH].
Qed.

Lemma dict_get_set_other {V} (k k' : string) (v : V) (d : list (string * V)) :
  k <> k' -> dict_get (dict_set k v d) k' = dict_get d k'.
Proof.
  intros Hk. induction d as [|[k0 v0] d IH]; simpl.
  - destruct (String.eqb_spec k k'); [contradiction | reflexivity].
  - destruct (String.eqb_spec k0 k) as [->|Hne]; simpl.
    + destruct (String.eqb_spec k k'); [contradiction | reflexivity].
    + rewrite IH. reflexivity.
Qed.

(** The three reported averages of a cohort are roundings. *)
Lemma analyze_cohort_rounds (G : Graph) filter sample_size (A : cohort_stats) :
  run (analyze_cohort filter sample_size) G = Ok A ->
  exists events ltv rate,
    avg_events_per_session A = py_round events 2
    /\ avg_ltv A = py_round ltv 2
    /\ conversion_rate A = py_round rate 1.
Proof.
  intros H. unfold analyze_cohort in H. run_inv H.
  inversion H; subst; simpl. do 3 eexists. repeat split; reflexivity.
Qed.

(** C3, as the code has it. With distinct cohort names, the result holds
    the two cohorts' statistics and a comparison block in which each delta
    is [round(statsA.metric - statsB.metric, k)]: the difference of the two
    reported (already rounded) statistics, rounded again, with [k = 2] for
    events per session and LTV and [k = 1] for the conversion rate. *)
Theorem cohort_deltas_are_rounded_differences (G : Graph)
    (filter_a filter_b : user_filter) (name_a name_b : string) (sample_size : Z)
    (r : list (string * metrics)) :
  name_a <> name_b -> name_a <> "comparison" -> name_b <> "comparison" ->
  run (compare_cohorts filter_a filter_b name_a name_b sample_size) G = Ok r ->
  exists (A B : cohort_stats) (events ltv rate : number),
    run (analyze_cohort filter_a sample_size) G = Ok A
    /\ run (analyze_cohort filter_b sample_size) G = Ok B
    /\ dict_get r name_a = Some (stats_dict A)
    /\ dict_get r name_b = Some (stats_dict B)
    /\ py_sub (avg_events_per_session A) (avg_events_per_session B) = Ok events
    /\ py_sub (avg_ltv A) (avg_ltv B) = Ok ltv
    /\ py_sub (conversion_rate A) (conversion_rate B) = Ok rate
    /\ dict_get r "comparison"
       = Some [("events_diff", py_round events 2);
               ("ltv_diff", py_round ltv 2);
               ("conversion_diff", py_round rate 1)].
Proof.
  intros Hab Ha Hb H. unfold compare_cohorts in H.
  apply run_bind_ok in H as (A & HA & H); [|solve [ro]].
  apply run_bind_ok in H as (B & HB & H); [|solve [ro]].
  apply run_bind_ok in H as (cmp & Hcmp & H); [|solve [ro]].
  rewrite run_lift in Hcmp. unfold differences in Hcmp.
  apply rbind_ok in Hcmp as (events & Hev & Hcmp).
  apply rbind_ok in Hcmp as (ltv & Hltv & Hcmp).
  apply rbind_ok in Hcmp as (rate & Hrate & Hcmp).
  inversion Hcmp; subst cmp; clear Hcmp. inversion H; subst r; clear H.
  exists A, B, events, ltv, rate.
  assert (Ha' : "comparison" <> name_a) by congruence.
  assert (Hb' : "comparison" <> name_b) by congruence.
  assert (Hba : (name_a =? name_b)%string = false)
    by (apply String.eqb_neq; assumption).
  repeat split; try assumption.
  - rewrite (dict_get_set_other "comparison" name_a) by assumption.
    simpl. rewrite Hba. simpl. rewrite String.eqb_refl. reflexivity.
  - rewrite (dict_get_set_other "comparison" name_b) by assumption.
    simpl. rewrite Hba. simpl. rewrite Hba, String.eqb_refl. reflexivity.
  - apply dict_get_set_same.
Qed.

Lemma cohort_deltas_are_rounded_differences_witness :
  exists (A B : cohort_stats) (events ltv rate : number),
    run (analyze_cohort [("segment", VStr "high_value")] 50) cohort_graph = Ok A
    /\ run (analyze_cohort [("segment", VStr "low")] 50) cohort_graph = Ok B
    /\ dict_get cohort_comparison "High-Value Users" = Some (stats_dict A)
    /\ dict_get cohort_comparison "Low-Value Users" = Some (stats_dict B)
    /\ py_sub (avg_events_per_session A) (avg_events_per_session B) = Ok events
    /\ py_sub (avg_ltv A) (avg_ltv B) = Ok ltv
    /\ py_sub (conversion_rate A) (conversion_rate B) = Ok rate
    /\ dict_get cohort_comparison "comparison"
       = Some [("events_diff", py_round events 2);
               ("ltv_diff", py_round ltv 2);
               ("conversion_diff", py_round rate 1)].
Proof.
  refine (cohort_deltas_are_rounded_differences cohort_graph
            [("segment", VStr "high_value")] [("segment", VStr "low")]
            "High-Value Users" "Low-Value Users" 50 cohort_comparison _ _ _ _);
    try discriminate.
  vm_compute. reflexivity.
Defined.

(** C3 as stated fails: on [cohort_graph] the cohorts report 1.33 and 1.0
    events per session; their floating-point difference is
    0.33000000000000007, and the reported delta is its rounding, 0.33. *)
Lemma delta_is_not_the_exact_difference :
  ~ (forall G filter_a filter_b name_a name_b sample_size r A B cmp,
        name_a <> name_b -> name_a <> "comparison" -> name_b <> "comparison" ->
        run (compare_cohorts filter_a filter_b name_a name_b sample_size) G = Ok r ->
        dict_get r name_a = Some A ->
        dict_get r name_b = Some B ->
        dict_get r "comparison" = Some cmp ->
        exists a b difference delta,
          dict_get A "avg_events_per_session" = Some a
          /\ dict_get B "avg_events_per_session" = Some b
          /\ py_sub a b = Ok difference
          /\ dict_get cmp "events_diff" = Some delta
          /\ num_eqb delta difference = true).
Proof.
  intros C.
  assert (Hrun : run (compare_cohorts [("segment", VStr "high_value")]
                                      [("segment", VStr "low")]
                                      "High-Value Users" "Low-Value Users" 50)
                     cohort_graph = Ok cohort_comparison)
    by (vm_compute; reflexivity).
  assert (Hab : "High-Value Users" <> "Low-Value Users") by discriminate.
  assert (Ha : "High-Value Users" <> "comparison") by discriminate.
  assert (Hb : "Low-Value Users" <> "comparison") by discriminate.
  destruct (C cohort_graph _ _ _ _ _ cohort_comparison _ _ _ Hab Ha Hb Hrun
              eq_refl eq_refl eq_refl)
    as (a & b & difference & delta & Ha' & Hb' & Hsub & Hd' & Heq).
  injection Ha' as <-. injection Hb' as <-. injection Hd' as <-.
  vm_compute in Hsub. injection Hsub as <-.
  vm_compute in Heq. discriminate.
Qed.

(* ===================================================================== *)
(** * Further properties of the retrieval module *)
(* ===================================================================== *)

(** ** When sorting the events raises *)

Lemma py_lt_defined (a b : value) :
  (exists r, py_lt a b = Ok r)
  <-> (is_number a && is_number b) || (is_text a && is_text b) = true.
Proof.
  destruct a as [|x|x|x|x], b as [|y|y|y|y]; simpl; split;
    solve [ intros [r H]; discriminate
          | intros _; eauto
          | discriminate
          | reflexivity ].
Qed.

Lemma py_lt_error (a b : value) e : py_lt a b = Err e -> e = TypeError.
Proof.
  destruct a as [|x|x|x|x], b as [|y|y|y|y]; simpl; intros H;
    solve [discriminate | injection H as <-; reflexivity].
Qed.

Lemma insert_by_error {A} (key : A -> value) x l e :
  insert_by key x l = Err e -> e = TypeError.
Proof.
  induction l as [|h t IH]; simpl; [discriminate|].
  destruct (py_lt (key h) (key x)) as [[|]|e'] eqn:E; simpl.
  - destruct (insert_by key x t); simpl; [discriminate|].
    intros H. injection H as <-. apply IH. reflexivity.
  - discriminate.
  - intros H. injection H as <-. eapply py_lt_error; eassumption.
Qed.

Lemma sort_by_error {A} (key : A -> value) l e :
  sort_by key l = Err e -> e = TypeError.
Proof.
  revert e. induction l as [|x l IH]; simpl; intros e; [discriminate|].
  destruct (sort_by key l) as [s|e']; simpl.
  - apply insert_by_error.
  - intros H. injection H as <-. apply IH. reflexivity.
Qed.

Lemma insert_by_total {A} (key : A -> value) x l :
  (forall h, In h l -> exists r, py_lt (key h) (key x) = Ok r) ->
  exists l', insert_by key x l = Ok l'.
Proof.
  induction l as [|h t IH]; simpl; intros H; [eauto|].
  destruct (H h (or_introl eq_refl)) as [r ->]. simpl.
  destruct r; [|eauto].
  destruct IH as [t' ->]; [intros; apply H; auto|]. simpl. eauto.
Qed.

(** Keys of one kind sort without an exception. *)
Lemma sort_by_total {A} (key : A -> value) (l : list A) :
  (forall a b, In a l -> In b l -> exists r, py_lt (key a) (key b) = Ok r) ->
  exists l', sort_by key l = Ok l'.
Proof.
  induction l as [|x l IH]; simpl; intros H; [eauto|].
  destruct IH as [s Hs]; [intros; apply H; auto|]. rewrite Hs. simpl.
  apply insert_by_total. intros h Hh. apply H; [right|left; reflexivity].
  eapply Permutation_in; [apply Permutation_sym, (sort_by_perm key _ _ Hs)|exact Hh].
Qed.

Lemma forallb_kind_defined (kind : value -> bool) (keys : list value) :
  (forall a b, kind a = true -> kind b = true -> exists r, py_lt a b = Ok r) ->
  forallb kind keys = true ->
  forall a b, In a keys -> In b keys -> exists r, py_lt a b = Ok r.
Proof.
  intros Hk Hall a b Ha Hb. rewrite forallb_forall in Hall. auto.
Qed.

Lemma comparable_keys_sort {A} (key : A -> value) (l : list A) :
  comparable_keys (map key l) = true -> exists l', sort_by key l = Ok l'.
Proof.
  unfold comparable_keys. intros H.
  apply orb_true_iff in H as [H|H]; [apply orb_true_iff in H as [H|H]|].
  - rewrite length_map in H. destruct l as [|x [|y l]]; simpl in *;
      [eauto | eauto | discriminate].
  - apply sort_by_total. intros a b Ha Hb.
    apply (forallb_kind_defined is_number (map key l)); auto using in_map.
    intros u v Hu Hv. apply py_lt_defined. rewrite Hu, Hv. reflexivity.
  - apply sort_by_total. intros a b Ha Hb.
    apply (forallb_kind_defined is_text (map key l)); auto using in_map.
    intros u v Hu Hv. apply py_lt_defined. rewrite Hu, Hv. apply orb_true_r.
Qed.

(** A key that has been compared with the head of the sorted tail is of the
    tail's kind. *)
Lemma sort_by_comparable {A} (key : A -> value) (l l' : list A) :
  sort_by key l = Ok l' -> comparable_keys (map key l) = true.
Proof.
  revert l'. induction l as [|x l IH]; intros l' H; [reflexivity|].
  simpl in H. apply rbind_ok in H as (s & Hs & H).
  specialize (IH s Hs). pose proof (sort_by_perm key _ _ Hs) as P.
  destruct s as [|h t].
  - apply Permutation_sym, Permutation_nil in P. subst l. reflexivity.
  - assert (Hh : In h l)
      by (eapply Permutation_in; [apply Permutation_sym, P | left; reflexivity]).
    simpl in H. apply rbind_ok in H as (r & Hr & _).
    assert (D : (is_number (key h) && is_number (key x))
                || (is_text (key h) && is_text (key x)) = true)
      by (apply py_lt_defined; eauto).
    unfold comparable_keys in *. simpl.
    assert (Hall : forall kind, forallb kind (map key l) = true ->
                                kind (key h) = true).
    { intros kind Hk. rewrite forallb_forall in Hk. apply Hk, in_map, Hh. }
    apply orb_true_iff in IH as [IH|IH]; [apply orb_true_iff in IH as [IH|IH]|].
    + rewrite length_map in IH. destruct l as [|y [|z l]].
      * destruct Hh.
      * destruct Hh as [<-|[]]. simpl.
        apply orb_true_iff in D as [D|D]; apply andb_true_iff in D as [D1 D2];
          rewrite D1, D2; simpl; [reflexivity | apply orb_true_r].
      * simpl in IH. discriminate.
    + pose proof (Hall _ IH) as Hn. rewrite IH.
      apply orb_true_iff in D as [D|D]; apply andb_true_iff in D as [D1 D2].
      * rewrite D2. simpl. apply orb_true_iff. left. apply orb_true_r.
      * destruct (key h); discriminate.
    + pose proof (Hall _ IH) as Hn. rewrite IH.
      apply orb_true_iff in D as [D|D]; apply andb_true_iff in D as [D1 D2].
      * destruct (key h); discriminate.
      * rewrite D2. simpl. apply orb_true_r.
Qed.

Lemma sort_by_raises_iff {A} (key : A -> value) (l : list A) :
  (comparable_keys (map key l) = true -> exists l', sort_by key l = Ok l')
  /\ (comparable_keys (map key l) = false -> sort_by key l = Err TypeError).
Proof.
  split; [apply comparable_keys_sort|].
  intros H. destruct (sort_by key l) as [l'|e] eqn:E.
  - rewrite (sort_by_comparable key l l' E) in H. discriminate.
  - f_equal. eapply sort_by_error; eassumption.
Qed.

(** X1. A session whose events were collected is returned exactly when
    their timestamps can be ordered: at most one event, or all timestamps
    numbers, or all strings. Otherwise, for instance when one of several
    events has no timestamp, the call raises [TypeError]; it does not
    return the events unsorted or skip the session. *)
Theorem extract_session_raises_iff (G : Graph) (session_node : string)
    (data : attrs) (succs : list string) (collected : list event_view) :
  run (node_attrs session_node) G = Ok data ->
  run (successors session_node) G = Ok succs ->
  run (for_each succs collect_event []) G = Ok collected ->
  (comparable_keys (map timestamp collected) = true ->
   exists j, run (extract_session session_node) G = Ok j
             /\ Permutation collected (events j))
  /\ (comparable_keys (map timestamp collected) = false ->
      run (extract_session session_node) G = Err TypeError).
Proof.
  intros Hd Hs Hc. unfold extract_session.
  rewrite run_bind, Hd by ro. rewrite run_bind, Hs by ro.
  rewrite run_bind, Hc by ro. rewrite run_bind, run_lift by ro.
  destruct (sort_by_raises_iff timestamp collected) as [Hok Herr]. split.
  - intros H. destruct (Hok H) as [l' Hl']. rewrite Hl'.
    eexists. split; [reflexivity|]. simpl. eapply sort_by_perm; eassumption.
  - intros H. rewrite (Herr H). reflexivity.
Qed.

Lemma extract_session_raises_iff_witness :
  run (extract_session "session_8") untimed_graph = Err TypeError
  /\ exists j, run (extract_session "session_7") tie_graph = Ok j
               /\ Permutation
                    [mkEvent (VInt 2) (VStr "page_view")
                             (VStr "2026-01-01T09:00:00") (VStr "/a") [];
                     mkEvent (VInt 1) (VStr "click")
                             (VStr "2026-01-01T09:00:00") (VStr "/b") []]
                    (events j).
Proof.
  split.
  - refine (proj2 (extract_session_raises_iff untimed_graph "session_8"
                     (node "Session" [("session_id", VInt 8);
                                      ("start_time", VStr "2026-01-01T09:00:00")])
                     ["event_1"; "event_2"]
                     [mkEvent (VInt 1) (VStr "page_view")
                              (VStr "2026-01-01T09:00:00") (VStr "/a") [];
                      mkEvent (VInt 2) (VStr "click") VNone (VStr "/b") []]
                     _ _ _) _); vm_compute; reflexivity.
  - refine (proj1 (extract_session_raises_iff tie_graph "session_7"
                     (node "Session" [("session_id", VInt 7);
                                      ("start_time", VStr "2026-01-01T09:00:00")])
                     ["event_2"; "event_1"]
                     [mkEvent (VInt 2) (VStr "page_view")
                              (VStr "2026-01-01T09:00:00") (VStr "/a") [];
                      mkEvent (VInt 1) (VStr "click")
                              (VStr "2026-01-01T09:00:00") (VStr "/b") []]
                     _ _ _) _); vm_compute; reflexivity.
Defined.

(** ** Journeys of a well-formed graph *)

Lemma mem_node_find (G : Graph) n :
  mem_node G n = true -> exists d, find_node (g_nodes G) n = Some d.
Proof.
  unfold mem_node. destruct (find_node (g_nodes G) n); [eauto | discriminate].
Qed.

Lemma succ_list_closed (G : Graph) n v :
  closed G = true -> In v (succ_list G n) -> mem_node G v = true.
Proof.
  unfold closed, succ_list. rewrite forallb_forall. intros Hc Hv.
  apply in_map_iff in Hv as (e & <- & He). apply filter_In in He as [He _].
  apply Hc in He. apply andb_true_iff in He. apply He.
Qed.

Lemma run_successors_member (G : Graph) n :
  mem_node G n = true -> run (successors n) G = Ok (succ_list G n).
Proof. intros H. unfold run, successors; simpl. rewrite H. reflexivity. Qed.

Lemma for_each_total {A S} (I : S -> Prop) (body : A -> S -> M (ctl S)) G l :
  (forall x s, read_only (body x s)) ->
  (forall x s, In x l -> I s ->
               exists c, run (body x s) G = Ok c /\ I (ctl_state c)) ->
  forall s, I s -> exists s', run (for_each l body s) G = Ok s' /\ I s'.
Proof.
  intros Hro. induction l as [|x l IH]; simpl; intros Hb s Hs.
  - exists s. split; [reflexivity | exact Hs].
  - rewrite run_bind by auto.
    destruct (Hb x s (or_introl eq_refl) Hs) as (c & -> & Hc).
    destruct c as [s1|s1]; simpl in Hc.
    + apply IH; [|exact Hc]. intros; apply Hb; auto.
    + exists s1. split; [reflexivity | exact Hc].
Qed.

Lemma mapM_total {A B} (f : A -> M B) G l :
  (forall x, read_only (f x)) ->
  (forall x, In x l -> exists y, run (f x) G = Ok y) ->
  exists ys, run (mapM f l) G = Ok ys.
Proof.
  intros Hro. induction l as [|x l IH]; simpl; intros Hf;
    [eexists; reflexivity|].
  rewrite run_bind by auto. destruct (Hf x (or_introl eq_refl)) as [y ->].
  rewrite run_bind by auto using ro_mapM.
  destruct IH as [ys ->]; [intros; apply Hf; auto|]. eexists; reflexivity.
Qed.

Lemma filterM_total {A} (p : A -> M bool) G l :
  (forall x, read_only (p x)) ->
  (forall x, In x l -> exists b, run (p x) G = Ok b) ->
  exists r, run (filterM p l) G = Ok r /\ incl r l.
Proof.
  intros Hro. induction l as [|x l IH]; simpl; intros Hp.
  - exists []. split; [reflexivity | apply incl_refl].
  - rewrite run_bind by auto. destruct (Hp x (or_introl eq_refl)) as [b ->].
    rewrite run_bind by auto using ro_filterM.
    destruct IH as (r & -> & Hr); [intros; apply Hp; auto|].
    eexists. split; [reflexivity|].
    destruct b; [apply incl_cons; [left; reflexivity | apply incl_tl, Hr]
                | apply incl_tl, Hr].
Qed.

Lemma filterM_incl {A} (p : A -> M bool) G l r :
  (forall x, read_only (p x)) -> run (filterM p l) G = Ok r -> incl r l.
Proof.
  intros Hro. revert r. induction l as [|x l IH]; simpl; intros r H.
  - inversion H. apply incl_refl.
  - apply run_bind_ok in H as (b & _ & H); [|auto].
    apply run_bind_ok in H as (xs & Hxs & H); [|auto using ro_filterM].
    inversion H; subst. specialize (IH xs Hxs).
    destruct b; [apply incl_cons; [left; reflexivity | apply incl_tl, IH]
                | apply incl_tl, IH].
Qed.

Lemma firstn_incl {A} (n : nat) (l : list A) : incl (firstn n l) l.
Proof.
  revert l. induction n as [|n IH]; intros [|x l] y Hy; simpl in *;
    try contradiction.
  destruct Hy as [Hy|Hy]; [left; exact Hy | right; apply IH, Hy].
Qed.

Lemma slice_to_incl {A} (k : Z) (l : list A) : incl (slice_to k l) l.
Proof. unfold slice_to. destruct (k <? 0); apply firstn_incl. Qed.

Lemma len_slice_to {A} (k : Z) (l : list A) :
  (0 <= k -> len (slice_to k l) = Z.min k (len l))
  /\ (k < 0 -> len (slice_to k l) = Z.max 0 (len l + k)).
Proof.
  unfold slice_to, len. split; intros H.
  - destruct (Z.ltb_spec k 0); [lia|]. rewrite length_firstn. lia.
  - destruct (Z.ltb_spec k 0); [|lia]. rewrite length_firstn. lia.
Qed.

Section Closed.
Variable G : Graph.
Hypothesis G_closed : closed G = true.
Hypothesis G_timed : timestamps_are_text G = true.

Lemma node_has_type_member ty n :
  mem_node G n = true ->
  exists d, find_node (g_nodes G) n = Some d
            /\ run (node_attrs n) G = Ok d
            /\ run (node_has_type ty n) G = Ok (has_type d ty).
Proof.
  intros H. destruct (mem_node_find G n H) as [d Hd]. exists d.
  rewrite run_node_has_type. unfold run, node_attrs; simpl. rewrite Hd. auto.
Qed.

Lemma collect_event_total n evs :
  mem_node G n = true ->
  Forall (fun e => is_text (timestamp e) = true) evs ->
  exists c, run (collect_event n evs) G = Ok c
            /\ Forall (fun e => is_text (timestamp e) = true) (ctl_state c).
Proof.
  intros Hn Hevs. unfold collect_event.
  destruct (node_has_type_member "Event" n Hn) as (d & Hd & Hattrs & Hty).
  rewrite run_bind, Hty by ro.
  destruct (has_type d "Event") eqn:Ev; simpl;
    [|eexists; split; [reflexivity | exact Hevs]].
  rewrite run_bind, Hattrs by ro.
  rewrite run_bind, (run_successors_member G n Hn) by ro.
  rewrite run_bind by ro.
  match goal with
  | |- context [run (for_each (succ_list G n) ?b []) G] =>
      destruct (for_each_total (fun _ => True) b G (succ_list G n)) with (s := @nil attrs)
        as (products & Hp & _)
  end.
  - intros; ro.
  - intros p ps Hin _.
    pose proof (succ_list_closed G n p G_closed Hin) as Hm.
    destruct (node_has_type_member "Product" p Hm) as (dp & _ & Hpa & Hpt).
    rewrite run_bind, Hpt by ro.
    destruct (has_type dp "Product");
      [|eexists; split; [reflexivity | exact I]].
    rewrite run_bind, Hpa by ro. eexists; split; [reflexivity | exact I].
  - exact I.
  - rewrite Hp. eexists. split; [reflexivity|]. simpl.
    apply Forall_app. split; [assumption|]. constructor; [|constructor]. simpl.
    unfold timestamps_are_text in G_timed. rewrite forallb_forall in G_timed.
    specialize (G_timed (n, d) (find_node_In _ _ _ Hd)). simpl in G_timed.
    rewrite Ev in G_timed. exact G_timed.
Qed.

Lemma extract_session_total n :
  mem_node G n = true -> exists j, run (extract_session n) G = Ok j.
Proof.
  intros Hn. unfold extract_session.
  destruct (node_has_type_member "Session" n Hn) as (d & _ & Hattrs & _).
  rewrite run_bind, Hattrs by ro.
  rewrite run_bind, (run_successors_member G n Hn) by ro.
  rewrite run_bind by ro.
  destruct (for_each_total (fun evs => Forall (fun e => is_text (timestamp e) = true) evs)
              collect_event G (succ_list G n)) with (s := @nil event_view)
    as (collected & Hc & Htext).
  - intros; ro.
  - intros x s Hin Hs. apply collect_event_total; [|exact Hs].
    eapply succ_list_closed; eassumption.
  - constructor.
  - rewrite Hc. rewrite run_bind, run_lift by ro.
    destruct (comparable_keys_sort timestamp collected) as [sorted ->].
    + unfold comparable_keys. apply orb_true_iff. right.
      apply forallb_forall. intros t Ht. apply in_map_iff in Ht as (e & <- & He).
      rewrite Forall_forall in Htext. auto.
    + eexists; reflexivity.
Qed.

Lemma extract_user_journeys_total uid k :
  exists js, run (extract_user_journeys uid k) G = Ok js.
Proof.
  unfold extract_user_journeys. rewrite run_bind by ro.
  change (run (has_node (user_node_of uid)) G)
    with (@Ok bool (mem_node G (user_node_of uid))).
  destruct (mem_node G (user_node_of uid)) eqn:Hu; cbn [negb];
    [|eexists; reflexivity].
  rewrite run_bind, (run_successors_member G _ Hu) by ro.
  rewrite run_bind by ro.
  destruct (filterM_total (node_has_type "Session") G
              (succ_list G (user_node_of uid))) as (sessions & -> & Hincl).
  - intros; ro.
  - intros x Hx.
    destruct (node_has_type_member "Session" x
                (succ_list_closed G _ x G_closed Hx)) as (d & _ & _ & H).
    eauto.
  - apply mapM_total; [intros; ro|]. intros n Hn.
    apply extract_session_total. eapply succ_list_closed; [exact G_closed|].
    apply Hincl. eapply slice_to_incl. exact Hn.
Qed.

End Closed.

(** X2. On a graph whose edges join existing nodes and whose [Event]
    nodes all carry string timestamps, [extract_user_journeys] never
    raises, for any user id (present or not) and any [max_sessions]: other
    attributes may be missing, and come back as [None]. *)
Theorem extract_user_journeys_never_raises (G : Graph) (uid : value) (k : Z) :
  closed G = true -> timestamps_are_text G = true ->
  exists js, run (extract_user_journeys uid k) G = Ok js.
Proof. intros Hc Ht. apply extract_user_journeys_total; assumption. Qed.

Lemma extract_user_journeys_never_raises_witness :
  exists js, run (extract_user_journeys (VInt 1) 10) sample_graph = Ok js.
Proof.
  apply (extract_user_journeys_never_raises sample_graph (VInt 1) 10);
    vm_compute; reflexivity.
Defined.

(** X3. The journeys returned for a user in the graph are those of its
    [Session] successors, in the graph's successor order, cut by the slice
    [sessions[:max_sessions]]: the first [max_sessions] of them when
    [max_sessions >= 0] (none for 0), and all but the last [-max_sessions]
    when it is negative. *)
Theorem extract_user_journeys_takes_a_slice (G : Graph) (uid : value) (k : Z)
    (js : list journey) :
  mem_node G (user_node_of uid) = true ->
  run (extract_user_journeys uid k) G = Ok js ->
  exists sessions,
    run (filterM (node_has_type "Session") (succ_list G (user_node_of uid))) G
    = Ok sessions
    /\ Forall2 (fun n j => run (extract_session n) G = Ok j) (slice_to k sessions) js
    /\ (0 <= k -> len js = Z.min k (len sessions))
    /\ (k < 0 -> len js = Z.max 0 (len sessions + k)).
Proof.
  intros Hu H. unfold extract_user_journeys in H.
  apply run_bind_ok in H as (present & Hp & H); [|solve [ro]].
  unfold run, has_node in Hp; simpl in Hp. rewrite Hu in Hp.
  injection Hp as <-. simpl in H.
  apply run_bind_ok in H as (succs & Hs & H); [|solve [ro]].
  rewrite (run_successors_member G _ Hu) in Hs. injection Hs as <-.
  apply run_bind_ok in H as (sessions & Hf & H); [|solve [ro]].
  apply run_mapM_ok in H; [|intros; auto with ro].
  exists sessions. split; [exact Hf|]. split; [exact H|].
  assert (L : len js = len (slice_to k sessions))
    by (unfold len; rewrite (Forall2_length H); reflexivity).
  rewrite L. apply len_slice_to.
Qed.

Lemma extract_user_journeys_takes_a_slice_witness :
  exists sessions,
    run (filterM (node_has_type "Session")
                 (succ_list cohort_graph (user_node_of (VInt 1)))) cohort_graph
    = Ok sessions
    /\ Forall2 (fun n j => run (extract_session n) cohort_graph = Ok j)
               (slice_to (-1) sessions)
               [mkJourney (VInt 1) (VStr "2026-01-01T10:00:00") 2
                  [mkEvent (VInt 1) (VStr "page_view") (VStr "2026-01-01T10:00:01")
                           (VStr "/home") [];
                   mkEvent (VInt 2) (VStr "page_view") (VStr "2026-01-01T10:00:02")
                           (VStr "/home") []];
                mkJourney (VInt 2) (VStr "2026-01-01T10:00:00") 1
                  [mkEvent (VInt 3) (VStr "page_view") (VStr "2026-01-01T10:00:03")
                           (VStr "/home") []]]
    /\ (0 <= -1 -> 2 = Z.min (-1) (len sessions))
    /\ (-1 < 0 -> 2 = Z.max 0 (len sessions + -1)).
Proof.
  apply (extract_user_journeys_takes_a_slice cohort_graph (VInt 1) (-1));
    vm_compute; reflexivity.
Defined.

(** ** The limit of the outcome scan *)

Lemma outcome_scan_ok (G : Graph) (outcome : string)
    (limit : Z) (sessions : list string) :
  run (find_sessions_by_outcome outcome limit) G = Ok sessions ->
  len sessions <= Z.max limit 1 /\ Forall (owns_terminal G outcome) sessions.
Proof.
  intros H. unfold find_sessions_by_outcome in H.
  apply run_bind_ok in H as (nodes & Hn & H); [|solve [ro]].
  inversion Hn; subst nodes; clear Hn.
  apply (for_each_invariant_break
           (fun s => len s < Z.max limit 1 /\ Forall (owns_terminal G outcome) s)
           (fun s => len s <= Z.max limit 1 /\ Forall (owns_terminal G outcome) s))
    in H.
  - destruct H as [[? ?]|[? ?]]; split; auto; lia.
  - intros; ro.
  - intros [event data] s c Hin [Hlen Hall] Hc.
    destruct (has_type data "Event") eqn:Ty; simpl in Hc;
      [|inversion Hc; subst; auto].
    destruct (py_eqb (get data "event_type") (VStr outcome)) eqn:Ev; simpl in Hc;
      [|inversion Hc; subst; auto].
    apply run_bind_ok in Hc as (succs & Hsuccs & Hc); [|solve [ro]].
    apply run_bind_ok in Hc as (has_next & Hnext & Hc); [|solve [ro]].
    apply run_bind_ok in Hc as (s1 & Hs1 & Hc); [|solve [ro]].
    assert (Hs1' : len s1 <= Z.max limit 1 /\ Forall (owns_terminal G outcome) s1).
    { destruct has_next; simpl in Hs1.
      - inversion Hs1; subst. split; [lia | assumption].
      - apply run_bind_ok in Hs1 as (preds & Hpreds & Hs1); [|solve [ro]].
        apply run_bind_ok in Hs1 as (owner & Howner & Hs1); [|solve [ro]].
        destruct owner as [pred|]; inversion Hs1; subst.
        + split; [rewrite len_app_one; lia|].
          apply Forall_app. split; [assumption|]. constructor; [|constructor].
          exists event, data, succs, preds. repeat split; assumption.
        + split; [lia | assumption]. }
    destruct (limit <=? len s1) eqn:L; inversion Hc; subst.
    + assumption.
    + apply Z.leb_gt in L. split; [lia | apply Hs1'].
  - split; [unfold len; simpl; lia | constructor].
Qed.

(** X4. [find_sessions_by_outcome] returns at most [max(limit, 1)] sessions,
    for every limit, and each of them is the first [Session] predecessor of
    an event of the outcome type that has no outgoing [NEXT] edge. *)
Theorem find_sessions_by_outcome_bound (G : Graph) (outcome : string)
    (limit : Z) (sessions : list string) :
  run (find_sessions_by_outcome outcome limit) G = Ok sessions ->
  len sessions <= Z.max limit 1 /\ Forall (owns_terminal G outcome) sessions.
Proof. apply outcome_scan_ok. Qed.

Lemma find_sessions_by_outcome_bound_witness :
  len ["session_2"] <= Z.max 5 1
  /\ Forall (owns_terminal churned_user_graph "exit") ["session_2"].
Proof.
  apply (find_sessions_by_outcome_bound churned_user_graph "exit" 5).
  vm_compute. reflexivity.
Defined.

(** ** The ranking of common patterns *)

Lemma sorted_firstn {A} (R : A -> A -> Prop) (n : nat) (l : list A) :
  Sorted R l -> Sorted R (firstn n l).
Proof.
  revert l. induction n as [|n IH]; intros l Hs; simpl; [constructor|].
  destruct Hs as [|x l Hl Hhd]; [constructor|].
  constructor; [apply IH, Hl|].
  destruct Hhd as [|y l' Hxy]; [destruct n; constructor|].
  destruct n; simpl; constructor. exact Hxy.
Qed.

Lemma nodup_firstn {A} (n : nat) (l : list A) : NoDup l -> NoDup (firstn n l).
Proof.
  revert l. induction n as [|n IH]; intros l Hnd; simpl; [constructor|].
  destruct Hnd as [|x l Hx Hl]; constructor; [|apply IH, Hl].
  intros Hin. apply Hx. eapply firstn_incl; eassumption.
Qed.

Lemma map_firstn_fst {A B} (n : nat) (l : list (A * B)) :
  map fst (firstn n l) = firstn n (map fst l).
Proof.
  revert l. induction n as [|n IH]; intros [|x l]; simpl; try reflexivity.
  rewrite IH. reflexivity.
Qed.

Lemma skipn_incl' {A} (n : nat) (l : list A) : incl (skipn n l) l.
Proof.
  revert l. induction n as [|n IH]; intros [|x l] y Hy; simpl in *;
    try contradiction; try exact Hy.
  right. apply IH, Hy.
Qed.

(** What is kept outranks what is left out. *)
Lemma strongly_sorted_split {A} (R : A -> A -> Prop) (n : nat) (l : list A) :
  StronglySorted R l ->
  forall kept dropped, In kept (firstn n l) -> In dropped (skipn n l) ->
                       R kept dropped.
Proof.
  revert l. induction n as [|n IH]; intros l Hs kept dropped Hk Hd; simpl in *.
  - contradiction.
  - destruct Hs as [|x l Hl Hall]; simpl in *; [contradiction|].
    destruct Hk as [<-|Hk].
    + rewrite Forall_forall in Hall. apply Hall.
      eapply (skipn_incl' n l). exact Hd.
    + eapply IH; eassumption.
Qed.

Lemma sort_desc_strongly_sorted {K} (c : counter K) :
  StronglySorted (fun a b => snd b <= snd a) (sort_desc c).
Proof.
  apply Sorted_StronglySorted; [|apply sort_desc_sorted].
  intros x y z Hxy Hyz. lia.
Qed.

(** Equal counts keep their first-seen order. *)
Lemma insert_desc_stable {K} (n : Z) (x : K * Z) l :
  filter (has_count n) (insert_desc x l) = filter (has_count n) (x :: l).
Proof.
  induction l as [|h t IH]; simpl; [reflexivity|].
  destruct (snd x <? snd h) eqn:E; [|reflexivity].
  simpl. rewrite IH. simpl. unfold has_count.
  destruct (Z.eqb_spec (snd h) n), (Z.eqb_spec (snd x) n); try reflexivity.
  apply Z.ltb_lt in E. lia.
Qed.

Lemma sort_desc_stable {K} (n : Z) (c : counter K) :
  filter (has_count n) (sort_desc c) = filter (has_count n) c.
Proof.
  unfold sort_desc. induction c as [|x c IH]; simpl; [reflexivity|].
  rewrite insert_desc_stable. simpl. rewrite IH. reflexivity.
Qed.

Lemma tally_patterns_budget (G : Graph) filter limit pc tallied :
  run (tally_patterns filter limit) G = Ok (pc, tallied) ->
  tallied <= Z.max limit 0.
Proof.
  intros H. unfold tally_patterns in H.
  apply run_bind_ok in H as (nodes & _ & H); [|solve [ro]].
  revert H.
  apply (for_each_invariant (fun st : counter string * Z => snd st <= Z.max limit 0)).
  - intros; ro.
  - intros [n data] [pc0 sa0] c Hst Hc. simpl in Hst.
    destruct (has_type data "User"); simpl in Hc; [|inversion Hc; assumption].
    destruct (rejects filter data); [inversion Hc; assumption|].
    apply run_bind_ok in Hc as (journeys & _ & Hc); [|solve [ro]].
    apply run_bind_ok in Hc as ([pc1 sa1] & Hin & Hc); [|solve [ro]].
    assert (H1 : sa1 <= Z.max limit 0).
    { revert Hin.
      apply (for_each_invariant
               (fun st : counter string * Z => snd st <= Z.max limit 0));
        [intros; ro | | exact Hst].
      intros j [pc2 sa2] c2 Hle Hc2. simpl in *.
      destruct (Z.leb_spec limit sa2); [inversion Hc2; assumption|].
      apply run_bind_ok in Hc2 as (pattern & _ & Hc2); [|solve [ro]].
      inversion Hc2; subst. simpl. lia. }
    destruct (limit <=? sa1); inversion Hc; assumption.
  - simpl. lia.
Qed.

(** X5. The list [find_common_patterns] returns is the head of the ranking
    of the tallied patterns: at most 10 entries, distinct patterns, counts
    descending, every entry left out counted no more often than any entry
    kept, and patterns of equal count in first-seen order. Never more than
    [max(limit, 0)] sessions are tallied. *)
Theorem common_patterns_are_the_top_ten (G : Graph) (selection : option user_filter)
    (limit : Z) (rs : list (string * Z * number)) :
  run (find_common_patterns selection limit) G = Ok rs ->
  exists pc tallied,
    run (tally_patterns selection limit) G = Ok (pc, tallied)
    /\ tallied <= Z.max limit 0
    /\ map fst rs = firstn 10 (sort_desc pc)
    /\ (List.length rs <= 10)%nat
    /\ NoDup (map fst (map fst rs))
    /\ Sorted (fun a b => snd b <= snd a) (map fst rs)
    /\ (forall kept dropped,
           In kept (map fst rs) -> In dropped (skipn 10 (sort_desc pc)) ->
           snd dropped <= snd kept)
    /\ (forall n, filter (has_count n) (sort_desc pc) = filter (has_count n) pc).
Proof.
  intros H. unfold find_common_patterns in H.
  apply run_bind_ok in H as ([pc tallied] & Ht & H); [|solve [ro]].
  rewrite run_lift in H.
  destruct (tally_patterns_ok G selection limit pc tallied Ht) as (_ & Hnd & _).
  simpl in Hnd.
  apply (rmap_fst (fun pc0 => percentage (snd pc0) (counter_total pc))) in H
    as [Hm _].
  exists pc, tallied. unfold most_common in Hm.
  split; [exact Ht|]. split; [eapply tally_patterns_budget; eassumption|].
  split; [exact Hm|]. split.
  { rewrite <- (length_map fst rs), Hm, length_firstn. lia. }
  split.
  { rewrite Hm, map_firstn_fst. apply nodup_firstn.
    eapply Permutation_NoDup; [|exact Hnd].
    apply Permutation_map, sort_desc_perm. }
  split; [rewrite Hm; apply sorted_firstn, sort_desc_sorted|].
  split.
  { rewrite Hm. intros kept dropped Hk Hd.
    apply (strongly_sorted_split _ 10 (sort_desc pc)
             (sort_desc_strongly_sorted pc) kept dropped Hk Hd). }
  intros n. apply sort_desc_stable.
Qed.

Lemma common_patterns_are_the_top_ten_witness :
  exists pc tallied,
    run (tally_patterns None 100) (distinct_patterns 11) = Ok (pc, tallied)
    /\ tallied <= Z.max 100 0
    /\ map fst top_ten_of_eleven = firstn 10 (sort_desc pc)
    /\ (List.length top_ten_of_eleven <= 10)%nat
    /\ NoDup (map fst (map fst top_ten_of_eleven))
    /\ Sorted (fun a b => snd b <= snd a) (map fst top_ten_of_eleven)
    /\ (forall kept dropped,
           In kept (map fst top_ten_of_eleven) ->
           In dropped (skipn 10 (sort_desc pc)) ->
           snd dropped <= snd kept)
    /\ (forall n, filter (has_count n) (sort_desc pc) = filter (has_count n) pc).
Proof.
  apply (common_patterns_are_the_top_ten (distinct_patterns 11) None 100
           top_ten_of_eleven).
  vm_compute. reflexivity.
Defined.

(** ** Patterns always serialize *)

Lemma percentage_formats (count total : Z) (p : number) :
  percentage count total = Ok p -> exists text, format_1f p = Ok text.
Proof.
  unfold percentage. destruct (0 <? total).
  - intros H. apply rbind_ok in H as (q & Hq & H).
    unfold py_truediv in Hq.
    destruct (total =? 0); [discriminate|].
    destruct (is_inf (of_ratio count total)); [discriminate|].
    injection Hq as <-. simpl in H.
    unfold to_float in H. simpl in H. injection H as <-.
    eexists. reflexivity.
  - intros H. injection H as <-. eexists. reflexivity.
Qed.

Lemma rmap_enumerate_total {A B} (g : Z * A -> result B) (P : A -> Prop) :
  (forall i x, P x -> exists y, g (i, x) = Ok y) ->
  forall l, Forall P l ->
  forall start, exists ys, rmap g (enumerate start l) = Ok ys.
Proof.
  intros Hg l Hl. induction Hl as [|x l Hx _ IH]; intros start; simpl.
  - eexists. reflexivity.
  - destruct (Hg start x Hx) as [y ->]. simpl.
    destruct (IH (start + 1)) as [ys ->]. simpl. eexists. reflexivity.
Qed.

(** X6. Whatever [find_common_patterns] returns, [serialize_patterns_for_llm]
    turns into text without raising: the percentages it receives are floats
    or the integer 0, which [.1f] formats; for an empty list the text is the
    ["No ... found."] placeholder. *)
Theorem common_patterns_always_serialize (G : Graph)
    (selection : option user_filter) (limit : Z)
    (rs : list (string * Z * number)) (description : string) :
  run (find_common_patterns selection limit) G = Ok rs ->
  (exists text, serialize_patterns_for_llm rs description = Ok text)
  /\ (rs = [] -> serialize_patterns_for_llm rs description
                 = Ok (no_patterns description)).
Proof.
  intros H. split; [|intros ->; reflexivity].
  unfold find_common_patterns in H.
  apply run_bind_ok in H as ([pc tallied] & _ & H); [|solve [ro]].
  rewrite run_lift in H.
  apply (rmap_fst (fun pc0 => percentage (snd pc0) (counter_total pc))) in H
    as [_ Hf].
  assert (Hfmt : Forall (fun r => exists text, format_1f (snd r) = Ok text) rs).
  { eapply Forall_impl; [|exact Hf]. intros r Hr.
    exact (percentage_formats (snd (fst r)) (counter_total pc) (snd r) Hr). }
  unfold serialize_patterns_for_llm. destruct rs as [|r rs'].
  - eexists. reflexivity.
  - set (line := fun '(i, (pattern, count, pct)) =>
                    let? pct_text := format_1f pct in
                    Ok (digits_of_Z i ++ ". **" ++ pattern ++ "** - "
                          ++ digits_of_Z count
                          ++ " occurrences (" ++ pct_text ++ "%)")).
    assert (Hline : forall (i : Z) (x : string * Z * number),
               (exists text, format_1f (snd x) = Ok text) ->
               exists y, line (i, x) = Ok y).
    { intros i [[pattern count] pct] [text Ht]. simpl in Ht.
      unfold line. rewrite Ht. simpl. eexists. reflexivity. }
    destruct (rmap_enumerate_total line _ Hline (r :: rs') Hfmt 1)
      as [items Hitems].
    rewrite Hitems. eexists. reflexivity.
Qed.

Lemma common_patterns_always_serialize_witness :
  (exists text,
      serialize_patterns_for_llm [("search → exit", 1, NFloat (of_Z 100))]
                                 "churned user journey patterns" = Ok text)
  /\ ([("search → exit", 1, NFloat (of_Z 100))] = [] ->
      serialize_patterns_for_llm [("search → exit", 1, NFloat (of_Z 100))]
                                 "churned user journey patterns"
      = Ok (no_patterns "churned user journey patterns")).
Proof.
  apply (common_patterns_always_serialize churned_user_graph
           (Some [("churned", VBool true)]) 10).
  vm_compute. reflexivity.
Defined.

(* ===================================================================== *)
(** ** The cohort scan *)
(* ===================================================================== *)

Lemma len_nil_iff {A} (l : list A) : len l = 0 -> l = [].
Proof. destruct l; [reflexivity | unfold len; simpl; lia]. Qed.

Lemma len_nonneg {A} (l : list A) : 0 <= len l.
Proof. unfold len. lia. Qed.

Lemma len_app {A} (l l' : list A) : len (l +++ l') = len l + len l'.
Proof. unfold len. rewrite length_app. lia. Qed.

Lemma sum_Z_app_one (l : list Z) (x : Z) : sum_Z (l +++ [x]) = sum_Z l + x.
Proof. unfold sum_Z. rewrite fold_left_app. reflexivity. Qed.

Lemma count_events_bounds (evs : list event_view) :
  forall p c p' c',
    count_events evs p c = (p', c') ->
    p <= p' /\ c <= c' /\ p' + c' <= p + c + len evs.
Proof.
  unfold count_events.
  induction evs as [|e evs IH]; simpl; intros p c p' c' H.
  - injection H as <- <-. unfold len. simpl. lia.
  - assert (L : len (e :: evs) = len evs + 1).
    { unfold len. change (List.length (e :: evs)) with (S (List.length evs)). lia. }
    rewrite L.
    destruct (py_eqb (event_type e) (VStr "purchase")).
    + apply IH in H. lia.
    + destruct (py_eqb (event_type e) (VStr "add_to_cart")); apply IH in H; lia.
Qed.

Lemma add_journey_counts (a : cohort_acc) (j : journey) :
  event_count j = len (events j) ->
  counts_ok a ->
  counts_ok (add_journey a j)
  /\ acc_users (add_journey a j) = acc_users a
  /\ len (acc_sessions (add_journey a j)) = len (acc_sessions a) + 1.
Proof.
  intros Hj (Hc & Hp & Hk & Hs). unfold add_journey.
  destruct (count_events (events j) (acc_purchases a) (acc_cart_adds a))
    as [p c] eqn:E.
  apply count_events_bounds in E. unfold counts_ok. simpl.
  rewrite map_app, Hc, sum_Z_app_one, len_app_one. simpl.
  rewrite <- Hc. repeat split; try reflexivity; lia.
Qed.

Lemma fold_add_journey_counts (js : list journey) :
  Forall (fun j => event_count j = len (events j)) js ->
  forall a,
    counts_ok a ->
    counts_ok (fold_left add_journey js a)
    /\ acc_users (fold_left add_journey js a) = acc_users a
    /\ len (acc_sessions (fold_left add_journey js a))
       = len (acc_sessions a) + len js.
Proof.
  induction 1 as [|j js Hj _ IH]; intros a Ha; simpl.
  - split; [assumption|]. split; [reflexivity|]. unfold len. simpl. lia.
  - destruct (add_journey_counts a j Hj Ha) as (Ha' & Hu & Hl).
    destruct (IH _ Ha') as (H1 & H2 & H3).
    split; [assumption|]. split; [congruence|].
    rewrite H3, Hl. unfold len.
    change (List.length (j :: js)) with (S (List.length js)). lia.
Qed.

Lemma extract_user_journeys_counts (uid : value) (k : Z) (G : Graph) js :
  run (extract_user_journeys uid k) G = Ok js ->
  Forall (fun j => event_count j = len (events j)) js.
Proof.
  intros H. apply extract_user_journeys_ok in H.
  eapply Forall_impl; [|exact H]. intros j [n Hn].
  apply extract_session_ok in Hn as (d & succs & collected & _ & _ & _ & _ & E & _).
  exact E.
Qed.

Lemma extract_user_journeys_at_most (uid : value) (k : Z) (G : Graph) js :
  0 <= k -> run (extract_user_journeys uid k) G = Ok js -> len js <= k.
Proof.
  intros Hk H. unfold extract_user_journeys in H.
  apply run_bind_ok in H as (present & _ & H); [|solve [ro]].
  destruct present; simpl in H.
  - apply run_bind_ok in H as (succs & _ & H); [|solve [ro]].
    apply run_bind_ok in H as (sessions & _ & H); [|solve [ro]].
    apply run_mapM_ok in H; [|intros; auto with ro].
    assert (L : len js = len (slice_to k sessions))
      by (unfold len; rewrite (Forall2_length H); reflexivity).
    rewrite L. destruct (len_slice_to k sessions) as [E _].
    rewrite (E Hk). lia.
  - inversion H. unfold len. simpl. lia.
Qed.

Lemma scan_cohort_ok (G : Graph) (f : user_filter) (k : Z) (a : cohort_acc) :
  run (scan_cohort f k) G = Ok a ->
  counts_ok a
  /\ len (acc_sessions a) <= 3 * len (acc_users a)
  /\ len (acc_sessions a) <= Z.max k 1 + 2
  /\ Forall (cohort_member G f) (acc_users a).
Proof.
  intros H. unfold scan_cohort in H.
  apply run_bind_ok in H as (nodes & Hn & H); [|solve [ro]].
  inversion Hn; subst nodes; clear Hn.
  apply (for_each_invariant_break
           (fun a => counts_ok a
                     /\ len (acc_sessions a) <= 3 * len (acc_users a)
                     /\ len (acc_sessions a) < Z.max k 1
                     /\ Forall (cohort_member G f) (acc_users a))
           (fun a => counts_ok a
                     /\ len (acc_sessions a) <= 3 * len (acc_users a)
                     /\ len (acc_sessions a) <= Z.max k 1 + 2
                     /\ Forall (cohort_member G f) (acc_users a)))
    in H.
  - destruct H as [(? & ? & ? & ?)|(? & ? & ? & ?)];
      (split; [assumption|]; split; [assumption|]; split; [lia | assumption]).
  - intros; ro.
  - intros [node data] s c Hin (Hc & Hs & Hlt & Hm) Hrun.
    destruct (has_type data "User") eqn:Ty; simpl in Hrun;
      [|inversion Hrun; subst; auto].
    destruct (matches data f) eqn:Mt; simpl in Hrun;
      [|inversion Hrun; subst; auto].
    apply run_bind_ok in Hrun as (journeys & Hj & Hrun); [|solve [ro]].
    pose proof (extract_user_journeys_counts _ _ _ _ Hj) as Hev.
    assert (H3 : len journeys <= 3)
      by (eapply extract_user_journeys_at_most; [|exact Hj]; lia).
    set (a0 := mkAcc (acc_users s +++ [data]) (acc_sessions s)
                     (acc_event_counts s) (acc_purchases s) (acc_cart_adds s))
      in *.
    assert (Ha0 : counts_ok a0) by exact Hc.
    destruct (fold_add_journey_counts journeys Hev a0 Ha0) as (F1 & F2 & F3).
    simpl in F2, F3.
    assert (Hm' : Forall (cohort_member G f)
                         (acc_users (fold_left add_journey journeys a0))).
    { rewrite F2. apply Forall_app. split; [assumption|].
      constructor; [|constructor]. exists node. auto. }
    assert (Hs' : len (acc_sessions (fold_left add_journey journeys a0))
                  <= 3 * len (acc_users (fold_left add_journey journeys a0))).
    { rewrite F2, F3, len_app_one. lia. }
    destruct (k <=? len (acc_sessions (fold_left add_journey journeys a0))) eqn:L;
      inversion Hrun; subst c.
    + split; [assumption|]. split; [assumption|]. split; [|assumption].
      rewrite F3. lia.
    + apply Z.leb_gt in L.
      split; [assumption|]. split; [assumption|]. split; [|assumption]. lia.
  - split; [|split; [|split]].
    + unfold counts_ok, sum_Z. simpl. repeat split; lia.
    + unfold len. simpl. lia.
    + unfold len. simpl. lia.
    + constructor.
Qed.

(** X7. The statistics of a cohort: the scan stops at the first user who
    brings the number of sessions to [sample_size], so it may overshoot by
    up to two sessions. There are at most three sessions per user, the two
    event counters are not negative, and a cohort without sessions, or
    without users, is reported with integer zeros and not as an error. *)
Theorem analyze_cohort_counts (G : Graph) (selection : user_filter)
    (sample_size : Z) (A : cohort_stats) :
  run (analyze_cohort selection sample_size) G = Ok A ->
  0 <= session_count A <= 3 * user_count A
  /\ session_count A <= Z.max sample_size 1 + 2
  /\ 0 <= purchase_events A
  /\ 0 <= cart_add_events A
  /\ (session_count A = 0 ->
      purchase_events A = 0 /\ cart_add_events A = 0
      /\ avg_events_per_session A = NInt 0 /\ conversion_rate A = NInt 0)
  /\ (user_count A = 0 -> A = mkStats 0 0 (NInt 0) (NInt 0) 0 0 (NInt 0)).
Proof.
  intros H. unfold analyze_cohort in H.
  apply run_bind_ok in H as (a & Ha & H); [|solve [ro]].
  apply scan_cohort_ok in Ha as ((Hc & Hp & Hk & Hsum) & Hs & Hlim & _).
  apply run_bind_ok in H as (avg_events & Hev & H); [|solve [ro]].
  apply run_bind_ok in H as (avg_ltv0 & Hltv & H); [|solve [ro]].
  apply run_bind_ok in H as (rate & Hrate & H); [|solve [ro]].
  rewrite run_lift in Hev, Hltv, Hrate. inversion H; subst A; clear H. simpl.
  pose proof (len_nonneg (acc_sessions a)) as Hn.
  assert (Hzero : len (acc_sessions a) = 0 ->
                  acc_purchases a = 0 /\ acc_cart_adds a = 0
                  /\ py_round avg_events 2 = NInt 0
                  /\ py_round rate 1 = NInt 0).
  { intros Z0. apply len_nil_iff in Z0. rewrite Z0 in Hc, Hrate. simpl in Hc.
    rewrite Hc in Hsum, Hev. unfold sum_Z in Hsum. simpl in Hsum.
    injection Hev as <-. injection Hrate as <-.
    repeat split; try reflexivity; lia. }
  repeat split; try assumption; try lia; try (apply Hzero; assumption).
  intros U0. assert (S0 : len (acc_sessions a) = 0) by lia.
  destruct (Hzero S0) as (-> & -> & -> & ->).
  apply len_nil_iff in U0. rewrite U0 in Hltv |- *. injection Hltv as <-.
  rewrite S0. reflexivity.
Qed.

Lemma analyze_cohort_counts_witness :
  0 <= session_count (mkStats 1 3 (NFloat (of_ratio 133 100)) (NFloat (of_Z 500))
                              0 0 (NFloat (of_Z 0)))
    <= 3 * user_count (mkStats 1 3 (NFloat (of_ratio 133 100)) (NFloat (of_Z 500))
                               0 0 (NFloat (of_Z 0)))
  /\ session_count (mkStats 1 3 (NFloat (of_ratio 133 100)) (NFloat (of_Z 500))
                            0 0 (NFloat (of_Z 0)))
     <= Z.max 1 1 + 2
  /\ 0 <= purchase_events (mkStats 1 3 (NFloat (of_ratio 133 100))
                                   (NFloat (of_Z 500)) 0 0 (NFloat (of_Z 0)))
  /\ 0 <= cart_add_events (mkStats 1 3 (NFloat (of_ratio 133 100))
                                   (NFloat (of_Z 500)) 0 0 (NFloat (of_Z 0)))
  /\ (session_count (mkStats 1 3 (NFloat (of_ratio 133 100)) (NFloat (of_Z 500))
                             0 0 (NFloat (of_Z 0))) = 0 ->
      purchase_events (mkStats 1 3 (NFloat (of_ratio 133 100)) (NFloat (of_Z 500))
                               0 0 (NFloat (of_Z 0))) = 0
      /\ cart_add_events (mkStats 1 3 (NFloat (of_ratio 133 100))
                                  (NFloat (of_Z 500)) 0 0 (NFloat (of_Z 0))) = 0
      /\ avg_events_per_session (mkStats 1 3 (NFloat (of_ratio 133 100))
                                         (NFloat (of_Z 500)) 0 0 (NFloat (of_Z 0)))
         = NInt 0
      /\ conversion_rate (mkStats 1 3 (NFloat (of_ratio 133 100))
                                  (NFloat (of_Z 500)) 0 0 (NFloat (of_Z 0)))
         = NInt 0)
  /\ (user_count (mkStats 1 3 (NFloat (of_ratio 133 100)) (NFloat (of_Z 500))
                          0 0 (NFloat (of_Z 0))) = 0 ->
      mkStats 1 3 (NFloat (of_ratio 133 100)) (NFloat (of_Z 500)) 0 0
              (NFloat (of_Z 0))
      = mkStats 0 0 (NInt 0) (NInt 0) 0 0 (NInt 0)).
Proof.
  apply (analyze_cohort_counts cohort_graph [("segment", VStr "high_value")] 1).
  vm_compute. reflexivity.
Defined.

(** ** The average lifetime value *)

Lemma sum_ltv_from (users : list attrs) :
  forall (acc : result number) (total : number),
    fold_left
      (fun acc u =>
         let? a := acc in
         let? v := getitem u "ltv" in
         match as_number v with
         | Some n => py_add a n
         | None => Err TypeError
         end)
      users acc = Ok total ->
    (exists a, acc = Ok a) /\ forallb has_numeric_ltv users = true.
Proof.
  induction users as [|u users IH]; simpl; intros acc total H.
  - split; [eauto | reflexivity].
  - apply IH in H as [[a' Ha'] Hall].
    destruct acc as [a|e]; [|discriminate]. split; [eauto|].
    rewrite Hall, andb_true_r. simpl in Ha'.
    unfold getitem, has_numeric_ltv, is_number in *.
    destruct (lookup u "ltv") as [v|]; [|discriminate]. simpl in Ha'.
    destruct (as_number v); [reflexivity | discriminate].
Qed.

Lemma sum_ltv_ok (users : list attrs) (total : number) :
  sum_ltv users = Ok total -> forallb has_numeric_ltv users = true.
Proof. intros H. apply sum_ltv_from in H. apply H. Qed.

(** X8. [analyze_cohort] reads ["ltv"] with [u["ltv"]] and adds the values
    up: it returns only if every user the scan collected has a numeric
    ["ltv"], and raises as soon as one of them has none or one that is not
    a number. The users collected are attribute dictionaries of [User]
    nodes that pass the filter. *)
Theorem analyze_cohort_needs_numeric_ltv (G : Graph) (selection : user_filter)
    (sample_size : Z) (a : cohort_acc) :
  run (scan_cohort selection sample_size) G = Ok a ->
  Forall (cohort_member G selection) (acc_users a)
  /\ (forall A, run (analyze_cohort selection sample_size) G = Ok A ->
                user_count A = len (acc_users a)
                /\ forallb has_numeric_ltv (acc_users a) = true)
  /\ (forallb has_numeric_ltv (acc_users a) = false ->
      exists e, run (analyze_cohort selection sample_size) G = Err e).
Proof.
  intros Ha.
  assert (Hret : forall A, run (analyze_cohort selection sample_size) G = Ok A ->
                           user_count A = len (acc_users a)
                           /\ forallb has_numeric_ltv (acc_users a) = true).
  { intros A H. unfold analyze_cohort in H.
    apply run_bind_ok in H as (a' & Ha' & H); [|solve [ro]].
    rewrite Ha in Ha'. injection Ha' as <-.
    apply run_bind_ok in H as (avg_events & _ & H); [|solve [ro]].
    apply run_bind_ok in H as (avg_ltv0 & Hltv & H); [|solve [ro]].
    apply run_bind_ok in H as (rate & _ & H); [|solve [ro]].
    rewrite run_lift in Hltv. inversion H; subst A; clear H. simpl.
    split; [reflexivity|].
    destruct (acc_users a) as [|u users] eqn:U; [reflexivity|].
    apply rbind_ok in Hltv as (total & Hsum & _).
    exact (sum_ltv_ok _ _ Hsum). }
  split; [apply (scan_cohort_ok G selection sample_size a Ha)|].
  split; [exact Hret|].
  intros Hbad. destruct (run (analyze_cohort selection sample_size) G) as [A|e].
  - destruct (Hret A eq_refl) as [_ Hgood]. congruence.
  - eauto.
Qed.

Lemma analyze_cohort_needs_numeric_ltv_witness :
  Forall (cohort_member no_ltv_graph [("segment", VStr "new")])
         (acc_users (mkAcc [node "User" [("user_id", VInt 9); ("segment", VStr "new")]]
                           [] [] 0 0))
  /\ (forall A, run (analyze_cohort [("segment", VStr "new")] 50) no_ltv_graph = Ok A ->
                user_count A
                = len (acc_users (mkAcc [node "User" [("user_id", VInt 9);
                                                      ("segment", VStr "new")]]
                                        [] [] 0 0))
                /\ forallb has_numeric_ltv
                     (acc_users (mkAcc [node "User" [("user_id", VInt 9);
                                                     ("segment", VStr "new")]]
                                       [] [] 0 0)) = true)
  /\ (forallb has_numeric_ltv
        (acc_users (mkAcc [node "User" [("user_id", VInt 9); ("segment", VStr "new")]]
                          [] [] 0 0)) = false ->
      exists e, run (analyze_cohort [("segment", VStr "new")] 50) no_ltv_graph = Err e).
Proof.
  apply (analyze_cohort_needs_numeric_ltv no_ltv_graph [("segment", VStr "new")] 50).
  vm_compute. reflexivity.
Defined.

(** ** The keys of a comparison *)

(** X9. [compare_cohorts] builds its result as a dictionary literal keyed
    by the two cohort names and ["comparison"], so a later key replaces an
    earlier equal one: with the same name for both cohorts only the second
    cohort's statistics are returned, and a cohort named ["comparison"] is
    replaced by the block of differences. That block is always present. *)
Theorem compare_cohorts_keys (G : Graph) (fa fb : user_filter)
    (name_a name_b : string) (sample_size : Z) (r : list (string * metrics)) :
  run (compare_cohorts fa fb name_a name_b sample_size) G = Ok r ->
  exists A B d,
    run (analyze_cohort fa sample_size) G = Ok A
    /\ run (analyze_cohort fb sample_size) G = Ok B
    /\ differences A B = Ok d
    /\ dict_get r "comparison" = Some d
    /\ (name_a = name_b -> name_b <> "comparison" ->
        r = [(name_b, stats_dict B); ("comparison", d)])
    /\ (name_a = "comparison" -> name_b = "comparison" -> r = [("comparison", d)])
    /\ (name_a = "comparison" -> name_b <> "comparison" ->
        r = [("comparison", d); (name_b, stats_dict B)])
    /\ (name_a <> "comparison" -> name_b = "comparison" ->
        r = [(name_a, stats_dict A); ("comparison", d)]).
Proof.
  intros H. unfold compare_cohorts in H.
  apply run_bind_ok in H as (A & HA & H); [|solve [ro]].
  apply run_bind_ok in H as (B & HB & H); [|solve [ro]].
  apply run_bind_ok in H as (d & Hd & H); [|solve [ro]].
  rewrite run_lift in Hd. rewrite run_ret in H. injection H as <-.
  exists A, B, d. split; [exact HA|]. split; [exact HB|]. split; [exact Hd|].
  split; [apply dict_get_set_same|].
  split; [|split; [|split]].
  - intros -> Hne. apply String.eqb_neq in Hne.
    cbn [dict_set]. rewrite String.eqb_refl. cbn [dict_set]. rewrite Hne.
    reflexivity.
  - intros -> ->. reflexivity.
  - intros -> Hne.
    assert (Hne' : String.eqb "comparison" name_b = false)
      by (apply String.eqb_neq; congruence).
    cbn [dict_set]. rewrite Hne'. cbn [dict_set]. rewrite String.eqb_refl.
    reflexivity.
  - intros Hne ->. apply String.eqb_neq in Hne.
    cbn [dict_set]. rewrite Hne. cbn [dict_set]. rewrite String.eqb_refl, Hne.
    reflexivity.
Qed.

Lemma compare_cohorts_keys_witness :
  exists A B d,
    run (analyze_cohort [("segment", VStr "high_value")] 50) cohort_graph = Ok A
    /\ run (analyze_cohort [("segment", VStr "low")] 50) cohort_graph = Ok B
    /\ differences A B = Ok d
    /\ dict_get collided_comparison "comparison" = Some d
    /\ ("Users" = "Users" -> "Users" <> "comparison" ->
        collided_comparison = [("Users", stats_dict B); ("comparison", d)])
    /\ ("Users" = "comparison" -> "Users" = "comparison" ->
        collided_comparison = [("comparison", d)])
    /\ ("Users" = "comparison" -> "Users" <> "comparison" ->
        collided_comparison = [("comparison", d); ("Users", stats_dict B)])
    /\ ("Users" <> "comparison" -> "Users" = "comparison" ->
        collided_comparison = [("Users", stats_dict A); ("comparison", d)]).
Proof.
  apply (compare_cohorts_keys cohort_graph [("segment", VStr "high_value")]
           [("segment", VStr "low")] "Users" "Users" 50 collided_comparison).
  vm_compute. reflexivity.
Defined.

(* ===================================================================== *)
(** ** Conversion and churn paths *)
(* ===================================================================== *)

(** A loop that adds at most one item per iteration. *)
Lemma for_each_growth {A St} (size : St -> Z) (body : A -> St -> M (ctl St)) G :
  (forall x s, read_only (body x s)) ->
  (forall x s c, run (body x s) G = Ok c -> size (ctl_state c) <= size s + 1) ->
  forall l s s', run (for_each l body s) G = Ok s' -> size s' <= size s + len l.
Proof.
  intros Hro Hstep l. induction l as [|x l IH]; simpl; intros s s' H.
  - inversion H; subst. unfold len. simpl. lia.
  - apply run_bind_ok in H as (c & Hc & H); [|apply Hro].
    apply Hstep in Hc.
    assert (L : len (x :: l) = len l + 1).
    { unfold len. change (List.length (x :: l)) with (S (List.length l)). lia. }
    rewrite L. destruct c as [s1|s1]; simpl in Hc.
    + apply IH in H. lia.
    + inversion H; subst. pose proof (len_nonneg l). lia.
Qed.

Lemma find_journey_some (sid : value) (js : list journey) (j : journey) :
  find_journey sid js = Some j -> In j js /\ py_eqb (session_id j) sid = true.
Proof. unfold find_journey. intros H. apply find_some in H. exact H. Qed.

Lemma only_journey (js : list journey) (j : journey) :
  len js <= 1 -> In j js -> js = [j].
Proof.
  destruct js as [|j1 [|j2 js]]; unfold len; simpl; intros L H.
  - contradiction.
  - destruct H as [->|[]]. reflexivity.
  - lia.
Qed.

Lemma first_journey (uid sid : value) (G : Graph) js j :
  run (extract_user_journeys uid 1) G = Ok js ->
  find_journey sid js = Some j ->
  run (extract_user_journeys uid 1) G = Ok [j]
  /\ py_eqb (session_id j) sid = true.
Proof.
  intros Hjs Hf. apply find_journey_some in Hf as [Hin Heq].
  split; [|exact Heq].
  rewrite Hjs. f_equal. apply only_journey; [|exact Hin].
  eapply extract_user_journeys_at_most; [|exact Hjs]. lia.
Qed.

Lemma churn_paths_step (G : Graph) (session_node : string) (paths : list path)
    (c : ctl (list path)) :
  owns_terminal G "exit" session_node ->
  run (let* session_data := node_attrs session_node in
       let session_id0 := get session_data "session_id" in
       let* user_node := user_of_session session_node in
       match user_node with
       | Some un =>
           if String.eqb un "" then ret (Continue paths)
           else
             let* user_data := node_attrs un in
             let user_id := get user_data "user_id" in
             let* user_ctx := get_user_context user_id in
             match user_ctx with
             | Some ctx =>
                 if truthy (ctx_churned ctx) then
                   let* journeys := extract_user_journeys user_id 1 in
                   match find_journey session_id0 journeys with
                   | Some j =>
                       ret (Continue (paths +++ [mkPath (Some (user_id, Some ctx)) j]))
                   | None => ret (Continue paths)
                   end
                 else ret (Continue paths)
             | None => ret (Continue paths)
             end
       | None => ret (Continue paths)
       end) G = Ok c ->
  ctl_state c = paths
  \/ exists p, ctl_state c = paths +++ [p] /\ churn_path G p.
Proof.
  intros Hown H.
  apply run_bind_ok in H as (session_data & Hsd & H); [|solve [ro]].
  apply run_bind_ok in H as (user_node & _ & H); [|solve [ro]].
  destruct user_node as [un|]; [|inversion H; auto].
  destruct (String.eqb un ""); [inversion H; auto|].
  apply run_bind_ok in H as (user_data & _ & H); [|solve [ro]].
  apply run_bind_ok in H as (user_ctx & Hctx & H); [|solve [ro]].
  destruct user_ctx as [ctx|]; [|inversion H; auto].
  destruct (truthy (ctx_churned ctx)) eqn:Ch; [|inversion H; auto].
  apply run_bind_ok in H as (journeys & Hjs & H); [|solve [ro]].
  destruct (find_journey (get session_data "session_id") journeys) as [j|] eqn:F;
    [|inversion H; auto].
  inversion H; subst c; clear H. right. eexists. split; [reflexivity|].
  destruct (first_journey _ _ _ _ _ Hjs F) as [H1 H2].
  exists (get user_data "user_id"), ctx, session_node, session_data.
  simpl. auto 10.
Qed.

Lemma conversion_paths_step (G : Graph) (session_node : string)
    (paths : list path) (c : ctl (list path)) :
  owns_terminal G "purchase" session_node ->
  run (let* session_data := node_attrs session_node in
       let session_id0 := get session_data "session_id" in
       let* user_node := user_of_session session_node in
       match user_node with
       | Some un =>
           if String.eqb un "" then ret (Continue paths)
           else
             let* user_data := node_attrs un in
             let user_id := get user_data "user_id" in
             let* journeys := extract_user_journeys user_id 1 in
             match find_journey session_id0 journeys with
             | Some j =>
                 let* ctx := get_user_context user_id in
                 ret (Continue (paths +++ [mkPath (Some (user_id, ctx)) j]))
             | None => ret (Continue paths)
             end
       | None => ret (Continue paths)
       end) G = Ok c ->
  ctl_state c = paths
  \/ exists p, ctl_state c = paths +++ [p] /\ conversion_path G p.
Proof.
  intros Hown H.
  apply run_bind_ok in H as (session_data & Hsd & H); [|solve [ro]].
  apply run_bind_ok in H as (user_node & _ & H); [|solve [ro]].
  destruct user_node as [un|]; [|inversion H; auto].
  destruct (String.eqb un ""); [inversion H; auto|].
  apply run_bind_ok in H as (user_data & _ & H); [|solve [ro]].
  apply run_bind_ok in H as (journeys & Hjs & H); [|solve [ro]].
  destruct (find_journey (get session_data "session_id") journeys) as [j|] eqn:F;
    [|inversion H; auto].
  apply run_bind_ok in H as (ctx & Hctx & H); [|solve [ro]].
  inversion H; subst c; clear H. right. eexists. split; [reflexivity|].
  destruct (first_journey _ _ _ _ _ Hjs F) as [H1 H2].
  exists (get user_data "user_id"), ctx, session_node, session_data.
  simpl. auto 10.
Qed.

(** X10. [find_churn_paths] returns at most [max(limit, 1)] paths. Each is
    the journey of a user whose context says churned, and it is the one
    journey [extract_user_journeys] returns for that user with
    [max_sessions = 1]: an exit session that is not the first session of
    its user is never returned. Its session id is that of a session ending
    in an [exit] event. *)
Theorem churn_paths_are_first_sessions (G : Graph) (limit : Z) (paths : list path) :
  run (find_churn_paths limit) G = Ok paths ->
  len paths <= Z.max limit 1 /\ Forall (churn_path G) paths.
Proof.
  intros H. unfold find_churn_paths in H.
  apply run_bind_ok in H as (exit_sessions & Hs & H); [|solve [ro]].
  apply outcome_scan_ok in Hs as [Hlen Hown]. split.
  - apply (for_each_growth (@len path)) in H.
    + unfold len at 2 in H. simpl in H. lia.
    + intros; ro.
    + intros x s c Hc.
      assert (E : ctl_state c = s \/ exists p, ctl_state c = s +++ [p]).
      { clear - Hc.
        apply run_bind_ok in Hc as (session_data & _ & Hc); [|solve [ro]].
        apply run_bind_ok in Hc as (user_node & _ & Hc); [|solve [ro]].
        destruct user_node as [un|]; [|inversion Hc; auto].
        destruct (String.eqb un ""); [inversion Hc; auto|].
        apply run_bind_ok in Hc as (user_data & _ & Hc); [|solve [ro]].
        apply run_bind_ok in Hc as (user_ctx & _ & Hc); [|solve [ro]].
        destruct user_ctx as [ctx|]; [|inversion Hc; auto].
        destruct (truthy (ctx_churned ctx)); [|inversion Hc; auto].
        apply run_bind_ok in Hc as (journeys & _ & Hc); [|solve [ro]].
        destruct (find_journey _ journeys); inversion Hc; simpl; eauto. }
      destruct E as [->|[p ->]]; [|rewrite len_app_one]; lia.
  - apply (for_each_invariant_break (Forall (churn_path G)) (Forall (churn_path G)))
      in H.
    + destruct H; assumption.
    + intros; ro.
    + intros x s c Hin Hall Hc.
      rewrite Forall_forall in Hown.
      destruct (churn_paths_step G x s c (Hown x Hin) Hc) as [E|[p [E Hp]]].
      * destruct c; simpl in E; subst; assumption.
      * assert (Forall (churn_path G) (s +++ [p]))
          by (apply Forall_app; split; [assumption | repeat constructor; assumption]).
        destruct c; simpl in E; subst; assumption.
    + constructor.
Qed.

(** X11. [find_conversion_paths] returns at most [max(limit, 1)] paths, each
    the one journey [extract_user_journeys] returns for its user with
    [max_sessions = 1], with the context [get_user_context] gives for that
    user: a purchase session that is not the first session of its user is
    never returned. Its session id is that of a session ending in a
    [purchase] event. *)
Theorem conversion_paths_are_first_sessions (G : Graph) (limit : Z)
    (paths : list path) :
  run (find_conversion_paths limit) G = Ok paths ->
  len paths <= Z.max limit 1 /\ Forall (conversion_path G) paths.
Proof.
  intros H. unfold find_conversion_paths in H.
  apply run_bind_ok in H as (purchase_sessions & Hs & H); [|solve [ro]].
  apply outcome_scan_ok in Hs as [Hlen Hown]. split.
  - apply (for_each_growth (@len path)) in H.
    + unfold len at 2 in H. simpl in H. lia.
    + intros; ro.
    + intros x s c Hc.
      assert (E : ctl_state c = s \/ exists p, ctl_state c = s +++ [p]).
      { clear - Hc.
        apply run_bind_ok in Hc as (session_data & _ & Hc); [|solve [ro]].
        apply run_bind_ok in Hc as (user_node & _ & Hc); [|solve [ro]].
        destruct user_node as [un|]; [|inversion Hc; auto].
        destruct (String.eqb un ""); [inversion Hc; auto|].
        apply run_bind_ok in Hc as (user_data & _ & Hc); [|solve [ro]].
        apply run_bind_ok in Hc as (journeys & _ & Hc); [|solve [ro]].
        destruct (find_journey _ journeys); [|inversion Hc; auto].
        apply run_bind_ok in Hc as (ctx & _ & Hc); [|solve [ro]].
        inversion Hc; simpl; eauto. }
      destruct E as [->|[p ->]]; [|rewrite len_app_one]; lia.
  - apply (for_each_invariant_break (Forall (conversion_path G))
                                    (Forall (conversion_path G))) in H.
    + destruct H; assumption.
    + intros; ro.
    + intros x s c Hin Hall Hc.
      rewrite Forall_forall in Hown.
      destruct (conversion_paths_step G x s c (Hown x Hin) Hc) as [E|[p [E Hp]]].
      * destruct c; simpl in E; subst; assumption.
      * assert (Forall (conversion_path G) (s +++ [p]))
          by (apply Forall_app; split; [assumption | repeat constructor; assumption]).
        destruct c; simpl in E; subst; assumption.
    + constructor.
Qed.

Lemma churn_paths_are_first_sessions_witness :
  len [churned_user_path] <= Z.max 5 1
  /\ Forall (churn_path churned_user_graph) [churned_user_path].
Proof.
  apply (churn_paths_are_first_sessions churned_user_graph 5).
  vm_compute. reflexivity.
Defined.

Lemma conversion_paths_are_first_sessions_witness :
  len [sample_conversion_path] <= Z.max 5 1
  /\ Forall (conversion_path sample_graph) [sample_conversion_path].
Proof.
  apply (conversion_paths_are_first_sessions sample_graph 5).
  vm_compute. reflexivity.
Defined.

(* ===================================================================== *)
(** ** The product-centric scans *)
(* ===================================================================== *)

Lemma walk_back_invariant {St} (I : St -> Prop) (visit : string -> St -> M St) G :
  (forall n s, read_only (visit n s)) ->
  (forall n s s', I s -> run (visit n s) G = Ok s' -> I s') ->
  forall start s s', I s -> run (walk_back visit start s) G = Ok s' -> I s'.
Proof.
  intros Hro Hv start s s' Hs H. unfold walk_back in H.
  apply run_bind_ok in H as ([last s1] & Hloop & H);
    [|apply ro_for_each; intros; apply ro_walk_step; assumption].
  rewrite run_ret in H. injection H as <-.
  apply (for_each_invariant (fun st => I (snd st))) in Hloop; [exact Hloop | | |exact Hs].
  - intros; apply ro_walk_step; assumption.
  - intros i [current s0] c Hs0 Hc. simpl in Hs0.
    rewrite run_walk_step in Hc by assumption.
    destruct (run (previous_event current) G) as [[prev|]|e];
      [|inversion Hc; assumption | discriminate].
    destruct (String.eqb prev ""); [inversion Hc; assumption|].
    destruct (run (visit prev s0) G) as [s2|e] eqn:V; [|discriminate].
    inversion Hc. simpl. eapply Hv; eassumption.
Qed.

Lemma tally_viewed_ok (G : Graph) n s s' :
  views_ok s -> run (tally_viewed n s) G = Ok s' -> views_ok s'.
Proof.
  intros Hs H. unfold tally_viewed in H.
  apply run_bind_ok in H as (event_data & _ & H); [|solve [ro]].
  destruct (py_eqb (get event_data "event_type") (VStr "page_view")
            || py_eqb (get event_data "event_type") (VStr "click"));
    [|rewrite run_ret in H; injection H as <-; assumption].
  apply run_bind_ok in H as (succs & _ & H); [|solve [ro]].
  apply (for_each_invariant views_ok) in H; [exact H | | |exact Hs].
  - intros x [c p]. ro.
  - intros succ [cats prods] c (Hc & Hp & Ht) Hrun. simpl in Hc, Hp, Ht.
    apply run_bind_ok in Hrun as (is_product & _ & Hrun); [|solve [ro]].
    destruct is_product.
    + apply run_bind_ok in Hrun as (prod_data & _ & Hrun); [|solve [ro]].
      rewrite run_ret in Hrun. injection Hrun as <-.
      unfold views_ok. simpl. rewrite !counter_incr_total.
      repeat split; try (apply counter_incr_counted; assumption). lia.
    + rewrite run_ret in Hrun. injection Hrun as <-.
      unfold views_ok. simpl. auto.
Qed.

Lemma length_most_common {K} (n : nat) (c : counter K) :
  (List.length (most_common n c) <= n)%nat.
Proof. unfold most_common. rewrite length_firstn. lia. Qed.

(** Read-only goals that contain a backward walk. *)
Ltac rw := ro; try (apply ro_walk_back; intros; auto with ro).

(** X12. [find_products_before_purchase] analyzes at most [max(limit, 1)]
    purchases. Each of its two rankings is the ten most common entries of a
    counter of positive counts; the two counters have counted the same
    number of product views, and both are empty when no purchase was
    analyzed. *)
Theorem products_before_purchase_report (G : Graph) (category_filter : option string)
    (limit : Z) (r : purchase_report) :
  run (find_products_before_purchase category_filter limit) G = Ok r ->
  0 <= total_purchases_analyzed r <= Z.max limit 1
  /\ (List.length (categories_viewed_before_purchase r) <= 10)%nat
  /\ (List.length (top_products_viewed r) <= 10)%nat
  /\ exists categories products,
       categories_viewed_before_purchase r = most_common 10 categories
       /\ top_products_viewed r = most_common 10 products
       /\ counted categories
       /\ counted products
       /\ counter_total categories = counter_total products
       /\ (total_purchases_analyzed r = 0 -> categories = [] /\ products = []).
Proof.
  intros H. unfold find_products_before_purchase in H.
  apply run_bind_ok in H as (nodes & Hn & H); [|solve [rw]].
  inversion Hn; subst nodes; clear Hn.
  apply run_bind_ok in H as ([viewed total] & Hloop & H);
    [|apply ro_for_each; intros [? ?] [? ?]; rw].
  rewrite run_ret in H. injection H as <-. simpl.
  apply (for_each_invariant_break
           (fun st => views_ok (fst st) /\ 0 <= snd st /\ snd st < Z.max limit 1
                      /\ (snd st = 0 -> fst st = ([], [])))
           (fun st => views_ok (fst st) /\ 0 <= snd st /\ snd st <= Z.max limit 1
                      /\ (snd st = 0 -> fst st = ([], []))))
    in Hloop.
  - assert (Hfin : views_ok viewed /\ 0 <= total /\ total <= Z.max limit 1
                   /\ (total = 0 -> viewed = ([], []))).
    { destruct Hloop as [(? & ? & ? & ?)|(? & ? & ? & ?)]; simpl in *;
        (split; [assumption|]; split; [assumption|]; split; [lia | assumption]). }
    destruct Hfin as ((Hc & Hp & Ht) & H0 & Hmax & Hempty).
    split; [lia|]. split; [apply length_most_common|].
    split; [apply length_most_common|].
    exists (fst viewed), (snd viewed).
    split; [reflexivity|]. split; [reflexivity|].
    split; [exact Hc|]. split; [exact Hp|]. split; [exact Ht|].
    intros Z0. rewrite (Hempty Z0). split; reflexivity.
  - intros [? ?] [? ?]; rw.
  - intros [node data] [viewed0 total0] c Hin (Hv & H0 & Hlt & Hempty) Hc.
    simpl in Hv, H0, Hlt, Hempty.
    destruct (has_type data "Event"); simpl in Hc;
      [|inversion Hc; subst; simpl; auto].
    destruct (py_eqb (get data "event_type") (VStr "purchase")); simpl in Hc;
      [|inversion Hc; subst; simpl; auto].
    apply run_bind_ok in Hc as (keep & _ & Hc); [|solve [rw]].
    destruct keep; simpl in Hc; [|inversion Hc; subst; simpl; auto].
    apply run_bind_ok in Hc as (viewed1 & Hw & Hc); [|solve [rw]].
    apply (walk_back_invariant views_ok tally_viewed G ro_tally_viewed
             (tally_viewed_ok G) node viewed0 viewed1 Hv) in Hw.
    destruct (limit <=? total0 + 1) eqn:L; inversion Hc; subst c; simpl.
    + repeat split; try apply Hw; try lia.
    + apply Z.leb_gt in L. repeat split; try apply Hw; try lia.
  - simpl. unfold views_ok, counted. simpl.
    repeat split; try constructor; try lia.
Qed.

Lemma products_before_purchase_report_witness :
  0 <= total_purchases_analyzed
         sample_purchase_report
    <= Z.max 50 1
  /\ (List.length (categories_viewed_before_purchase
                     sample_purchase_report) <= 10)%nat
  /\ (List.length (top_products_viewed
                     sample_purchase_report) <= 10)%nat
  /\ exists categories products,
       categories_viewed_before_purchase
         sample_purchase_report
       = most_common 10 categories
       /\ top_products_viewed
            sample_purchase_report
          = most_common 10 products
       /\ counted categories
       /\ counted products
       /\ counter_total categories = counter_total products
       /\ (total_purchases_analyzed
             sample_purchase_report = 0 ->
           categories = [] /\ products = []).
Proof.
  apply (products_before_purchase_report sample_graph None 50).
  vm_compute. reflexivity.
Defined.

Lemma check_category_ok (c : string) (G : Graph) (patterns0 : counter value) n w w' :
  counted patterns0 ->
  exit_walk_ok patterns0 w ->
  run (check_category c n w) G = Ok w' ->
  exit_walk_ok patterns0 w'.
Proof.
  intros Hp0 (Hc & H0 & Hv & Hnv) H. unfold check_category in H.
  apply run_bind_ok in H as (event_data & _ & H); [|solve [rw]].
  apply run_bind_ok in H as (succs & _ & H); [|solve [rw]].
  apply run_bind_ok in H as (hit & _ & H); [|solve [rw]].
  destruct hit; rewrite run_ret in H; injection H as <-;
    unfold exit_walk_ok; simpl.
  - split; [apply counter_incr_counted; assumption|]. split; [lia|].
    split; [|discriminate]. intros _. rewrite counter_incr_total.
    split; [|lia]. destruct (viewed_category w).
    + destruct (Hv eq_refl). lia.
    + rewrite (Hnv eq_refl). lia.
  - split; [assumption|]. split; [lia|]. split; [|assumption].
    intros V. destruct (Hv V). split; lia.
Qed.

Lemma walk_back_count_bound (c : string) (G : Graph) start w w' :
  run (walk_back (check_category c) start w) G = Ok w' ->
  events_count w' <= events_count w + 20.
Proof.
  intros H.
  pose proof (walk_back_traced (check_category c) G (ro_check_category c)
                events_count 1 (check_category_counts c G) start w) as T.
  destruct (run (walk_back (traced (check_category c)) start (w, [])) G)
    as [[w1 hops]|e].
  - destruct T as (T1 & T2 & _ & T4). rewrite T1 in H. injection H as <-. lia.
  - rewrite T in H. discriminate.
Qed.

(** X13. [find_exit_points_after_category] counts at most [max(limit, 1)]
    exits. Each counted exit contributes the number of events its backward
    walk passed, between 1 and 20; the average is that of these numbers,
    rounded to two places, and the integer 0 when no exit was counted. The
    ranking of event types is the five most common of a counter that holds
    at least one count per counted exit and nothing when none was
    counted. *)
Theorem exit_points_report (G : Graph) (category : string) (limit : Z)
    (r : exit_report) :
  run (find_exit_points_after_category category limit) G = Ok r ->
  report_category r = category
  /\ 0 <= exits_after_viewing r <= Z.max limit 1
  /\ (List.length (last_event_before_exit r) <= 5)%nat
  /\ exists events_before_exit patterns,
       exits_after_viewing r = len events_before_exit
       /\ Forall (fun n => 1 <= n <= 20) events_before_exit
       /\ (events_before_exit = [] -> avg_events_before_exit r = NInt 0)
       /\ (events_before_exit <> [] ->
           exists mean,
             py_truediv (NInt (sum_Z events_before_exit))
                        (NInt (len events_before_exit)) = Ok mean
             /\ avg_events_before_exit r = py_round mean 2)
       /\ last_event_before_exit r = most_common 5 patterns
       /\ counted patterns
       /\ exits_after_viewing r <= counter_total patterns
       /\ (exits_after_viewing r = 0 -> patterns = []).
Proof.
  intros H. unfold find_exit_points_after_category in H.
  apply run_bind_ok in H as (nodes & Hn & H); [|solve [rw]].
  inversion Hn; subst nodes; clear Hn.
  apply run_bind_ok in H as ([[exits patterns] counts] & Hloop & H);
    [|apply ro_for_each; intros [? ?] [[? ?] ?]; rw].
  apply run_bind_ok in H as (avg & Havg & H); [|solve [rw]].
  rewrite run_lift in Havg. rewrite run_ret in H. injection H as <-. simpl.
  set (inv := fun (bound : Z -> Prop) (st : Z * counter value * list Z) =>
                let '(exits, patterns, counts) := st in
                exits = len counts
                /\ Forall (fun n => 1 <= n <= 20) counts
                /\ counted patterns
                /\ exits <= counter_total patterns
                /\ (exits = 0 -> patterns = [])
                /\ bound exits).
  apply (for_each_invariant_break
           (inv (fun n => n < Z.max limit 1))
           (inv (fun n => n <= Z.max limit 1))) in Hloop.
  - assert (Hfin : inv (fun n => n <= Z.max limit 1) (exits, patterns, counts)).
    { destruct Hloop as [Hl|Hl]; [|exact Hl]. unfold inv in *.
      destruct Hl as (? & ? & ? & ? & ? & ?). repeat split; try assumption. lia. }
    unfold inv in Hfin. destruct Hfin as (He & Hall & Hcnt & Htot & Hz & Hb).
    split; [reflexivity|]. split; [pose proof (len_nonneg counts); lia|].
    split; [apply length_most_common|].
    exists counts, patterns.
    split; [exact He|]. split; [exact Hall|]. split.
    { intros E. rewrite E in Havg. injection Havg as <-. reflexivity. }
    split.
    { intros Hne. destruct counts as [|n counts']; [contradiction|].
      exists avg. split; [exact Havg | reflexivity]. }
    repeat split; assumption.
  - intros [? ?] [[? ?] ?]; rw.
  - intros [node data] [[exits0 patterns0] counts0] c Hin Hinv Hc.
    unfold inv in Hinv. destruct Hinv as (He & Hall & Hcnt & Htot & Hz & Hb).
    destruct (has_type data "Event"); simpl in Hc;
      [|inversion Hc; subst; unfold inv; auto 10].
    destruct (py_eqb (get data "event_type") (VStr "exit")); simpl in Hc;
      [|inversion Hc; subst; unfold inv; auto 10].
    apply run_bind_ok in Hc as (w & Hw & Hc); [|solve [rw]].
    pose proof (walk_back_count_bound _ _ _ _ _ Hw) as Hhops. simpl in Hhops.
    apply (walk_back_invariant (exit_walk_ok patterns0) (check_category category) G
             (ro_check_category category)
             (fun n s s' => check_category_ok category G patterns0 n s s' Hcnt)
             node (mkExitWalk false 0 patterns0) w) in Hw.
    2:{ unfold exit_walk_ok. simpl. repeat split; try assumption; try lia;
        discriminate. }
    destruct Hw as (Wc & W0 & Wv & Wnv).
    pose proof (len_nonneg counts0) as Hn0.
    destruct (viewed_category w) eqn:V.
    + destruct (Wv eq_refl) as [Wt We].
      assert (Hall' : Forall (fun n => 1 <= n <= 20) (counts0 +++ [events_count w])).
      { apply Forall_app. split; [assumption|]. repeat constructor; lia. }
      destruct (limit <=? exits0 + 1) eqn:L; inversion Hc; subst c; unfold inv;
        rewrite len_app_one.
      * repeat split; try assumption; intros; lia.
      * apply Z.leb_gt in L. repeat split; try assumption; intros; lia.
    + rewrite (Wnv eq_refl) in Hc.
      destruct (limit <=? exits0) eqn:L; inversion Hc; subst c; unfold inv.
      * repeat split; try assumption; lia.
      * repeat split; try assumption; lia.
  - unfold inv, len, counted, counter_total. simpl.
    repeat split; try constructor; try lia.
Qed.

Lemma exit_points_report_witness :
  report_category cyclic_exit_report
  = "Electronics"
  /\ 0 <= exits_after_viewing
            cyclic_exit_report
       <= Z.max 50 1
  /\ (List.length (last_event_before_exit
                     cyclic_exit_report) <= 5)%nat
  /\ exists events_before_exit patterns,
       exits_after_viewing
         cyclic_exit_report
       = len events_before_exit
       /\ Forall (fun n => 1 <= n <= 20) events_before_exit
       /\ (events_before_exit = [] ->
           avg_events_before_exit
             cyclic_exit_report
           = NInt 0)
       /\ (events_before_exit <> [] ->
           exists mean,
             py_truediv (NInt (sum_Z events_before_exit))
                        (NInt (len events_before_exit)) = Ok mean
             /\ avg_events_before_exit
                  cyclic_exit_report
                = py_round mean 2)
       /\ last_event_before_exit
            cyclic_exit_report
          = most_common 5 patterns
       /\ counted patterns
       /\ exits_after_viewing
            cyclic_exit_report
          <= counter_total patterns
       /\ (exits_after_viewing
             cyclic_exit_report
           = 0 -> patterns = []).
Proof.
  apply (exit_points_report cyclic_graph "Electronics" 50).
  vm_compute. reflexivity.
Defined.

(* ===================================================================== *)
(** ** What the narration can print *)
(* ===================================================================== *)

Lemma py_format_2f_ok (v : value) :
  formats v = true -> exists s, py_format_2f v = Ok s.
Proof.
  destruct v as [|b|z|f|s]; simpl; try discriminate; intros H.
  - destruct b; vm_compute; eexists; reflexivity.
  - unfold py_format_2f, to_float. simpl.
    destruct (is_inf (of_Z z)); [discriminate|]. simpl. eexists. reflexivity.
  - eexists. reflexivity.
Qed.

Lemma py_format_2f_errors (v : value) (x : exn) :
  py_format_2f v = Err x -> format_error x.
Proof.
  unfold format_error.
  destruct v as [|b|z|f|s]; simpl; intros H; try (injection H as <-; auto).
  - destruct b; vm_compute in H; discriminate.
  - unfold to_float in H. destruct (is_inf (of_Z z)); simpl in H;
      [injection H as <-; auto | discriminate].
  - discriminate.
Qed.

Lemma py_format_2f_fails (v : value) :
  formats v = false -> exists x, py_format_2f v = Err x.
Proof.
  destruct v as [|b|z|f|s]; simpl; try discriminate; intros H.
  - eexists. reflexivity.
  - unfold py_format_2f, to_float. simpl.
    destruct (is_inf (of_Z z)); [|discriminate]. simpl. eexists. reflexivity.
  - eexists. reflexivity.
Qed.

Lemma describe_event_ok (e : event_view) :
  describable e = true -> exists s, describe_event e = Ok (VStr s).
Proof.
  unfold describable, describe_event. intros H.
  apply andb_true_iff in H as [Ht Hp].
  destruct (event_type e) as [| | | |ty]; try discriminate.
  destruct (products e) as [|prod rest]; [eexists; reflexivity|].
  destruct (py_format_2f_ok _ Hp) as [price ->]. simpl. eexists. reflexivity.
Qed.

Lemma describe_event_errors (e : event_view) (x : exn) :
  describe_event e = Err x -> format_error x.
Proof.
  unfold describe_event. destruct (products e) as [|prod rest]; [discriminate|].
  destruct (py_format_2f (get_or prod "price" (VInt 0))) as [price|x'] eqn:P; simpl.
  - destruct (event_type e); simpl; intros H; try discriminate;
      injection H as <-; unfold format_error; auto.
  - intros H. injection H as <-. eapply py_format_2f_errors. exact P.
Qed.

Lemma describe_event_bad (e : event_view) :
  describable e = false ->
  (exists x, describe_event e = Err x)
  \/ (exists v, describe_event e = Ok v /\ as_str v = Err TypeError).
Proof.
  unfold describable, describe_event. intros H.
  destruct (products e) as [|prod rest].
  - rewrite andb_true_r in H. right. exists (event_type e). split; [reflexivity|].
    destruct (event_type e); try reflexivity. discriminate.
  - destruct (py_format_2f (get_or prod "price" (VInt 0))) as [price|x] eqn:P; simpl.
    + destruct (event_type e) as [| | | |ty]; simpl; eauto.
      simpl in H. apply py_format_2f_fails in H as [x Hx]. congruence.
    + eauto.
Qed.

Lemma rmap_describe_errors (evs : list event_view) (x : exn) :
  rmap describe_event evs = Err x -> format_error x.
Proof.
  induction evs as [|e evs IH]; simpl; [discriminate|].
  destruct (describe_event e) as [v|x'] eqn:D; simpl.
  - destruct (rmap describe_event evs) as [vs|x'']; simpl; [discriminate|].
    intros H. injection H as <-. apply IH. reflexivity.
  - intros H. injection H as <-. eapply describe_event_errors. exact D.
Qed.

Lemma narration_ok (evs : list event_view) :
  forallb describable evs = true ->
  exists parts texts,
    rmap describe_event evs = Ok parts /\ rmap as_str parts = Ok texts.
Proof.
  induction evs as [|e evs IH]; simpl; intros H.
  - exists [], []. split; reflexivity.
  - apply andb_true_iff in H as [He Hevs].
    destruct (describe_event_ok e He) as [s ->].
    destruct (IH Hevs) as (parts & texts & -> & Ht). simpl.
    exists (VStr s :: parts), (s :: texts). split; [reflexivity|].
    simpl. rewrite Ht. reflexivity.
Qed.

Lemma narration_bad (evs : list event_view) :
  forallb describable evs = false ->
  (exists x, rmap describe_event evs = Err x)
  \/ (exists parts,
         rmap describe_event evs = Ok parts
         /\ parts <> []
         /\ rmap as_str parts = Err TypeError).
Proof.
  induction evs as [|e evs IH]; simpl; intros H; [discriminate|].
  destruct (describable e) eqn:De; simpl in H.
  - destruct (describe_event_ok e De) as [s ->]. simpl.
    destruct (IH H) as [[x ->]|(parts & -> & Hne & Ht)]; simpl; [eauto|].
    right. exists (VStr s :: parts). split; [reflexivity|].
    split; [discriminate|]. simpl. rewrite Ht. reflexivity.
  - destruct (describe_event_bad e De) as [[x ->]|(v & -> & Hv)]; simpl; [eauto|].
    destruct (rmap describe_event evs) as [parts|x]; simpl; [|eauto].
    right. exists (v :: parts). split; [reflexivity|].
    split; [discriminate|]. simpl. rewrite Hv. reflexivity.
Qed.

Lemma serialize_journey_ok (p : path) :
  printable p = true -> exists text, serialize_journey_to_text p = Ok text.
Proof.
  unfold printable, serialize_journey_to_text. intros H.
  apply andb_true_iff in H as [Hu He].
  destruct (narration_ok _ He) as (parts & texts & Hp & Ht).
  assert (Hhead : exists head,
             match path_user p with
             | Some (_, Some ctx) =>
                 let? ltv := py_format_2f (ctx_ltv ctx) in
                 Ok ["User (segment: " ++ py_str (ctx_segment ctx) ++ ", LTV: $" ++ ltv
                       ++ ", churned: " ++ py_str (ctx_churned ctx) ++ ")"]
             | _ => Ok []
             end = Ok head).
  { destruct (path_user p) as [[uid [ctx|]]|]; try (eexists; reflexivity).
    destruct (py_format_2f_ok _ Hu) as [ltv ->]. eexists. reflexivity. }
  destruct Hhead as [head ->]. simpl. rewrite Hp. simpl.
  destruct parts as [|v parts]; [simpl; eexists; reflexivity|].
  rewrite Ht. simpl. eexists. reflexivity.
Qed.

Lemma serialize_journey_bad (p : path) :
  printable p = false ->
  exists x, serialize_journey_to_text p = Err x /\ format_error x.
Proof.
  unfold printable, serialize_journey_to_text. intros H.
  destruct (match path_user p with
            | Some (_, Some ctx) =>
                let? ltv := py_format_2f (ctx_ltv ctx) in
                Ok ["User (segment: " ++ py_str (ctx_segment ctx) ++ ", LTV: $" ++ ltv
                      ++ ", churned: " ++ py_str (ctx_churned ctx) ++ ")"]
            | _ => Ok []
            end) as [head|x] eqn:Hhead.
  - assert (Hu : match path_user p with
                 | Some (_, Some ctx) => formats (ctx_ltv ctx)
                 | _ => true
                 end = true).
    { destruct (path_user p) as [[uid [ctx|]]|]; try reflexivity.
      destruct (formats (ctx_ltv ctx)) eqn:F; [reflexivity|].
      apply py_format_2f_fails in F as [x Hx]. rewrite Hx in Hhead. discriminate. }
    rewrite Hu in H. simpl in H.
    destruct (narration_bad _ H) as [[x Hx]|(parts & Hp & Hne & Ht)]; simpl.
    + rewrite Hx. simpl. exists x. split; [reflexivity|].
      eapply rmap_describe_errors. exact Hx.
    + rewrite Hp. simpl. destruct parts as [|v parts]; [contradiction|].
      rewrite Ht. simpl. exists TypeError. split; [reflexivity|].
      unfold format_error. auto.
  - simpl. exists x. split; [reflexivity|].
    destruct (path_user p) as [[uid [ctx|]]|]; try discriminate.
    destruct (py_format_2f (ctx_ltv ctx)) as [ltv|x'] eqn:F; simpl in Hhead;
      [discriminate|].
    injection Hhead as <-. eapply py_format_2f_errors. exact F.
Qed.

(** X14. [serialize_journey_to_text] returns exactly for the paths it can
    print: the user context, if there is one, has an ["ltv"] that [.2f]
    formats (a float, a bool or an int in float range, so not [None]),
    every event's type is a string, and the price of the first product of
    every event that has products can be formatted. For any other path it
    raises [TypeError], [ValueError] or [OverflowError]. *)
Theorem serialize_journey_returns_iff_printable (p : path) :
  (printable p = true -> exists text, serialize_journey_to_text p = Ok text)
  /\ (printable p = false ->
      exists x, serialize_journey_to_text p = Err x /\ format_error x).
Proof. split; [apply serialize_journey_ok | apply serialize_journey_bad]. Qed.

Lemma serialize_journey_returns_iff_printable_witness :
  printable churned_user_path = true
  /\ exists text, serialize_journey_to_text churned_user_path = Ok text.
Proof.
  split; [reflexivity|].
  apply (proj1 (serialize_journey_returns_iff_printable churned_user_path)).
  reflexivity.
Defined.

Lemma rmap_enumerate_ok {A B} (g : Z * A -> result B) (l : list A) :
  forall start ys,
    rmap g (enumerate start l) = Ok ys ->
    Forall (fun x => exists i y, g (i, x) = Ok y) l.
Proof.
  induction l as [|x l IH]; simpl; intros start ys H; [constructor|].
  destruct (g (start, x)) as [y|e] eqn:Gx; [|discriminate]. simpl in H.
  destruct (rmap g (enumerate (start + 1) l)) as [ys'|e] eqn:R; [|discriminate].
  constructor; [eauto | eapply IH; exact R].
Qed.

Lemma serialize_journeys_printable (journeys : list path) (max_journeys : Z)
    (include_stats : bool) (text : string) :
  serialize_journeys_for_llm journeys max_journeys include_stats = Ok text ->
  forallb printable (slice_to max_journeys journeys) = true.
Proof.
  unfold serialize_journeys_for_llm. destruct journeys as [|p ps].
  - intros _. unfold slice_to. destruct (max_journeys <? 0); simpl;
      rewrite firstn_nil; reflexivity.
  - intros H. apply rbind_ok in H as (shown & Hs & _).
    apply rmap_enumerate_ok in Hs. apply forallb_forall. intros q Hq.
    rewrite Forall_forall in Hs. destruct (Hs q Hq) as (i & y & Hy).
    destruct (printable q) eqn:Pq; [reflexivity|].
    apply serialize_journey_bad in Pq as (x & Hx & _).
    rewrite Hx in Hy. discriminate.
Qed.

(** X15. [query_churned_user_journeys] narrates the first five churn paths.
    It returns only if each of them can be printed; in particular the
    churned user of each has an ["ltv"] attribute that [.2f] formats, so a
    churned user without ["ltv"] among the first five makes the whole query
    raise. *)
Theorem churned_query_needs_printable_paths (G : Graph) (sample_size : Z)
    (text : string) :
  run (query_churned_user_journeys sample_size) G = Ok text ->
  exists paths,
    run (find_churn_paths sample_size) G = Ok paths
    /\ forallb printable (slice_to 5 paths) = true
    /\ Forall (fun p => exists user_id ctx,
                   path_user p = Some (user_id, Some ctx)
                   /\ run (get_user_context user_id) G = Ok (Some ctx)
                   /\ formats (ctx_ltv ctx) = true)
              (slice_to 5 paths).
Proof.
  intros H. unfold query_churned_user_journeys in H.
  apply run_bind_ok in H as (paths & Hp & H); [|solve [ro]].
  apply run_bind_ok in H as (patterns & _ & H); [|solve [ro]].
  apply run_bind_ok in H as (journey_text & Hj & _); [|solve [ro]].
  rewrite run_lift in Hj. apply serialize_journeys_printable in Hj.
  exists paths. split; [exact Hp|]. split; [exact Hj|].
  assert (Hall : Forall (churn_path G) paths).
  { unfold find_churn_paths in Hp.
    apply run_bind_ok in Hp as (exit_sessions & Hs & Hp); [|solve [ro]].
    apply outcome_scan_ok in Hs as [_ Hown].
    apply (for_each_invariant_break (Forall (churn_path G)) (Forall (churn_path G)))
      in Hp.
    - destruct Hp; assumption.
    - intros; ro.
    - intros x s c Hin Hall Hc. rewrite Forall_forall in Hown.
      destruct (churn_paths_step G x s c (Hown x Hin) Hc) as [E|[p [E Hpp]]].
      + destruct c; simpl in E; subst; assumption.
      + assert (Forall (churn_path G) (s +++ [p]))
          by (apply Forall_app; split; [assumption | repeat constructor; assumption]).
        destruct c; simpl in E; subst; assumption.
    - constructor. }
  rewrite Forall_forall in Hall |- *. intros p Hin.
  rewrite forallb_forall in Hj. pose proof (Hj p Hin) as Pp.
  destruct (Hall p (slice_to_incl 5 paths p Hin))
    as (uid & ctx & session & d & Hu & Hctx & _).
  exists uid, ctx. split; [exact Hu|]. split; [exact Hctx|].
  unfold printable in Pp. rewrite Hu in Pp.
  apply andb_true_iff in Pp. apply Pp.
Qed.

Lemma churned_query_needs_printable_paths_witness :
  exists paths,
    run (find_churn_paths 30) churned_user_graph = Ok paths
    /\ forallb printable (slice_to 5 paths) = true
    /\ Forall (fun p => exists user_id ctx,
                   path_user p = Some (user_id, Some ctx)
                   /\ run (get_user_context user_id) churned_user_graph
                      = Ok (Some ctx)
                   /\ formats (ctx_ltv ctx) = true)
              (slice_to 5 paths).
Proof.
  apply (churned_query_needs_printable_paths churned_user_graph 30
           churned_user_text).
  vm_compute. reflexivity.
Defined.

(* ===================================================================== *)
(** ** Query routing *)
(* ===================================================================== *)

(** X16. How [get_graphrag_context] routes. A query that mentions "churn"
    or "drop", in any case, gets the churned-user analysis whatever the
    category. The keyword "exit" has no effect: two queries that mention
    the same of the other six keywords are routed alike, with or without
    "exit". And with no category (or an empty one) a query that is not a
    cohort or pre-purchase question gets the churned-user analysis. *)
Theorem routing_ignores_exit (q1 q2 : string) (category : option string) :
  same_keywords q1 q2 = true ->
  get_graphrag_context q1 category = get_graphrag_context q2 category
  /\ (contains "churn" (lower q1) || contains "drop" (lower q1) = true ->
      get_graphrag_context q1 category = query_churned_user_journeys 30)
  /\ (str_truthy category = false ->
      contains "high" (lower q1) && contains "low" (lower q1) = false ->
      contains "before" (lower q1) && contains "purchase" (lower q1) = false ->
      get_graphrag_context q1 category = query_churned_user_journeys 30).
Proof.
  intros H. unfold same_keywords, routing_keywords in H. cbn [forallb] in H.
  apply andb_true_iff in H as [E1 H]. apply andb_true_iff in H as [E2 H].
  apply andb_true_iff in H as [E3 H]. apply andb_true_iff in H as [E4 H].
  apply andb_true_iff in H as [E5 H]. apply andb_true_iff in H as [E6 _].
  apply Bool.eqb_prop in E1, E2, E3, E4, E5, E6.
  unfold get_graphrag_context. cbv zeta. split; [|split].
  - rewrite E1, E2, E3, E4, E5, E6.
    destruct (contains "churn" (lower q2) || contains "drop" (lower q2));
      [reflexivity|].
    destruct (contains "high" (lower q2) && contains "low" (lower q2));
      [reflexivity|].
    destruct (contains "before" (lower q2) && contains "purchase" (lower q2));
      [reflexivity|].
    destruct (str_truthy category).
    + destruct (contains "exit" (lower q1)), (contains "exit" (lower q2));
        reflexivity.
    + rewrite !andb_false_r. reflexivity.
  - intros ->. reflexivity.
  - intros -> -> ->. rewrite andb_false_r.
    destruct (contains "churn" (lower q1) || contains "drop" (lower q1));
      reflexivity.
Qed.

Lemma routing_ignores_exit_witness :
  get_graphrag_context "Where do users EXIT?" (Some "Fashion")
  = get_graphrag_context "Tell me about fashion" (Some "Fashion")
  /\ (contains "churn" (lower "Where do users EXIT?")
      || contains "drop" (lower "Where do users EXIT?") = true ->
      get_graphrag_context "Where do users EXIT?" (Some "Fashion")
      = query_churned_user_journeys 30)
  /\ (str_truthy (Some "Fashion") = false ->
      contains "high" (lower "Where do users EXIT?")
      && contains "low" (lower "Where do users EXIT?") = false ->
      contains "before" (lower "Where do users EXIT?")
      && contains "purchase" (lower "Where do users EXIT?") = false ->
      get_graphrag_context "Where do users EXIT?" (Some "Fashion")
      = query_churned_user_journeys 30).
Proof.
  apply (routing_ignores_exit "Where do users EXIT?" "Tell me about fashion"
           (Some "Fashion")).
  vm_compute. reflexivity.
Defined.

Lemma route_churned (query : string) (category : option string) :
  contains "churn" (lower query) || contains "drop" (lower query) = true ->
  get_graphrag_context query category = query_churned_user_journeys 30.
Proof. intros H. unfold get_graphrag_context. cbv zeta. rewrite H. reflexivity. Qed.

(** X17. Where [get_graphrag_context] sends the five preset queries of the
    API with their categories: three of them, among them the fashion exit
    preset and the conversion funnel preset (both say "drop"), get the
    churned-user analysis; the pre-purchase preset says "purchasing", which
    does not contain "purchase", and gets the exit analysis of its
    category. No preset reaches [query_pre_purchase_behavior]. *)
Theorem preset_routes :
  Forall2 (fun preset routed =>
             get_graphrag_context (snd (fst preset)) (snd preset) = routed)
          PRESET_QUERIES
          [query_churned_user_journeys 30;
           query_category_exit_analysis "Electronics";
           query_high_vs_low_ltv;
           query_churned_user_journeys 30;
           query_churned_user_journeys 30].
Proof.
  unfold PRESET_QUERIES. repeat apply Forall2_cons; [ | | | | | apply Forall2_nil];
    cbn [fst snd].
  - apply route_churned. vm_compute. reflexivity.
  - unfold get_graphrag_context. cbv zeta.
    match goal with
    | |- context [contains "churn" ?q || contains "drop" ?q] =>
        replace (contains "churn" q || contains "drop" q) with false
          by (vm_compute; reflexivity);
        replace (contains "high" q && contains "low" q) with false
          by (vm_compute; reflexivity);
        replace (contains "before" q && contains "purchase" q) with false
          by (vm_compute; reflexivity);
        replace (contains "exit" q) with false by (vm_compute; reflexivity)
    end.
    reflexivity.
  - unfold get_graphrag_context. cbv zeta.
    match goal with
    | |- context [contains "churn" ?q || contains "drop" ?q] =>
        replace (contains "churn" q || contains "drop" q) with false
          by (vm_compute; reflexivity);
        replace (contains "high" q && contains "low" q) with true
          by (vm_compute; reflexivity)
    end.
    reflexivity.
  - apply route_churned. vm_compute. reflexivity.
  - apply route_churned. vm_compute. reflexivity.
Qed.

(* ===================================================================== *)
(** ** Graph statistics *)
(* ===================================================================== *)

Lemma count_types_from {A} (key : A -> value) (items : list A) :
  forall c,
    counted c ->
    counted (fold_left (fun c x => counter_incr py_eqb (key x) c) items c)
    /\ counter_total (fold_left (fun c x => counter_incr py_eqb (key x) c) items c)
       = counter_total c + len items.
Proof.
  induction items as [|x items IH]; simpl; intros c Hc.
  - split; [assumption|]. unfold len. simpl. lia.
  - destruct (IH _ (counter_incr_counted py_eqb (key x) c Hc)) as [H1 H2].
    split; [exact H1|]. rewrite H2, counter_incr_total. unfold len.
    change (List.length (x :: items)) with (S (List.length items)). lia.
Qed.

Lemma count_types_total {A} (key : A -> value) (items : list A) :
  counted (count_types key items)
  /\ counter_total (count_types key items) = len items.
Proof.
  unfold count_types.
  destruct (count_types_from key items [] (Forall_nil _)) as [H1 H2].
  split; [exact H1|]. rewrite H2. reflexivity.
Qed.

Lemma filter_disjoint_length {A} (p q : A -> bool) (l : list A) :
  (forall x, p x = true -> q x = false) ->
  List.length (filter (fun x => p x || q x) l)
  = (List.length (filter p l) + List.length (filter q l))%nat.
Proof.
  intros D. induction l as [|x l IH]; simpl; [reflexivity|].
  destruct (p x) eqn:P; simpl.
  - rewrite (D x P). simpl. rewrite IH. reflexivity.
  - destruct (q x); simpl; rewrite IH; lia.
Qed.

Lemma filter_none_length {A} (l : list A) :
  List.length (filter (fun _ => false) l) = 0%nat.
Proof. induction l; simpl; auto. Qed.

Lemma out_edges_length (es : list (string * string * attrs))
    (ns : list (string * attrs)) :
  distinct (map fst ns) = true ->
  List.length (flat_map (fun nd => filter (fun e => String.eqb (fst (fst e)) (fst nd))
                                          es) ns)
  = List.length (filter (from_node ns) es).
Proof.
  unfold from_node. induction ns as [|nd ns IH]; simpl; intros H.
  - rewrite filter_none_length. reflexivity.
  - apply andb_true_iff in H as [Hnd Hns]. apply negb_true_iff in Hnd.
    rewrite length_app, (IH Hns).
    symmetry. apply filter_disjoint_length.
    intros e He. apply String.eqb_eq in He.
    destruct (existsb (fun nd0 => String.eqb (fst (fst e)) (fst nd0)) ns) eqn:X;
      [|reflexivity].
    apply existsb_exists in X as (nd' & Hin & Heq). apply String.eqb_eq in Heq.
    assert (Y : existsb (String.eqb (fst nd)) (map fst ns) = true).
    { apply existsb_exists. exists (fst nd'). split; [apply in_map; exact Hin|].
      apply String.eqb_eq. congruence. }
    congruence.
Qed.

Lemma mem_node_from (G : Graph) (e : string * string * attrs) :
  mem_node G (fst (fst e)) = true -> from_node (g_nodes G) e = true.
Proof.
  unfold mem_node, from_node. generalize (g_nodes G) as ns.
  induction ns as [|[n d] ns IH]; simpl; [discriminate|].
  rewrite (String.eqb_sym (fst (fst e)) n).
  destruct (String.eqb n (fst (fst e))); [reflexivity | exact IH].
Qed.

Lemma filter_all {A} (p : A -> bool) (l : list A) :
  forallb p l = true -> filter p l = l.
Proof.
  induction l as [|x l IH]; simpl; [reflexivity|]. intros H.
  apply andb_true_iff in H as [Hx Hl]. rewrite Hx, (IH Hl). reflexivity.
Qed.

(** X18. [get_graph_stats] never raises, and its counts add up: the counts
    by node type sum to the number of nodes, and the counts by edge type
    to the number of edges, a node or edge without a type being counted as
    ["Unknown"]. Every count is positive. (The edge count is stated for a
    graph as [DiGraph] keeps it: node names distinct, every edge between
    nodes of the graph.) *)
Theorem graph_stats_add_up (G : Graph) :
  distinct (map fst (g_nodes G)) = true ->
  closed G = true ->
  exists s,
    run get_graph_stats G = Ok s
    /\ snd (get_graph_stats G) = G
    /\ total_nodes s = len (g_nodes G)
    /\ total_edges s = len (g_edges G)
    /\ counted (node_types s)
    /\ counted (edge_types s)
    /\ counter_total (node_types s) = total_nodes s
    /\ counter_total (edge_types s) = total_edges s.
Proof.
  intros Hd Hc. eexists. split; [reflexivity|]. cbn [total_nodes total_edges
    node_types edge_types]. split; [reflexivity|].
  split; [reflexivity|]. split; [reflexivity|].
  split; [apply count_types_total|]. split; [apply count_types_total|].
  split; [apply count_types_total|].
  rewrite (proj2 (count_types_total _ _)). unfold len. f_equal.
  rewrite (out_edges_length _ _ Hd). f_equal. apply filter_all.
  unfold closed in Hc. rewrite forallb_forall in Hc |- *. intros e He.
  specialize (Hc e He). apply andb_true_iff in Hc as [Hsrc _].
  apply mem_node_from. exact Hsrc.
Qed.

Lemma graph_stats_add_up_witness :
  exists s,
    run get_graph_stats sample_graph = Ok s
    /\ snd (get_graph_stats sample_graph) = sample_graph
    /\ total_nodes s = len (g_nodes sample_graph)
    /\ total_edges s = len (g_edges sample_graph)
    /\ counted (node_types s)
    /\ counted (edge_types s)
    /\ counter_total (node_types s) = total_nodes s
    /\ counter_total (edge_types s) = total_edges s.
Proof.
  apply (graph_stats_add_up sample_graph); vm_compute; reflexivity.
Defined.

(* ===================================================================== *)
(** ** The category filter of the purchase scan *)
(* ===================================================================== *)

Lemma first_where_found {A} (p : A -> M bool) (G : Graph) (l : list A) (x : A) :
  (forall y, read_only (p y)) ->
  run (first_where p l) G = Ok (Some x) -> run (p x) G = Ok true.
Proof.
  intros Hro. induction l as [|y l IH]; simpl; intros H.
  - rewrite run_ret in H. discriminate.
  - apply run_bind_ok in H as (b & Hb & H); [|apply Hro].
    destruct b; [|exact (IH H)].
    rewrite run_ret in H. injection H as <-. exact Hb.
Qed.

Lemma first_product_is_a_product (G : Graph) (n : string) (d : attrs) :
  run (first_product n) G = Ok (Some d) ->
  exists product, In (product, d) (g_nodes G) /\ has_type d "Product" = true.
Proof.
  intros H. unfold first_product in H.
  apply run_bind_ok in H as (succs & _ & H); [|solve [ro]].
  apply run_bind_ok in H as (found & Hf & H); [|solve [ro]].
  destruct found as [succ|]; [|rewrite run_ret in H; discriminate].
  apply run_bind_ok in H as (d' & Hd & H); [|solve [ro]].
  rewrite run_ret in H. injection H as <-.
  apply first_where_found in Hf; [|intros; auto with ro].
  rewrite run_node_has_type in Hf.
  unfold run, node_attrs in Hd. simpl in Hd.
  destruct (find_node (g_nodes G) succ) as [d0|] eqn:F; [|discriminate].
  injection Hd as <-. injection Hf as Hty.
  exists succ. split; [apply find_node_In; exact F | exact Hty].
Qed.

(** X19. With a category filter, [find_products_before_purchase] analyzes a
    purchase only if the first [Product] successor of the purchase event
    has that category. So when no product of the graph has the category,
    no purchase is analyzed and both rankings are empty, however many
    purchases there are. *)
Theorem category_filter_excludes_other_products (G : Graph) (category : string)
    (limit : Z) :
  String.eqb category "" = false ->
  no_product_of category G = true ->
  run (find_products_before_purchase (Some category) limit) G
  = Ok (mkPurchaseReport 0 [] [])
  \/ exists e, run (find_products_before_purchase (Some category) limit) G = Err e.
Proof.
  intros Hne Hno.
  destruct (run (find_products_before_purchase (Some category) limit) G)
    as [r|e] eqn:H; [left; f_equal | right; eauto].
  unfold find_products_before_purchase in H.
  apply run_bind_ok in H as (nodes & Hn & H); [|solve [rw]].
  inversion Hn; subst nodes; clear Hn.
  apply run_bind_ok in H as ([viewed total] & Hloop & H);
    [|apply ro_for_each; intros [? ?] [? ?]; rw].
  rewrite run_ret in H. injection H as <-.
  apply (for_each_invariant (fun st => st = (([], []), 0))) in Hloop.
  - injection Hloop as -> ->. reflexivity.
  - intros [? ?] [? ?]; rw.
  - intros [node data] [viewed0 total0] c E Hc. injection E as -> ->.
    destruct (has_type data "Event"); simpl in Hc;
      [|inversion Hc; reflexivity].
    destruct (py_eqb (get data "event_type") (VStr "purchase")); simpl in Hc;
      [|inversion Hc; reflexivity].
    apply run_bind_ok in Hc as (keep & Hk & Hc); [|solve [rw]].
    assert (K : keep = false).
    { unfold str_truthy in Hk. rewrite Hne in Hk. simpl in Hk.
      apply run_bind_ok in Hk as (purchased_product & Hp & Hk); [|solve [ro]].
      destruct purchased_product as [[|kv d]|];
        rewrite run_ret in Hk; injection Hk as <-; try reflexivity.
      apply first_product_is_a_product in Hp as (product & Hin & Hty).
      unfold no_product_of in Hno. rewrite forallb_forall in Hno.
      specialize (Hno _ Hin). simpl in Hno. rewrite Hty in Hno. simpl in Hno.
      apply negb_true_iff in Hno. exact Hno. }
    subst keep. simpl in Hc. inversion Hc. reflexivity.
  - reflexivity.
Qed.

Lemma category_filter_excludes_other_products_witness :
  run (find_products_before_purchase (Some "Fashion") 50) purchased_product_graph
  = Ok (mkPurchaseReport 0 [] [])
  \/ exists e,
       run (find_products_before_purchase (Some "Fashion") 50) purchased_product_graph
       = Err e.
Proof.
  apply (category_filter_excludes_other_products purchased_product_graph "Fashion" 50);
    vm_compute; reflexivity.
Defined.

(** With the category of the purchased product as filter, the purchase is
    analyzed. *)
Example category_filter_keeps_matching_purchase :
  run (find_products_before_purchase (Some "Electronics") 50) purchased_product_graph
  = Ok (mkPurchaseReport 1 [(VStr "Electronics", 1)] [(VStr "Test Product", 1)]).
Proof. vm_compute. reflexivity. Qed.
